(** * PhoneDealsScrapper: the scraper of [bbm.py] and its CSV report

    A shallow embedding of [src/bbm.py]: the carrier table, the pricing
    fetcher with its retry loop, the offer arithmetic on the values that
    [response.json()] hands back, and the report writer.

    Conventions of the embedding.
    - A Python value coming out of [json.loads] is a [pyval].  Python's [int]
      is [Z]; Python's [float] is an IEEE 754 binary64 number, a [spec_float]
      of the standard library with [prec = 53] and [emax = 1024].
    - A Python [str] is a [string], one [ascii] per character; the embedding
      is exact on ASCII text ([str.lower] is ASCII lower-casing here).
    - Integers are unbounded and are printed in full: the interpreter's
      configurable limit on the digits of an [int] to [str] conversion is not
      part of the embedding.
    - An exception is a value of [exn]; a computation that may raise returns
      [exn + A].
    - The network and the console are a [world]: an oracle that answers the
      n-th request, the number of requests made so far, and the log of what
      the program did (requests, printed lines, sleeps).
    - [float(s)] skips C white space only, [s.strip()] the white space of
      [str.isspace]: the two differ on the separators 0x1C-0x1F.
    - A row that the UTF-8 report file cannot take (a cell with a lone
      surrogate) has no image in [string]: [main] is given the predicate
      that tells which rows can be encoded. *)

From Stdlib Require Import ZArith String Ascii List Lia DecimalString.
From Stdlib Require Import Floats.SpecFloat.
From Equations Require Import Equations.
From stdpp Require Import gmap strings list.

Local Open Scope string_scope.
Local Open Scope Z_scope.

(** ** Small string helpers *)

(** Python's [s * n] on a string, for [n] given as a [nat]. *)
Fixpoint str_repeat (n : nat) (s : string) : string :=
  match n with
  | O => EmptyString
  | S n' => s ++ str_repeat n' s
  end.

(** The decimal digits of a non-negative integer. *)
Definition digits_of (n : Z) : string :=
  NilZero.string_of_uint (N.to_uint (Z.to_N n)).

(** Python's [str] of an [int]. *)
Definition str_of_int (z : Z) : string :=
  NilZero.string_of_int (Z.to_int z).

(** A number below 100 written with two digits. *)
Definition pad2 (n : Z) : string :=
  if n <? 10 then "0" ++ digits_of n else digits_of n.

(** A digit string without its trailing zeros. *)
Fixpoint rstrip_zeros (s : string) : string :=
  match s with
  | EmptyString => EmptyString
  | String c s' =>
      match rstrip_zeros s' with
      | EmptyString => if Ascii.eqb c "0" then EmptyString else String c EmptyString
      | t => String c t
      end
  end.

(** ** Binary64 arithmetic, conversion and printing *)

Module Float64.

Definition prec : Z := 53.
Definition emax : Z := 1024.

Definition mul : spec_float -> spec_float -> spec_float := SFmul prec emax.
Definition add : spec_float -> spec_float -> spec_float := SFadd prec emax.
Definition sub : spec_float -> spec_float -> spec_float := SFsub prec emax.

(** The canonical representative of a float (mantissa aligned on the
    exponent binary64 gives it). *)
Definition normalize (x : spec_float) : spec_float := SFldexp prec emax x 0.

Definition eqb_repr (x y : spec_float) : bool :=
  match x, y with
  | S754_zero a, S754_zero b => Bool.eqb a b
  | S754_infinity a, S754_infinity b => Bool.eqb a b
  | S754_nan, S754_nan => true
  | S754_finite a m e, S754_finite b m' e' =>
      Bool.eqb a b && Pos.eqb m m' && Z.eqb e e'
  | _, _ => false
  end.

(** [x != 0.0], the truth value of a float. *)
Definition nonzero (x : spec_float) : bool :=
  match x with
  | S754_zero _ => false
  | _ => true
  end.

(** The float nearest to [n / d] (ties to even), for [0 < n] and [0 < d]:
    the quotient is taken with at least 64 bits and the remainder tells on
    which side of the half-way point the exact value lies. *)
Definition of_ratio (neg : bool) (n d : Z) : spec_float :=
  let k := Z.max 0 (64 + Z.log2 d - Z.log2 n) in
  let '(q, r) := Z.div_eucl (Z.shiftl n k) d in
  binary_round_aux prec emax neg q (- k) (new_location d r).

(** The float nearest to [m * 10 ^ e], for [0 <= m]. *)
Definition of_decimal (neg : bool) (m e : Z) : spec_float :=
  if m =? 0 then S754_zero neg
  else if 0 <=? e then of_ratio neg (m * 10 ^ e) 1
  else of_ratio neg m (10 ^ (- e)).

(** Python's conversion of an [int] to a [float]; [None] stands for the
    [OverflowError] of an integer beyond the range of binary64. *)
Definition of_int (z : Z) : option spec_float :=
  match of_decimal (z <? 0) (Z.abs z) 0 with
  | S754_infinity _ => None
  | f => Some f
  end.

(** A finite non-zero float as an exact fraction [n / d]. *)
Definition to_ratio (m : positive) (e : Z) : Z * Z :=
  if 0 <=? e then (Z.pos m * 2 ^ e, 1) else (Z.pos m, 2 ^ (- e)).

(** The decimal point of [n / d]: the [p] with
    [10 ^ (p - 1) <= n / d < 10 ^ p]. *)
Definition decimal_point (n d : Z) : Z :=
  if d <=? n then Z.of_nat (String.length (digits_of (n / d)))
  else
    let j0 := Z.of_nat (String.length (digits_of d))
              - Z.of_nat (String.length (digits_of n)) in
    if d <=? n * 10 ^ j0 then 1 - j0 else - j0.

(** The shortest decimal that reads back as [x]: for [k = 1, 2, ...]
    significant digits, the two [k]-digit neighbours of [n / d] are tried;
    the first [k] at which one of them converts back to [x] wins, and
    when both do, the nearer one (ties to the even digit).  The result is
    [(D, e)] for the decimal [D * 10 ^ e]. *)
Fixpoint shortest (fuel : nat) (k : Z) (x : spec_float) (n d p : Z) : Z * Z :=
  let s := k - p in
  let n' := if 0 <=? s then n * 10 ^ s else n in
  let d' := if 0 <=? s then d else d * 10 ^ (- s) in
  let lo := n' / d' in
  let r := n' mod d' in
  let hi := lo + 1 in
  let ok_lo := eqb_repr (of_decimal false lo (- s)) x in
  let ok_hi := eqb_repr (of_decimal false hi (- s)) x in
  let nearer :=
    match 2 * r ?= d' with
    | Lt => lo
    | Eq => if Z.even lo then lo else hi
    | Gt => hi
    end in
  if ok_lo && ok_hi then (nearer, - s)
  else if ok_lo then (lo, - s)
  else if ok_hi then (hi, - s)
  else
    match fuel with
    | O => (nearer, - s)
    | S fuel' => shortest fuel' (k + 1) x n d p
    end.

(** The layout of [repr]: digits [ds] (no trailing zero) with the decimal
    point [decpt] places after the start of [ds]; exponent notation when
    [decpt <= -4] or [16 < decpt], and a [".0"] added to a whole number. *)
Definition layout_repr (ds : string) (decpt : Z) : string :=
  let nd := Z.of_nat (String.length ds) in
  if (decpt <=? -4) || (16 <? decpt) then
    let ex := decpt - 1 in
    String.substring 0 1 ds
    ++ (if 1 <? nd then "." ++ String.substring 1 (String.length ds - 1) ds else EmptyString)
    ++ "e" ++ (if ex <? 0 then "-" else "+") ++ pad2 (Z.abs ex)
  else if decpt <=? 0 then
    "0." ++ str_repeat (Z.to_nat (- decpt)) "0" ++ ds
  else if nd <=? decpt then
    ds ++ str_repeat (Z.to_nat (decpt - nd)) "0" ++ ".0"
  else
    String.substring 0 (Z.to_nat decpt) ds ++ "."
    ++ String.substring (Z.to_nat decpt) (String.length ds - Z.to_nat decpt) ds.

(** Python's [repr] (and [str]) of a float. *)
Definition repr (x : spec_float) : string :=
  match normalize x with
  | S754_zero s => if s then "-0.0" else "0.0"
  | S754_infinity s => if s then "-inf" else "inf"
  | S754_nan => "nan"
  | S754_finite s m e =>
      let '(n, d) := to_ratio m e in
      let '(D, e10) :=
        shortest 16 1 (S754_finite false m e) n d (decimal_point n d) in
      let all := digits_of D in
      (if s then "-" else EmptyString)
      ++ layout_repr (rstrip_zeros all) (Z.of_nat (String.length all) + e10)
  end.

(** Python's [format(x, '.2f')]: the exact value rounded to the nearest
    hundredth, ties to even. *)
Definition format_2f (x : spec_float) : string :=
  match x with
  | S754_zero s => if s then "-0.00" else "0.00"
  | S754_infinity s => if s then "-inf" else "inf"
  | S754_nan => "nan"
  | S754_finite s m e =>
      let '(n, d) := to_ratio m e in
      let q := (n * 100) / d in
      let r := (n * 100) mod d in
      let q' :=
        match 2 * r ?= d with
        | Lt => q
        | Eq => if Z.even q then q else q + 1
        | Gt => q + 1
        end in
      (if s then "-" else EmptyString) ++ digits_of (q' / 100) ++ "." ++ pad2 (q' mod 100)
  end.

End Float64.

(** ** Python values and exceptions *)

Set Warnings "-register-all".

(** What [json.loads] can return. The items of a [PDict] are in insertion
    order, with distinct keys. *)
Inductive pyval : Type :=
| PNone
| PBool (b : bool)
| PInt (z : Z)
| PFloat (f : spec_float)
| PStr (s : string)
| PList (l : list pyval)
| PDict (items : list (string * pyval)).

(** The exceptions that the program can meet. [TransportError] is what
    [session.get] raises (a [requests.exceptions.RequestException]);
    [JSONDecodeError] is what [response.json()] raises on a body that is not
    JSON; the others are Python's own. *)
Inductive exn : Type :=
| TransportError (msg : string)
| JSONDecodeError
| IndexError
| KeyError (key : pyval)
| TypeError
| ValueError
| OverflowError
| UnboundLocalError (var : string)
| AttributeError.

(** A computation that returns or raises. *)
Definition res (A : Type) : Type := exn + A.

Definition res_bind {A B : Type} (x : res A) (f : A -> res B) : res B :=
  match x with
  | inl e => inl e
  | inr a => f a
  end.

(** *** Numbers *)

(** [bool], [int] and [float] take part in arithmetic; [True] is [1]. *)
Inductive number : Type :=
| NInt (z : Z)
| NFloat (f : spec_float).

Definition as_number (v : pyval) : option number :=
  match v with
  | PBool b => Some (NInt (if b then 1 else 0))
  | PInt z => Some (NInt z)
  | PFloat f => Some (NFloat f)
  | _ => None
  end.

(** An [int] (or [bool]) used as a sequence index or repeat count. *)
Definition as_int (v : pyval) : option Z :=
  match v with
  | PBool b => Some (if b then 1 else 0)
  | PInt z => Some z
  | _ => None
  end.

Definition float_of_number (n : number) : res spec_float :=
  match n with
  | NInt z =>
      match Float64.of_int z with
      | Some f => inr f
      | None => inl OverflowError
      end
  | NFloat f => inr f
  end.

(** A binary operator on numbers: exact on two integers, binary64 as soon
    as one operand is a float. *)
Definition arith (on_int : Z -> Z -> Z)
    (on_float : spec_float -> spec_float -> spec_float)
    (a b : number) : res pyval :=
  match a, b with
  | NInt x, NInt y => inr (PInt (on_int x y))
  | _, _ =>
      res_bind (float_of_number a) (fun x =>
      res_bind (float_of_number b) (fun y =>
      inr (PFloat (on_float x y))))
  end.

(** Python's [seq * n] on a list. *)
Definition list_repeat (n : Z) (l : list pyval) : list pyval :=
  List.concat (List.repeat l (Z.to_nat n)).

(** Python's [a * b]. *)
Definition py_mul (a b : pyval) : res pyval :=
  match as_number a, as_number b with
  | Some x, Some y => arith Z.mul Float64.mul x y
  | _, _ =>
      match a, as_int b, as_int a, b with
      | PStr s, Some n, _, _ => inr (PStr (str_repeat (Z.to_nat n) s))
      | PList l, Some n, _, _ => inr (PList (list_repeat n l))
      | _, _, Some n, PStr s => inr (PStr (str_repeat (Z.to_nat n) s))
      | _, _, Some n, PList l => inr (PList (list_repeat n l))
      | _, _, _, _ => inl TypeError
      end
  end.

(** Python's [a + b]. *)
Definition py_add (a b : pyval) : res pyval :=
  match as_number a, as_number b with
  | Some x, Some y => arith Z.add Float64.add x y
  | _, _ =>
      match a, b with
      | PStr s, PStr t => inr (PStr (s ++ t))
      | PList l, PList m => inr (PList (l ++ m))
      | _, _ => inl TypeError
      end
  end.

(** Python's [a - b]. *)
Definition py_sub (a b : pyval) : res pyval :=
  match as_number a, as_number b with
  | Some x, Some y => arith Z.sub Float64.sub x y
  | _, _ => inl TypeError
  end.

(** The truth value of [v], as [if v] tests it. *)
Definition py_truthy (v : pyval) : bool :=
  match v with
  | PNone => false
  | PBool b => b
  | PInt z => negb (z =? 0)
  | PFloat f => Float64.nonzero f
  | PStr s => negb (String.eqb s EmptyString)
  | PList l => match l with [] => false | _ => true end
  | PDict items => match items with [] => false | _ => true end
  end.

(** [v == s] for a string literal [s]: only an equal [str] is equal to it. *)
Definition py_eq_str (v : pyval) (s : string) : bool :=
  match v with
  | PStr t => String.eqb t s
  | _ => false
  end.

(** [isinstance(v, float)]. *)
Definition isinstance_float (v : pyval) : bool :=
  match v with
  | PFloat _ => true
  | _ => false
  end.

(** *** Containers *)

(** Python's [len(v)]. *)
Definition py_len (v : pyval) : res Z :=
  match v with
  | PStr s => inr (Z.of_nat (String.length s))
  | PList l => inr (Z.of_nat (List.length l))
  | PDict items => inr (Z.of_nat (List.length items))
  | _ => inl TypeError
  end.

Fixpoint dict_get (items : list (string * pyval)) (k : string) : option pyval :=
  match items with
  | [] => None
  | (k', v) :: rest => if String.eqb k' k then Some v else dict_get rest k
  end.

(** The position that index [i] denotes in a sequence of length [n]
    (negative indices count from the end). *)
Definition seq_index (n i : Z) : option nat :=
  let j := if i <? 0 then i + n else i in
  if (0 <=? j) && (j <? n) then Some (Z.to_nat j) else None.

(** Python's [c[i]]. *)
Definition py_getitem (c i : pyval) : res pyval :=
  match c with
  | PList l =>
      match as_int i with
      | Some z =>
          match seq_index (Z.of_nat (List.length l)) z with
          | Some j =>
              match List.nth_error l j with
              | Some v => inr v
              | None => inl IndexError
              end
          | None => inl IndexError
          end
      | None => inl TypeError
      end
  | PStr s =>
      match as_int i with
      | Some z =>
          match seq_index (Z.of_nat (String.length s)) z with
          | Some j =>
              match String.get j s with
              | Some ch => inr (PStr (String ch EmptyString))
              | None => inl IndexError
              end
          | None => inl IndexError
          end
      | None => inl TypeError
      end
  | PDict items =>
      match i with
      | PStr k =>
          match dict_get items k with
          | Some v => inr v
          | None => inl (KeyError i)
          end
      | PList _ | PDict _ => inl TypeError
      | _ => inl (KeyError i)
      end
  | _ => inl TypeError
  end.

(** *** Strings to floats: [float(s)] *)

Definition is_digit (c : ascii) : bool :=
  let n := N_of_ascii c in (48 <=? n)%N && (n <=? 57)%N.

Definition digit_val (c : ascii) : Z := Z.of_N (N_of_ascii c) - 48.

(** The white space of [str.strip()] and [str.isspace()]: tab to carriage
    return, the four separators 0x1C-0x1F, and the space. *)
Definition is_space (c : ascii) : bool :=
  let n := N_of_ascii c in
  ((9 <=? n)%N && (n <=? 13)%N) || ((28 <=? n)%N && (n <=? 32)%N).

(** The white space that [float] skips at both ends of a string: C's
    [isspace], that is tab, line feed, vertical tab, form feed, carriage
    return and the space. The separators 0x1C-0x1F are not among them:
    [float] raises [ValueError] on a string that starts or ends with one. *)
Definition is_c_space (c : ascii) : bool :=
  let n := N_of_ascii c in
  ((9 <=? n)%N && (n <=? 13)%N) || (n =? 32)%N.

Definition ascii_lower (c : ascii) : ascii :=
  let n := N_of_ascii c in
  if (65 <=? n)%N && (n <=? 90)%N then ascii_of_N (n + 32) else c.

(** Python's [s.lower()]. *)
Fixpoint lower (s : string) : string :=
  match s with
  | EmptyString => EmptyString
  | String c s' => String (ascii_lower c) (lower s')
  end.

Fixpoint lstrip (l : list ascii) : list ascii :=
  match l with
  | c :: l' => if is_space c then lstrip l' else l
  | [] => []
  end.

Definition strip (l : list ascii) : list ascii :=
  List.rev (lstrip (List.rev (lstrip l))).

Fixpoint lstrip_c (l : list ascii) : list ascii :=
  match l with
  | c :: l' => if is_c_space c then lstrip_c l' else l
  | [] => []
  end.

Definition strip_c (l : list ascii) : list ascii :=
  List.rev (lstrip_c (List.rev (lstrip_c l))).

(** The rest of a [digitpart] after a digit: digits, each possibly preceded
    by one underscore. [acc] is the number read so far and [count] the
    number of digits. *)
Fixpoint digits_tail (l : list ascii) (acc count : Z) : Z * Z * list ascii :=
  match l with
  | c :: l' =>
      if is_digit c then digits_tail l' (acc * 10 + digit_val c) (count + 1)
      else if Ascii.eqb c "_" then
        match l' with
        | c' :: l'' =>
            if is_digit c'
            then digits_tail l'' (acc * 10 + digit_val c') (count + 1)
            else (acc, count, l)
        | [] => (acc, count, l)
        end
      else (acc, count, l)
  | [] => (acc, count, [])
  end.

Definition digitpart (l : list ascii) (acc : Z) : option (Z * Z * list ascii) :=
  match l with
  | c :: l' =>
      if is_digit c then Some (digits_tail l' (acc * 10 + digit_val c) 1) else None
  | [] => None
  end.

(** [[digitpart] "." digitpart | digitpart ["."]]: the digits as one
    integer, and how many of them follow the point. *)
Definition number_part (l : list ascii) : option (Z * Z * list ascii) :=
  match digitpart l 0 with
  | Some (m, _, rest) =>
      match rest with
      | "."%char :: rest' =>
          match digitpart rest' m with
          | Some r => Some r
          | None => Some (m, 0, rest')
          end
      | _ => Some (m, 0, rest)
      end
  | None =>
      match l with
      | "."%char :: rest' => digitpart rest' 0
      | _ => None
      end
  end.

Definition sign_part (l : list ascii) : bool * list ascii :=
  match l with
  | "-"%char :: l' => (true, l')
  | "+"%char :: l' => (false, l')
  | _ => (false, l)
  end.

(** [("e" | "E") [sign] digitpart], when present; [None] when what follows
    the number is not an exponent and not the end. *)
Definition exponent_part (l : list ascii) : option Z :=
  match l with
  | [] => Some 0
  | c :: l' =>
      if Ascii.eqb (ascii_lower c) "e" then
        let '(neg, l'') := sign_part l' in
        match digitpart l'' 0 with
        | Some (e, _, []) => Some (if neg then - e else e)
        | _ => None
        end
      else None
  end.

(** Python's [float(s)] on a string; [None] stands for [ValueError]. *)
Definition float_of_string (s : string) : option spec_float :=
  let '(neg, l) := sign_part (strip_c (list_ascii_of_string s)) in
  let word := lower (string_of_list_ascii l) in
  if String.eqb word "inf" || String.eqb word "infinity" then Some (S754_infinity neg)
  else if String.eqb word "nan" then Some S754_nan
  else
    match number_part l with
    | Some (m, frac, rest) =>
        match exponent_part rest with
        | Some e => Some (Float64.of_decimal neg m (e - frac))
        | None => None
        end
    | None => None
    end.

(** Python's [float(v)]. *)
Definition py_float (v : pyval) : res spec_float :=
  match v with
  | PFloat f => inr f
  | PStr s =>
      match float_of_string s with
      | Some f => inr f
      | None => inl ValueError
      end
  | _ =>
      match as_number v with
      | Some n => float_of_number n
      | None => inl TypeError
      end
  end.

(** *** Values to strings *)

(** Python's [format(v, '.2f')], the [f"{v:.2f}"] of the source: a number
    is printed as a float, a [str] does not know the format code and the
    other types do not take a format at all. *)
Definition py_format_2f (v : pyval) : res string :=
  match v with
  | PStr _ => inl ValueError
  | _ =>
      match as_number v with
      | Some n => res_bind (float_of_number n) (fun f => inr (Float64.format_2f f))
      | None => inl TypeError
      end
  end.

Definition hex_digit (n : N) : ascii :=
  ascii_of_N (if (n <? 10)%N then 48 + n else 87 + n).

Definition backslash : ascii := ascii_of_N 92.
Definition double_quote : ascii := ascii_of_N 34.

Definition escaped (c : ascii) : string := String backslash (String c EmptyString).

(** One character of a string inside its [repr], between quotes [q]. *)
Definition repr_char (q c : ascii) : string :=
  let n := N_of_ascii c in
  if Ascii.eqb c backslash then escaped backslash
  else if Ascii.eqb c q then escaped q
  else if (n =? 9)%N then escaped "t"
  else if (n =? 10)%N then escaped "n"
  else if (n =? 13)%N then escaped "r"
  else if (n <? 32)%N || (n =? 127)%N then
    String backslash
      (String "x" (String (hex_digit (n / 16)) (String (hex_digit (n mod 16)) EmptyString)))
  else String c EmptyString.

Fixpoint has_char (c : ascii) (s : string) : bool :=
  match s with
  | EmptyString => false
  | String c' s' => Ascii.eqb c c' || has_char c s'
  end.

Fixpoint repr_chars (q : ascii) (s : string) : string :=
  match s with
  | EmptyString => EmptyString
  | String c s' => repr_char q c ++ repr_chars q s'
  end.

(** Python's [repr] of a [str]: single quotes, unless the string has a
    single quote and no double quote. *)
Definition repr_str (s : string) : string :=
  let q := if has_char "'" s && negb (has_char double_quote s) then double_quote else "'"%char in
  String q (repr_chars q s ++ String q EmptyString).

Fixpoint join (sep : string) (l : list string) : string :=
  match l with
  | [] => EmptyString
  | [x] => x
  | x :: rest => x ++ sep ++ join sep rest
  end.

(** Python's [repr(v)]. *)
Fixpoint py_repr (v : pyval) : string :=
  match v with
  | PNone => "None"
  | PBool b => if b then "True" else "False"
  | PInt z => str_of_int z
  | PFloat f => Float64.repr f
  | PStr s => repr_str s
  | PList l => "[" ++ join ", " (List.map py_repr l) ++ "]"
  | PDict items =>
      "{" ++ join ", " (List.map (fun kv => repr_str (fst kv) ++ ": " ++ py_repr (snd kv)) items)
      ++ "}"
  end.

(** Python's [str(v)]: a [str] is itself, anything else is its [repr]. *)
Definition py_str (v : pyval) : string :=
  match v with
  | PStr s => s
  | _ => py_repr v
  end.

(** ** The data classes *)

(** [Offer]: the fields are annotated [str] in the source, but a data class
    does not convert: a field holds whatever value the constructor is given
    ([gift_card], [monthly_price], ... come straight from the payload). *)
Record Offer : Type := mkOffer {
  price_after_gc : pyval;
  gift_card : pyval;
  total_price : pyval;
  monthly_price : pyval;
  down_payment : pyval;
  bib_premium : pyval;
  bib_monthly : pyval;
  down_return : pyval
}.

Record Carrier : Type := mkCarrier {
  name : string;
  link : string;
  offers : list Offer
}.

(** [Phone.name] is [phone_name] here: a projection name is used once. *)
Record Phone : Type := mkPhone {
  phone_name : string;
  carriers : list Carrier
}.

(** ** The world: network and console *)

(** What [session.get] does on one call: it raises, or it returns a
    response with a status code and a body that [response.json()] parses
    ([Some]) or rejects ([None]). *)
Inductive response : Type :=
| Raises (msg : string)
| Response (status_code : Z) (json : option pyval).

(** What the program does to the outside, in order. *)
Inductive event : Type :=
| Request (url : string)
| PrintStarted (phone carrier : string)
| PrintFailedToLoad (phone carrier : string)
| PrintRetry (attempt : Z) (phone carrier : string) (e : exn)
| Sleep (seconds : Z)
| PrintGaveUp (retries : Z) (phone carrier : string)
| PrintWompWomp.

Record world : Type := mkWorld {
  net : nat -> response;
  requests : nat;
  log : list event
}.

Definition emit (ev : event) (w : world) : world :=
  mkWorld (net w) (requests w) (log w ++ [ev]).

(** [self.session.get(url)]: the next answer of the network. *)
Definition session_get (url : string) (w : world) : response * world :=
  (net w (requests w), mkWorld (net w) (S (requests w)) (log w ++ [Request url])).

(** ** Carrier Identifier: [extract_carrier_name] *)

(** Python's [needle in hay] on strings. *)
Fixpoint contains (needle hay : string) : bool :=
  String.prefix needle hay
  || match hay with
     | EmptyString => false
     | String _ hay' => contains needle hay'
     end.

(** The [carriers] dictionary, in its iteration (insertion) order. *)
Definition carriers_table : list (string * string) :=
  [ ("telus", "Telus");
    ("koodo", "Koodo");
    ("rogers", "Rogers");
    ("fido", "Fido");
    ("freedom-mobile", "Freedom Mobile");
    ("bell", "Bell");
    ("virgin-plus", "Virgin Plus") ].

(** The [for key, value in carriers.items()] loop over the rest of the
    table. *)
Fixpoint first_carrier (table : list (string * string)) (url : string) : string :=
  match table with
  | [] => "Unknown"
  | (key, value) :: rest =>
      if contains key (lower url) then value else first_carrier rest url
  end.

Definition extract_carrier_name (url : string) : string :=
  first_carrier carriers_table url.

(** ** Pricing Fetcher and Offer Normalizer: [scrape_carrier_data] *)

(** Python's [s.split(sep)] for a one-character separator; [cur] is the
    piece being read. *)
Fixpoint split_from (sep : ascii) (cur s : string) : list string :=
  match s with
  | EmptyString => [cur]
  | String c s' =>
      if Ascii.eqb c sep then cur :: split_from sep EmptyString s'
      else split_from sep (cur ++ String c EmptyString) s'
  end.

Definition split (sep : ascii) (s : string) : list string :=
  split_from sep EmptyString s.

(** [url.split('/')[-1].split('?')[0]]; [split] never returns an empty
    list, so neither subscript can raise. *)
Definition sku_of (url : string) : string :=
  List.hd EmptyString (split "?" (List.last (split "/" url) EmptyString)).

Definition pricing_url (sku : string) : string :=
  "https://www.bestbuy.ca/api/cellphones-plans-pricing/sku/" ++ sku
  ++ "?api-version=2022-05-01&sp=%2Ftriggers%2Fmanual%2Frun&sv=1.0&sig=qqpzPnL_WPQXWUV73BbXlPLU0EGP_ZfI0vsIJFccWOE".

Definition max_retries : Z := 3.

(** The two local variables that an attempt can read before it has
    assigned them: they are assigned only in the [keep-it] branch, and they
    keep their value from one attempt of the loop to the next. Every other
    local is assigned in each attempt before it is read. *)
Record locals : Type := mkLocals {
  var_total_price : option pyval;
  var_price_after_gc : option pyval
}.

Definition no_locals : locals := mkLocals None None.

(** Code that reads and assigns the locals and may raise; what was
    assigned before an exception stays assigned. *)
Definition M (A : Type) : Type := locals -> res A * locals.

Definition ret {A : Type} (a : A) : M A := fun vars => (inr a, vars).

Definition bind {A B : Type} (m : M A) (f : A -> M B) : M B :=
  fun vars =>
    match m vars with
    | (inl e, vars') => (inl e, vars')
    | (inr a, vars') => f a vars'
    end.

Definition lift {A : Type} (r : res A) : M A := fun vars => (r, vars).

Notation "'let*' x ':=' c 'in' k" := (bind c (fun x => k))
  (at level 10, x pattern, c at level 100, k at level 200).

Definition read_total_price : M pyval :=
  fun vars =>
    match var_total_price vars with
    | Some v => (inr v, vars)
    | None => (inl (UnboundLocalError "total_price"), vars)
    end.

Definition read_price_after_gc : M pyval :=
  fun vars =>
    match var_price_after_gc vars with
    | Some v => (inr v, vars)
    | None => (inl (UnboundLocalError "price_after_gc"), vars)
    end.

Definition assign_total_price (v : pyval) : M unit :=
  fun vars => (inr tt, mkLocals (Some v) (var_price_after_gc vars)).

Definition assign_price_after_gc (v : pyval) : M unit :=
  fun vars => (inr tt, mkLocals (var_total_price vars) (Some v)).

(** [data[i][key]]. *)
Definition field (data : pyval) (i : Z) (key : string) : res pyval :=
  res_bind (py_getitem data (PInt i)) (fun item => py_getitem item (PStr key)).

Definition NA : pyval := PStr "N/A".

(** Lines 138-142: the [keep-it] branch; returns [monthly_price] and
    [down_payment]. *)
Definition keep_it_block (response_data plan_type gift_card : pyval) : M (pyval * pyval) :=
  if py_eq_str plan_type "keep-it" then
    let* monthly_price := lift (field response_data 0 "monthly") in
    let* down_payment := lift (field response_data 0 "downPayment") in
    let* product := lift (py_mul monthly_price (PInt 24)) in
    let* total := lift (py_add product down_payment) in
    let* _ := assign_total_price total in
    let* after_gc :=
      if py_truthy gift_card then
        let* total_price := read_total_price in
        lift (py_sub total_price gift_card)
      else read_total_price in
    let* _ := assign_price_after_gc after_gc in
    ret (monthly_price, down_payment)
  else ret (NA, NA).

(** Line 150: [bib_premium], computed only for a float [bib_monthly_price];
    the operands are evaluated from left to right. *)
Definition bib_premium_of (bib_monthly_price bib_down_payment : pyval) : M pyval :=
  if isinstance_float bib_monthly_price then
    let* total_price := read_total_price in
    let* monthly := lift (py_float bib_monthly_price) in
    let* term := lift (py_mul (PFloat monthly) (PInt 24)) in
    let* rest := lift (py_sub total_price term) in
    let* down := lift (py_float bib_down_payment) in
    let* premium := lift (py_sub rest (PFloat down)) in
    let* text := lift (py_format_2f premium) in
    ret (PStr text)
  else ret NA.

(** Lines 144-151: the [return-it] branch; returns [bib_premium],
    [bib_monthly] and [down_return]. *)
Definition return_it_block (response_data : pyval) : M (pyval * pyval * pyval) :=
  let* n := lift (py_len response_data) in
  let* is_return_it :=
    if 1 <? n then
      let* type1 := lift (field response_data 1 "type") in
      ret (py_eq_str type1 "return-it")
    else ret false in
  if is_return_it then
    let* bib_monthly := lift (field response_data 1 "monthly") in
    let* down_return := lift (field response_data 1 "residualValue") in
    let* bib_monthly_price := lift (field response_data 1 "monthly") in
    let* bib_down_payment := lift (field response_data 1 "downPayment") in
    let* bib_premium := bib_premium_of bib_monthly_price bib_down_payment in
    ret (bib_premium, bib_monthly, down_return)
  else ret (NA, NA, NA).

(** Lines 129-165: from the parsed payload to the [Offer]. *)
Definition build_offer (response_data : pyval) : M Offer :=
  let* plan_type := lift (field response_data 0 "type") in
  let* gift_card := lift (field response_data 0 "giftCard") in
  let* (monthly_price, down_payment) :=
    keep_it_block response_data plan_type gift_card in
  let* (bib_premium, bib_monthly, down_return) := return_it_block response_data in
  let* price_after_gc := read_price_after_gc in
  let* total_price := read_total_price in
  let* total_text := lift (py_format_2f total_price) in
  ret (mkOffer (PStr (py_str price_after_gc)) gift_card (PStr total_text)
         monthly_price down_payment bib_premium bib_monthly down_return).

(** The Offer of a fetch that failed three times. *)
Definition sentinel_offer : Offer :=
  mkOffer NA (PStr "0") NA NA NA NA NA NA.

Section Fetch.

(** What [scrape_carrier_data] has computed before its loop. *)
Variables updatedUrl carrier_name link phone_name : string.

(** Lines 123-166, the body of [try]: it returns a Carrier (which ends the
    function) or raises. *)
Definition try_block (vars : locals) (w : world) : res Carrier * locals * world :=
  let '(answer, w1) := session_get updatedUrl w in
  match answer with
  | Raises msg => (inl (TransportError msg), vars, w1)
  | Response status_code json =>
      if negb (status_code =? 200) then
        (inr (mkCarrier carrier_name link []), vars,
         emit (PrintFailedToLoad phone_name carrier_name) w1)
      else
        match json with
        | None => (inl JSONDecodeError, vars, w1)
        | Some response_data =>
            match build_offer response_data vars with
            | (inl e, vars') => (inl e, vars', w1)
            | (inr offer, vars') =>
                (inr (mkCarrier carrier_name link [offer]), vars', w1)
            end
        end
  end.

(** Lines 168-171, the body of [except] before [attempt += 1]. *)
Definition except_block (attempt : Z) (e : exn) (w : world) : world :=
  if attempt <? max_retries then
    emit (Sleep 2) (emit (PrintRetry attempt phone_name carrier_name e) w)
  else w.

(** Lines 174-191, after the loop; [response_text] is still the [None]
    of line 119. *)
Definition after_loop (w : world) : Carrier * world :=
  let response_text := PNone in
  let w1 := emit (PrintGaveUp max_retries phone_name carrier_name) w in
  let w2 := if py_truthy response_text then emit PrintWompWomp w1 else w1 in
  (mkCarrier carrier_name link [sentinel_offer], w2).

(** Lines 121-172: [while attempt <= max_retries]. *)
Equations? while_loop (attempt : Z) (vars : locals) (w : world) : Carrier * world
  by wf (Z.to_nat (max_retries + 1 - attempt)) lt :=
  while_loop attempt vars w with decide (attempt <= max_retries) := {
    | left _ with try_block vars w := {
        | (inr carrier, _, w') => (carrier, w')
        | (inl e, vars', w') =>
            while_loop (attempt + 1) vars' (except_block attempt e w') }
    | right _ => after_loop w }.
Proof. lia. Qed.

End Fetch.

(** Lines 111-191. *)
Definition scrape_carrier_data (url link phone_name : string) (w : world) : Carrier * world :=
  let sku := sku_of url in
  let updatedUrl := pricing_url sku in
  let carrier_name := extract_carrier_name url in
  let w1 := emit (PrintStarted phone_name carrier_name) w in
  let attempt := 1 in
  while_loop updatedUrl carrier_name link phone_name attempt no_locals w1.

(** ** Source Loader: [scrape] *)

(** An element of the tree that [ET.parse] or [ET.fromstring] builds:
    [text] is [None] for an element without text. *)
Inductive element : Type :=
| Element (tag : string) (text : option string) (children : list element).

Definition tag (e : element) : string := let 'Element t _ _ := e in t.
Definition text (e : element) : option string := let 'Element _ t _ := e in t.
Definition children (e : element) : list element := let 'Element _ _ c := e in c.

(** Python's [s.replace(a, b)] for one-character [a] and [b]. *)
Fixpoint replace_char (a b : ascii) (s : string) : string :=
  match s with
  | EmptyString => EmptyString
  | String c s' => String (if Ascii.eqb c a then b else c) (replace_char a b s')
  end.

(** Lines 57-59, [for url in phone_node]. A [url.text] that is [None]
    makes line 112 ([url.split]) raise [AttributeError], outside of any
    [try]. *)
Fixpoint scrape_urls (phone_name : string) (urls : list element)
    (carriers : list Carrier) (w : world) : res (list Carrier) * world :=
  match urls with
  | [] => (inr carriers, w)
  | url :: rest =>
      match text url with
      | None => (inl AttributeError, w)
      | Some t =>
          let '(carrier, w') := scrape_carrier_data t t phone_name w in
          scrape_urls phone_name rest (carriers ++ [carrier]) w'
      end
  end.

(** Lines 53-61, [for phone_node in root]. *)
Fixpoint scrape_phones (phone_nodes : list element) (phones : list Phone)
    (w : world) : res (list Phone) * world :=
  match phone_nodes with
  | [] => (inr phones, w)
  | phone_node :: rest =>
      let phone_name := replace_char "_" " " (tag phone_node) in
      match scrape_urls phone_name (children phone_node) [] w with
      | (inl e, w') => (inl e, w')
      | (inr carriers, w') =>
          scrape_phones rest (phones ++ [mkPhone phone_name carriers]) w'
      end
  end.

(** Lines 40-63, from the parsed document [root] on (reading the file or
    the URL and parsing it, lines 44-51, is not part of the embedding). *)
Definition scrape (root : element) (w : world) : res (list Phone) * world :=
  scrape_phones (children root) [] w.

(** ** Report Writer: [write_to_csv] *)

(** A row is the list given to [writer.writerow]. *)
Definition row : Type := list pyval.

Definition headers : row :=
  [ PStr "Phone"; PStr "Carrier"; PStr "Price After GC"; PStr "Gift Card Amount";
    PStr "Total Price"; PStr "Monthly Price"; PStr "Downpayment"; PStr "BIB Premium";
    PStr "BIB Monthly Price"; PStr "BIB Downpayment"; PStr "Link" ].

Definition carrier_order : list string :=
  [ "Fido"; "Rogers"; "Virgin Plus"; "Bell"; "Koodo"; "Telus"; "Freedom Mobile" ].

(** One step of the dictionary comprehension: [carrier] goes under its
    name, in the place of what was there. *)
Definition add_carrier (m : gmap string Carrier) (carrier : Carrier) : gmap string Carrier :=
  <[name carrier := carrier]> m.

(** [{carrier.name: carrier for carrier in phone.carriers}]. *)
Definition carrier_map (cs : list Carrier) : gmap string Carrier :=
  foldl add_carrier ∅ cs.

(** Lines 213-225. *)
Definition offer_row (phone : Phone) (carrier : Carrier) (offer : Offer) : row :=
  [ PStr (phone_name phone); PStr (name carrier);
    price_after_gc offer; gift_card offer; total_price offer; monthly_price offer;
    down_payment offer; bib_premium offer; bib_monthly offer; down_return offer;
    PStr (link carrier) ].

(** Lines 227-231. *)
Definition placeholder_row (phone : Phone) (carrier_name : string) : row :=
  [ PStr (phone_name phone); PStr carrier_name;
    PStr "--"; PStr "--"; PStr "--"; PStr "--"; PStr "--"; PStr "--"; PStr "--";
    PStr "--"; PStr "--" ].

(** Lines 210-231: the rows of one carrier of the canonical order. *)
Definition carrier_rows (phone : Phone) (m : gmap string Carrier)
    (carrier_name : string) : list row :=
  match m !! carrier_name with
  | Some carrier => List.map (offer_row phone carrier) (offers carrier)
  | None => [placeholder_row phone carrier_name]
  end.

(** Lines 207-231: the rows of one phone. *)
Definition phone_rows (phone : Phone) : list row :=
  let m := carrier_map (carriers phone) in
  List.concat (List.map (carrier_rows phone m) carrier_order).

(** Lines 193-231: the rows written to the file, the header first. *)
Definition write_to_csv (phones : list Phone) : list row :=
  headers :: List.concat (List.map phone_rows phones).

(** ** The run: [main] *)

(** What a run does to the outside: what the scraper did, the file that
    it opened for writing with the rows that it left in it, the last line
    it printed. *)
Inductive main_event : Type :=
| Scraping (ev : event)
| FileWritten (path : string) (rows : list row)
| PrintAllWritten.

(** What ends a run early: an exception of [scrape], or the
    [UnicodeEncodeError] of a row that the file, opened with
    [encoding='utf-8'], cannot take. *)
Inductive main_exn : Type :=
| Raised (e : exn)
| UnicodeEncodeError.

(** [f"bestbuy_{current_date}_mobiles.csv"]. *)
Definition csv_path_of (current_date : string) : string :=
  "bestbuy_" ++ current_date ++ "_mobiles.csv".

(** The calls of [writer.writerow], one for each row in turn. The line of
    a row is encoded when it is written, and [encodable] tells which rows
    can be encoded in UTF-8: a row cannot when one of its cells is a string
    with a lone surrogate, which the JSON escape for one decodes to (such
    a string is outside of [string], hence the parameter). The first row
    that cannot be encoded raises, and the writing ends there, the rows
    before it being in the file when [with] closes it. The result is the
    rows written, and whether these are all the rows. *)
Fixpoint writerows (encodable : row -> bool) (rows : list row) : list row * bool :=
  match rows with
  | [] => ([], true)
  | r :: rest =>
      if encodable r then
        let '(written, complete) := writerows encodable rest in (r :: written, complete)
      else ([], false)
  end.

(** Lines 233-242, from the parsed document of [./bestbuymobile.xml] on;
    [current_date] is what [datetime.now().strftime("%Y%m%d")] returns. An
    exception of [scrape] ends the run before the file is opened; an
    exception of the writing ends it before the last line is printed.
    Opening the file is taken to succeed. *)
Definition main (encodable : row -> bool) (root : element) (current_date : string)
    (w : world) : (main_exn + unit) * list main_event :=
  match scrape root w with
  | (inl e, w') => (inl (Raised e), List.map Scraping (log w'))
  | (inr phones, w') =>
      let csv_path := csv_path_of current_date in
      let '(written, complete) := writerows encodable (write_to_csv phones) in
      if complete then
        (inr tt,
         (List.map Scraping (log w')
          ++ [FileWritten csv_path written; PrintAllWritten])%list)
      else
        (inl UnicodeEncodeError,
         (List.map Scraping (log w') ++ [FileWritten csv_path written])%list)
  end.

(** ** The page scrapers: [extract_price] and [extract_offer_price] *)

(** Python's [s.strip()]. *)
Definition str_strip (s : string) : string :=
  string_of_list_ascii (strip (list_ascii_of_string s)).

(** Python's [s.replace(old, new)] for a non-empty [old], scanning from
    the left: [skip] is the number of characters of a replaced occurrence
    still to pass over. *)
Fixpoint replace_go (old new : string) (skip : nat) (s : string) : string :=
  match s with
  | EmptyString => EmptyString
  | String c s' =>
      match skip with
      | S k => replace_go old new k s'
      | O =>
          if String.prefix old s
          then new ++ replace_go old new (String.length old - 1) s'
          else String c (replace_go old new 0 s')
      end
  end.

(** [new] before every character and at the end: what [replace] does for
    an empty [old]. *)
Fixpoint interleave (new s : string) : string :=
  match s with
  | EmptyString => new
  | String c s' => new ++ String c (interleave new s')
  end.

Definition str_replace (old new s : string) : string :=
  match old with
  | EmptyString => interleave new s
  | _ => replace_go old new 0 s
  end.

(** Python's [s.split(sep)] for a non-empty string [sep]; [cur] is the
    piece being read. *)
Fixpoint split_str_go (sep : string) (skip : nat) (cur s : string) : list string :=
  match s with
  | EmptyString => [cur]
  | String c s' =>
      match skip with
      | S k => split_str_go sep k cur s'
      | O =>
          if String.prefix sep s
          then cur :: split_str_go sep (String.length sep - 1) EmptyString s'
          else split_str_go sep 0 (cur ++ String c EmptyString) s'
      end
  end.

Definition split_str (sep s : string) : list string :=
  split_str_go sep 0 EmptyString s.

(** Lines 81-86. [node] is what [soup.select_one(selector)] found: [None],
    or a tag, given by its [get_text()] (a tag is true whatever it holds). *)
Definition extract_price (node : option string) : string :=
  match node with
  | Some node_text =>
      let text :=
        str_strip
          (str_replace "$" EmptyString
             (str_replace "Best Buy Gift Card" EmptyString (str_strip node_text))) in
      if negb (String.eqb text EmptyString) then text else "0"
  | None => "0"
  end.

(** The [pricingContainer_3m_rC] div of an offer button, by the
    [get_text()] of the two divs that [find] looks for in it. *)
Record pricing_container : Type := mkPricingContainer {
  monthly_price_div : option string;
  down_payment_div : option string
}.

(** Lines 88-109. [button] is what [soup.find('button', ...)] found:
    [None], or a button, given by what [button.find('div', ...)] finds in
    it. *)
Definition extract_offer_price (button : option (option pricing_container))
    : string * string :=
  match button with
  | None => ("N/A", "N/A")
  | Some None => ("N/A", "N/A")
  | Some (Some container) =>
      let monthly_price :=
        match monthly_price_div container with
        | Some price_text =>
            str_strip
              (str_replace "$" EmptyString
                 (List.hd EmptyString (split_str "/mo." price_text)))
        | None => "N/A"
        end in
      let down_payment :=
        match down_payment_div container with
        | Some payment_text =>
            str_strip
              (str_replace "$" EmptyString
                 (List.hd EmptyString (split_str "down" payment_text)))
        | None => "N/A"
        end in
      (monthly_price, down_payment)
  end.

(** ** Notions used in the statements *)

(** [needle] occurs somewhere in [hay]. *)
Definition occurs_in (needle hay : string) : Prop :=
  exists pre suf, hay = pre ++ needle ++ suf.

(** [url] contains [key], whatever the case of its letters. *)
Definition mentions (key url : string) : Prop :=
  occurs_in key (lower url).

(** A retry wait. *)
Definition is_sleep (ev : event) : bool :=
  match ev with
  | Sleep _ => true
  | _ => false
  end.

(** A request to the pricing API. *)
Definition is_request (ev : event) : bool :=
  match ev with
  | Request _ => true
  | _ => false
  end.

(** The premium in the words of the specification: total price, minus 24
    times the monthly price of the return-it plan, minus its down payment,
    written with two decimals. *)
Definition float_24 : spec_float := Float64.of_decimal false 24 0.

Definition spec_bib_premium (total bib_monthly bib_down_payment : spec_float) : string :=
  Float64.format_2f
    (Float64.sub (Float64.sub total (Float64.mul bib_monthly float_24)) bib_down_payment).

(** An exception other than the one for a local variable read before any
    assignment. *)
Definition not_unbound (e : exn) : Prop :=
  match e with
  | UnboundLocalError _ => False
  | _ => True
  end.

(** Lines 144-148 can read what they need of the rest [rest] of the
    payload after its first element: there is no second element, or it has
    a "type", and, when that is "return-it", also "monthly",
    "residualValue" and "downPayment". *)
Definition readable_rest (rest : list pyval) : Prop :=
  match rest with
  | [] => True
  | e1 :: _ =>
      exists type1, py_getitem e1 (PStr "type") = inr type1
        /\ (py_eq_str type1 "return-it" = true ->
            exists m r d,
              py_getitem e1 (PStr "monthly") = inr m
              /\ py_getitem e1 (PStr "residualValue") = inr r
              /\ py_getitem e1 (PStr "downPayment") = inr d)
  end.

(** The variable that is read first without a value when neither total
    is assigned and the rest [rest] of the payload is readable:
    [total_price] at line 150, when the second element is a return-it plan
    whose "monthly" is a float; [price_after_gc] at line 157 otherwise. *)
Definition first_unbound (rest : list pyval) : string :=
  match rest with
  | e1 :: _ =>
      match py_getitem e1 (PStr "type"), py_getitem e1 (PStr "monthly") with
      | inr type1, inr bib_monthly =>
          if py_eq_str type1 "return-it" && isinstance_float bib_monthly
          then "total_price"
          else "price_after_gc"
      | _, _ => "price_after_gc"
      end
  | [] => "price_after_gc"
  end.

(** A name of the canonical order whose record in the map has no offer. *)
Definition without_offer (m : gmap string Carrier) (carrier_name : string) : bool :=
  match m !! carrier_name with
  | Some carrier => match offers carrier with [] => true | _ => false end
  | None => false
  end.

(** An event of a fetch for the pricing URL [url]: a request goes to [url]
    and a wait lasts two seconds. *)
Definition fetch_event_ok (url : string) (ev : event) : Prop :=
  match ev with
  | Request u => u = url
  | Sleep seconds => seconds = 2
  | _ => True
  end.


(** A row of the table that belongs to the carrier [carrier_name]: its
    second cell, the column "Carrier", holds that name. *)
Definition row_of_carrier (carrier_name : string) (r : row) : bool :=
  match r with
  | _ :: PStr cell :: _ => String.eqb cell carrier_name
  | _ => false
  end.

(** The records of [cs] with another name than [carrier_name]. *)
Definition records_of_others (carrier_name : string) (cs : list Carrier) : list Carrier :=
  List.filter (fun c => negb (String.eqb (name c) carrier_name)) cs.

(** An attempt that raises [e]: read when the earlier attempts of the call
    have left the variables [vars], the answer makes the body of [try]
    raise [e] and leave the variables [vars']. Either [session.get] raises,
    or the status is 200 and the body is not JSON, or is a payload from
    which the construction of the Offer raises. *)
Definition attempt_fails (answer : response) (vars vars' : locals) (e : exn) : Prop :=
  match answer with
  | Raises msg => e = TransportError msg /\ vars' = vars
  | Response status_code json =>
      status_code = 200
      /\ match json with
         | None => e = JSONDecodeError /\ vars' = vars
         | Some response_data => build_offer response_data vars = (inl e, vars')
         end
  end.

(** The first [k] attempts of a call made in the world [w] all raise and
    leave the variables [vars]: the answers are those that the network
    gives to the requests [requests w], [requests w + 1], ... *)
Inductive failed_attempts (w : world) : nat -> locals -> Prop :=
| failed_none : failed_attempts w 0 no_locals
| failed_more (k : nat) (vars vars' : locals) (e : exn) :
    failed_attempts w k vars ->
    attempt_fails (net w (requests w + k)%nat) vars vars' e ->
    failed_attempts w (S k) vars'.

(** The files that a run wrote. *)
Fixpoint files_written (trace : list main_event) : list (string * list row) :=
  match trace with
  | [] => []
  | FileWritten path rows :: rest => (path, rows) :: files_written rest
  | _ :: rest => files_written rest
  end.

(** The number of URL nodes of a document. *)
Definition url_count (root : element) : nat :=
  List.length (List.concat (List.map children (children root))).

(** ** Example inputs *)

(** A phone whose node has no URL. *)
Definition phone_without_carriers : Phone := mkPhone "Pixel 9" [].

(** The JSON numbers 45.0 and 30.0. *)
Definition float_45 : spec_float := Float64.of_decimal false 450 (-1).
Definition float_30 : spec_float := Float64.of_decimal false 300 (-1).

(** [{"type":"keep-it","monthly":45.0,"downPayment":0,"giftCard":50}] *)
Definition keep_it_element : pyval :=
  PDict [ ("type", PStr "keep-it"); ("monthly", PFloat float_45);
          ("downPayment", PInt 0); ("giftCard", PInt 50) ].

(** [{"type":"return-it","monthly":30.0,"downPayment":0,"residualValue":200}] *)
Definition return_it_element : pyval :=
  PDict [ ("type", PStr "return-it"); ("monthly", PFloat float_30);
          ("downPayment", PInt 0); ("residualValue", PInt 200) ].

Definition keep_it_payload : pyval := PList [keep_it_element].

Definition return_it_payload : pyval := PList [keep_it_element; return_it_element].

(** The Offer of [return_it_payload], and the variables after it. *)
Definition return_it_offer : Offer :=
  mkOffer (PStr "1030.0") (PInt 50) (PStr "1080.00") (PFloat float_45) (PInt 0)
    (PStr "360.00") (PFloat float_30) (PInt 200).

Definition return_it_locals : locals :=
  mkLocals (Some (PFloat (Float64.of_decimal false 1080 0)))
           (Some (PFloat (Float64.of_decimal false 1030 0))).

(** A return-it element whose "monthly" is the integer 30. *)
Definition return_it_int_payload : pyval :=
  PList [ keep_it_element;
          PDict [ ("type", PStr "return-it"); ("monthly", PInt 30);
                  ("downPayment", PInt 0); ("residualValue", PInt 200) ] ].

(** A return-it element without "residualValue": line 146 raises
    [KeyError] after line 141 and 142 have assigned the two totals. *)
Definition broken_return_it_payload : pyval :=
  PList [ PDict [ ("type", PStr "keep-it"); ("monthly", PFloat float_45);
                  ("downPayment", PInt 0); ("giftCard", PInt 0) ];
          PDict [ ("type", PStr "return-it"); ("monthly", PFloat float_30);
                  ("downPayment", PInt 0) ] ].

(** A payload whose first element is not a keep-it plan. *)
Definition other_plan_payload : pyval :=
  PList [ PDict [ ("type", PStr "upgrade"); ("giftCard", PInt 50) ] ].

(** A payload whose first element is not a keep-it plan and whose second
    is the return-it plan of [return_it_payload]. *)
Definition other_plan_return_it_payload : pyval :=
  PList [ PDict [ ("type", PStr "upgrade"); ("giftCard", PInt 50) ];
          return_it_element ].

(** What the second attempt of a call builds from [other_plan_payload]
    after a first attempt on [broken_return_it_payload]. *)
Definition stale_offer : Offer :=
  mkOffer (PStr "1080.0") (PInt 50) (PStr "1080.00") NA NA NA NA NA.

(** A network that answers the first request with
    [broken_return_it_payload] and the next ones with
    [other_plan_payload]. *)
Definition stale_network (n : nat) : response :=
  match n with
  | O => Response 200 (Some broken_return_it_payload)
  | S _ => Response 200 (Some other_plan_payload)
  end.

(** A document with one phone that has one Fido URL, and a network that
    answers 404 to every request. *)
Definition one_fido_document : element :=
  Element "phones" None
    [ Element "Pixel_9" None
        [ Element "url" (Some "https://www.bestbuy.ca/en-ca/product/fido-pixel-9/17000000")
            [] ] ].

Definition network_404 (n : nat) : response := Response 404 None.

(** Three failures of three kinds: a payload without a keep-it plan, a
    body that is not JSON, the transport. *)
Definition mixed_failures_network (n : nat) : response :=
  match n with
  | O => Response 200 (Some other_plan_payload)
  | S O => Response 200 None
  | S (S _) => Raises "Connection reset"
  end.

(** A failure of the transport, then the answer with [keep_it_payload]. *)
Definition recovering_network (n : nat) : response :=
  match n with
  | O => Raises "Connection reset"
  | S _ => Response 200 (Some keep_it_payload)
  end.


(** A phone with a record for Telus, one for Koodo and one that the
    carrier table could not name. *)
Definition phone_with_unknown : Phone :=
  mkPhone "Pixel 9"
    [ mkCarrier "Telus" "https://www.bestbuy.ca/telus/1" [sentinel_offer];
      mkCarrier "Koodo" "https://www.bestbuy.ca/koodo/2" [];
      mkCarrier "Unknown" "https://www.bestbuy.ca/other/3" [sentinel_offer] ].

(** A phone with two records for Fido, and one for Telus between them:
    the first Fido record holds the all-sentinel Offer, the second the
    Offer of [return_it_payload]. *)
Definition phone_with_two_fido : Phone :=
  mkPhone "Pixel 9"
    [ mkCarrier "Fido" "https://www.bestbuy.ca/fido/1" [sentinel_offer];
      mkCarrier "Telus" "https://www.bestbuy.ca/telus/2" [];
      mkCarrier "Fido" "https://www.bestbuy.ca/fido/3" [return_it_offer] ].

(** * Properties *)

(** ** Python's numbers, checked on known values *)

Example repr_examples :
  List.map (fun s => option_map Float64.repr (float_of_string s))
    [ "0.1"; "1030.0"; "1e16"; "1234567890123456"; "0.0001"; "0.00001";
      "5e-324"; "1.7976931348623157e308"; "9007199254740993"; "1e400"; "-0.0";
      " 1_000.25 "; "1__0"; "nan" ]
  = [ Some "0.1"; Some "1030.0"; Some "1e+16"; Some "1234567890123456.0";
      Some "0.0001"; Some "1e-05"; Some "5e-324"; Some "1.7976931348623157e+308";
      Some "9007199254740992.0"; Some "inf"; Some "-0.0"; Some "1000.25"; None;
      Some "nan" ].
Proof. vm_compute. reflexivity. Qed.

Example float_sum_example :
  Float64.repr (Float64.add (Float64.of_decimal false 1 (-1)) (Float64.of_decimal false 2 (-1)))
  = "0.30000000000000004".
Proof. vm_compute. reflexivity. Qed.

Example format_2f_examples :
  List.map (fun s => option_map Float64.format_2f (float_of_string s))
    [ "1080"; "0.125"; "0.375"; "1.005"; "2.675"; "-0.001"; "1e22"; "inf" ]
  = [ Some "1080.00"; Some "0.12"; Some "0.38"; Some "1.00"; Some "2.67";
      Some "-0.00"; Some "10000000000000000000000.00"; Some "inf" ].
Proof. vm_compute. reflexivity. Qed.

Example operator_examples :
  py_mul (PFloat float_45) (PInt 24) = inr (PFloat (Float64.of_decimal false 1080 0))
  /\ py_mul (PInt 45) (PInt 24) = inr (PInt 1080)
  /\ py_mul (PStr "45") (PInt 2) = inr (PStr "4545")
  /\ py_mul PNone (PInt 24) = inl TypeError
  /\ py_add (PStr "4545") (PInt 0) = inl TypeError
  /\ py_sub (PInt 1080) (PBool true) = inr (PInt 1079)
  /\ py_format_2f (PInt 1080) = inr "1080.00"
  /\ py_format_2f (PStr "1080") = inl ValueError
  /\ py_str (PInt 1030) = "1030"
  /\ py_str (PList [PInt 1; PStr "a"; PNone]) = "[1, 'a', None]"
  /\ py_getitem (PList []) (PInt 0) = inl IndexError
  /\ py_getitem (PDict [("type", PStr "keep-it")]) (PStr "giftCard")
     = inl (KeyError (PStr "giftCard")).
Proof. vm_compute. repeat split. Qed.

(** [float] skips C white space only: a tab or a space around the number
    is skipped, the separator 0x1F is not, although [str.strip] removes
    it. *)
Example float_white_space :
  py_float (PStr (String (ascii_of_N 9) " 1e2 ")) = inr (Float64.of_decimal false 1 2)
  /\ py_float (PStr (String (ascii_of_N 31) "1e2")) = inl ValueError
  /\ py_float (PStr ("1e2" ++ String (ascii_of_N 28) EmptyString)) = inl ValueError
  /\ str_strip (String (ascii_of_N 31) "1e2") = "1e2".
Proof. vm_compute. repeat split; reflexivity. Qed.

Example sku_example :
  sku_of "https://www.bestbuy.ca/en-ca/product/koodo-pixel-9/17000002?icmp=x" = "17000002".
Proof. reflexivity. Qed.

(** ** Carrier Identifier *)

Lemma append_cons (c : ascii) (s t : string) : String c s ++ t = String c (s ++ t).
Proof. reflexivity. Qed.

Lemma append_nil (t : string) : EmptyString ++ t = t.
Proof. reflexivity. Qed.

Lemma prefix_iff (n h : string) :
  String.prefix n h = true <-> exists suf, h = n ++ suf.
Proof.
  revert h. induction n as [|a n IH]; intros h; simpl.
  - split; [intros _; exists h; reflexivity | destruct h; reflexivity].
  - destruct h as [|b h]; simpl.
    + split; [discriminate | intros [suf H]; discriminate].
    + destruct (Ascii.ascii_dec a b) as [->|Hne].
      * rewrite IH. split; intros [suf H]; exists suf;
          rewrite append_cons in *; congruence.
      * split; [discriminate | intros [suf H]; rewrite append_cons in H; congruence].
Qed.

Lemma contains_nil (n : string) :
  contains n EmptyString = String.prefix n EmptyString.
Proof. unfold contains. apply orb_false_r. Qed.

Lemma contains_cons (n : string) (c : ascii) (h : string) :
  contains n (String c h) = String.prefix n (String c h) || contains n h.
Proof. reflexivity. Qed.

Lemma contains_iff (n h : string) : contains n h = true <-> occurs_in n h.
Proof.
  induction h as [|c h IH].
  - rewrite contains_nil, prefix_iff. split.
    + intros [suf H]. exists EmptyString, suf. exact H.
    + intros [pre [suf H]]. destruct pre.
      * exists suf. exact H.
      * rewrite append_cons in H. discriminate.
  - rewrite contains_cons, orb_true_iff, prefix_iff, IH. split.
    + intros [[suf H] | [pre [suf H]]].
      * exists EmptyString, suf. exact H.
      * exists (String c pre), suf. rewrite append_cons. congruence.
    + intros [pre [suf H]]. destruct pre as [|c' pre].
      * left. exists suf. exact H.
      * right. exists pre, suf. rewrite append_cons in H. congruence.
Qed.

Lemma contains_false_iff (n h : string) : contains n h = false <-> ~ occurs_in n h.
Proof.
  rewrite <- contains_iff. destruct (contains n h); split; congruence.
Qed.

(** C3, as written, fails: a URL that contains "koodo" and also "telus"
    is labelled "Telus", the entry that the table iterates first. *)
Lemma extract_carrier_name_koodo_after_telus :
  mentions "koodo" "https://www.bestbuy.ca/en-ca/product/telus-koodo-phone/12345"
  /\ extract_carrier_name "https://www.bestbuy.ca/en-ca/product/telus-koodo-phone/12345"
     = "Telus"
  /\ extract_carrier_name "https://www.bestbuy.ca/en-ca/product/telus-koodo-phone/12345"
     <> "Koodo".
Proof.
  split; [apply contains_iff; vm_compute; reflexivity |].
  split; [vm_compute; reflexivity | vm_compute; discriminate].
Qed.

(** C3, amended: a URL that contains "koodo" in any case, and does not
    contain "telus" (the one entry before it in the table), is labelled
    "Koodo"; a URL that contains none of the seven keys of the table is
    labelled "Unknown". *)
Theorem extract_carrier_name_koodo_unknown (url : string) :
  (mentions "koodo" url -> ~ mentions "telus" url ->
   extract_carrier_name url = "Koodo")
  /\ ((forall key value, In (key, value) carriers_table -> ~ mentions key url) ->
      extract_carrier_name url = "Unknown").
Proof.
  unfold mentions, extract_carrier_name. split.
  - intros Hk Ht. apply contains_iff in Hk. apply contains_false_iff in Ht.
    simpl. rewrite Ht, Hk. reflexivity.
  - intros Hnone.
    assert (Hall : forall key value, In (key, value) carriers_table ->
                     contains key (lower url) = false).
    { intros key value Hin. apply contains_false_iff. exact (Hnone key value Hin). }
    simpl.
    rewrite (Hall "telus" "Telus"), (Hall "koodo" "Koodo"), (Hall "rogers" "Rogers"),
      (Hall "fido" "Fido"), (Hall "freedom-mobile" "Freedom Mobile"),
      (Hall "bell" "Bell"), (Hall "virgin-plus" "Virgin Plus");
      [reflexivity | simpl; tauto ..].
Qed.

Lemma extract_carrier_name_koodo_unknown_witness :
  extract_carrier_name "https://www.bestbuy.ca/en-ca/product/KOODO-iphone/12345" = "Koodo"
  /\ extract_carrier_name "https://www.bestbuy.ca/en-ca/product/iphone/12345" = "Unknown".
Proof.
  split.
  - apply (proj1 (extract_carrier_name_koodo_unknown _)).
    + apply contains_iff. vm_compute. reflexivity.
    + apply contains_false_iff. vm_compute. reflexivity.
  - apply (proj2 (extract_carrier_name_koodo_unknown _)).
    intros key value Hin. apply contains_false_iff.
    simpl in Hin.
    repeat (destruct Hin as [Hin | Hin];
            [injection Hin as <- <-; vm_compute; reflexivity |]).
    destruct Hin.
Defined.

(** ** Report Writer *)

Lemma foldl_carriers_other (cs : list Carrier) (m : gmap string Carrier) (n : string) :
  Forall (fun c => name c <> n) cs ->
  foldl add_carrier m cs !! n = m !! n.
Proof.
  intros H. revert m. induction H as [|c cs Hc _ IH]; intros m; simpl.
  - reflexivity.
  - rewrite IH. unfold add_carrier. apply lookup_insert_ne. exact Hc.
Qed.

Lemma foldl_carriers_origin (cs : list Carrier) (m : gmap string Carrier)
    (n : string) (c : Carrier) :
  foldl add_carrier m cs !! n = Some c ->
  m !! n = Some c \/ (In c cs /\ name c = n).
Proof.
  revert m. induction cs as [|c' cs IH]; intros m; simpl.
  - intros H. left. exact H.
  - intros H. destruct (IH _ H) as [Hm | [Hin Hn]].
    + unfold add_carrier in Hm. destruct (decide (name c' = n)) as [Heq | Hne].
      * rewrite Heq, lookup_insert_eq in Hm. injection Hm as ->.
        right. split; [left; reflexivity | exact Heq].
      * rewrite lookup_insert_ne in Hm by exact Hne. left. exact Hm.
    + right. split; [right; exact Hin | exact Hn].
Qed.

(** The map holds, under a name, the last record of that name. *)
Lemma carrier_map_last (earlier later : list Carrier) (c : Carrier) :
  Forall (fun c' => name c' <> name c) later ->
  carrier_map (earlier ++ c :: later) !! name c = Some c.
Proof.
  intros H. unfold carrier_map. rewrite foldl_app. simpl.
  rewrite foldl_carriers_other by exact H.
  unfold add_carrier. apply lookup_insert_eq.
Qed.

Lemma carrier_map_absent (cs : list Carrier) (n : string) :
  (forall c, In c cs -> name c <> n) ->
  carrier_map cs !! n = None.
Proof.
  intros H. unfold carrier_map.
  rewrite foldl_carriers_other; [apply lookup_empty | apply List.Forall_forall; exact H].
Qed.

Lemma carrier_map_origin (cs : list Carrier) (n : string) (c : Carrier) :
  carrier_map cs !! n = Some c -> In c cs /\ name c = n.
Proof.
  intros H. destruct (foldl_carriers_origin cs ∅ n c H) as [Hm | Hin].
  - rewrite lookup_empty in Hm. discriminate.
  - exact Hin.
Qed.

Lemma in_phone_rows (phone : Phone) (n : string) (r : row) :
  In n carrier_order ->
  In r (carrier_rows phone (carrier_map (carriers phone)) n) ->
  In r (phone_rows phone).
Proof.
  intros Hn Hr. unfold phone_rows. apply List.in_concat.
  exists (carrier_rows phone (carrier_map (carriers phone)) n).
  split; [apply List.in_map; exact Hn | exact Hr].
Qed.

(** C7, as written, fails: in the placeholder row the Link column (the
    eleventh, as in the header) is neither left out nor blank: it holds
    "--" like the eight value columns. *)
Lemma placeholder_link_column_not_blank :
  carrier_rows phone_without_carriers
    (carrier_map (carriers phone_without_carriers)) "Fido"
  = [placeholder_row phone_without_carriers "Fido"]
  /\ nth_error headers 10 = Some (PStr "Link")
  /\ nth_error (placeholder_row phone_without_carriers "Fido") 10 = Some (PStr "--")
  /\ ~ (nth_error (placeholder_row phone_without_carriers "Fido") 10 = None
        \/ nth_error (placeholder_row phone_without_carriers "Fido") 10
           = Some (PStr EmptyString)).
Proof.
  split; [vm_compute; reflexivity |].
  split; [reflexivity |].
  split; [reflexivity |].
  intros [H | H]; vm_compute in H; discriminate.
Qed.

(** C7, amended: for a phone that lacks a carrier of the canonical order,
    the rows of that carrier are one placeholder row, made of the phone
    name, the carrier name and nine "--": the eight value fields and the
    Link column alike. The row has the eleven cells of the header. *)
Theorem placeholder_row_all_dashes (phone : Phone) (carrier_name : string) :
  In carrier_name carrier_order ->
  (forall c, In c (carriers phone) -> name c <> carrier_name) ->
  let r := ([PStr (phone_name phone); PStr carrier_name] ++ repeat (PStr "--") 9)%list in
  carrier_rows phone (carrier_map (carriers phone)) carrier_name = [r]
  /\ In r (phone_rows phone)
  /\ nth_error r 10 = Some (PStr "--")
  /\ List.length r = List.length headers.
Proof.
  intros Hn Hlack r.
  assert (Hrows : carrier_rows phone (carrier_map (carriers phone)) carrier_name = [r]).
  { unfold carrier_rows. rewrite carrier_map_absent by exact Hlack. reflexivity. }
  split; [exact Hrows |].
  split; [| split; reflexivity].
  apply (in_phone_rows phone carrier_name); [exact Hn |].
  rewrite Hrows. left. reflexivity.
Qed.

Lemma placeholder_row_all_dashes_witness :
  carrier_rows phone_without_carriers
    (carrier_map (carriers phone_without_carriers)) "Koodo"
  = [ [PStr "Pixel 9"; PStr "Koodo"; PStr "--"; PStr "--"; PStr "--"; PStr "--";
       PStr "--"; PStr "--"; PStr "--"; PStr "--"; PStr "--"] ].
Proof.
  apply (placeholder_row_all_dashes phone_without_carriers "Koodo").
  - simpl. tauto.
  - intros c Hin. destruct Hin.
Defined.

(** ** Pricing Fetcher: the retry loop *)

Section FetchLoop.

Variables updatedUrl carrier_name link phone_name : string.

Abbreviation try_block' := (try_block updatedUrl carrier_name link phone_name).
Abbreviation except_block' := (except_block carrier_name phone_name).
Abbreviation after_loop' := (after_loop carrier_name link phone_name).
Abbreviation while_loop' := (while_loop updatedUrl carrier_name link phone_name).

(** One turn of the loop. *)
Lemma while_loop_step (attempt : Z) (vars : locals) (w : world) :
  while_loop' attempt vars w =
  if decide (attempt <= max_retries) then
    match try_block' vars w with
    | (inr carrier, _, w') => (carrier, w')
    | (inl e, vars', w') =>
        while_loop' (attempt + 1) vars' (except_block' attempt e w')
    end
  else after_loop' w.
Proof.
  rewrite while_loop_equation_1.
  destruct (decide (attempt <= max_retries)); simpl; [| reflexivity].
  destruct (try_block' vars w) as [[[e | carrier] vars'] w']; reflexivity.
Qed.

(** The loop ends either inside [try], with what [try] returned, or
    after the loop. *)
Lemma while_loop_result (P : Carrier * world -> Prop) :
  (forall vars w carrier vars' w',
      try_block' vars w = (inr carrier, vars', w') -> P (carrier, w')) ->
  (forall w, P (after_loop' w)) ->
  forall attempt vars w, P (while_loop' attempt vars w).
Proof.
  intros Htry Hafter attempt.
  remember (Z.to_nat (max_retries + 1 - attempt)) as fuel eqn:Hfuel.
  revert attempt Hfuel.
  induction fuel as [|fuel IH]; intros attempt Hfuel vars w;
    rewrite while_loop_step; destruct (decide (attempt <= max_retries)) as [Hle | Hgt];
    try apply Hafter; try lia.
  destruct (try_block' vars w) as [[[e | carrier] vars'] w'] eqn:Htb.
  - apply IH. lia.
  - exact (Htry _ _ _ _ _ Htb).
Qed.

(** What [try] leaves behind: one more request, and the line that tells
    of a status other than 200 when that is how it returned. *)
Lemma try_block_outcome (vars : locals) (w : world) :
  let w1 := snd (session_get updatedUrl w) in
  match try_block' vars w with
  | (inr carrier, _, w') =>
      (carrier = mkCarrier carrier_name link []
       /\ w' = emit (PrintFailedToLoad phone_name carrier_name) w1)
      \/ (exists offer, carrier = mkCarrier carrier_name link [offer] /\ w' = w1)
  | (inl _, _, w') => w' = w1
  end.
Proof.
  unfold try_block. simpl.
  destruct (net w (requests w)) as [msg | status_code json]; [reflexivity |].
  destruct (negb (status_code =? 200)); [left; split; reflexivity |].
  destruct json as [response_data |]; [| reflexivity].
  destruct (build_offer response_data vars) as [[e | offer] vars']; [reflexivity |].
  right. exists offer. split; reflexivity.
Qed.

End FetchLoop.

(** The three ways out of [scrape_carrier_data], told apart by the last
    thing the call did: a request (the offer was built from its answer),
    the line for a status other than 200, or the line that gives up. *)
Lemma scrape_carrier_data_paths (url link phone_name : string) (w : world) :
  let result := scrape_carrier_data url link phone_name w in
  (last (log (snd result)) = Some (Request (pricing_url (sku_of url)))
   /\ exists offer, fst result = mkCarrier (extract_carrier_name url) link [offer])
  \/ (last (log (snd result))
      = Some (PrintFailedToLoad phone_name (extract_carrier_name url))
      /\ fst result = mkCarrier (extract_carrier_name url) link [])
  \/ (last (log (snd result))
      = Some (PrintGaveUp max_retries phone_name (extract_carrier_name url))
      /\ fst result = mkCarrier (extract_carrier_name url) link [sentinel_offer]).
Proof.
  unfold scrape_carrier_data. apply while_loop_result.
  - intros vars w0 carrier vars' w' Htry.
    pose proof (try_block_outcome (pricing_url (sku_of url))
                  (extract_carrier_name url) link phone_name vars w0) as Hout.
    rewrite Htry in Hout. simpl in Hout.
    destruct Hout as [[-> ->] | [offer [-> ->]]].
    + right. left. simpl. rewrite last_snoc. split; reflexivity.
    + left. simpl. rewrite last_snoc. split; [reflexivity | exists offer; reflexivity].
  - intros w0. right. right. simpl. rewrite last_snoc. split; reflexivity.
Qed.

Lemma scrape_carrier_data_offers (url link phone_name : string) (w : world) :
  (List.length (offers (fst (scrape_carrier_data url link phone_name w))) <= 1)%nat.
Proof.
  destruct (scrape_carrier_data_paths url link phone_name w)
    as [[_ [offer ->]] | [[_ ->] | [_ ->]]]; simpl; lia.
Qed.

(** An attempt that raises leaves the request behind and hands the
    exception and the variables to [except]. *)
Lemma try_block_raises (updatedUrl carrier_name page phone_name : string)
    (vars vars' : locals) (e : exn) (w : world) :
  attempt_fails (net w (requests w)) vars vars' e ->
  try_block updatedUrl carrier_name page phone_name vars w
  = (inl e, vars',
     mkWorld (net w) (S (requests w)) (log w ++ [Request updatedUrl])).
Proof.
  unfold attempt_fails, try_block, session_get.
  destruct (net w (requests w)) as [msg | status_code json].
  - intros [-> ->]. reflexivity.
  - intros [-> Hjson]. change (negb (200 =? 200)) with false. cbv iota.
    destruct json as [response_data |].
    + rewrite Hjson. reflexivity.
    + destruct Hjson as [-> ->]. reflexivity.
Qed.

(** After [k] attempts that raised, the call is at the head of the loop
    for attempt [k + 1], with the variables they left and [k] requests
    made. *)
Lemma loop_after_failures (url page phone_name : string) (w : world)
    (k : nat) (vars : locals) :
  failed_attempts w k vars ->
  (k <= 3)%nat ->
  exists wk,
    net wk = net w
    /\ requests wk = (requests w + k)%nat
    /\ scrape_carrier_data url page phone_name w
       = while_loop (pricing_url (sku_of url)) (extract_carrier_name url) page phone_name
           (1 + Z.of_nat k) vars wk.
Proof.
  induction 1 as [| k vars vars' e Hk IH Hfail]; intros Hle.
  - exists (emit (PrintStarted phone_name (extract_carrier_name url)) w).
    cbn [emit net requests]. split; [reflexivity | split; [lia | reflexivity]].
  - destruct (IH ltac:(lia)) as (wk & Hnet & Hreq & Hloop).
    rewrite <- Hnet, <- Hreq in Hfail.
    exists (except_block (extract_carrier_name url) phone_name (1 + Z.of_nat k) e
              (mkWorld (net wk) (S (requests wk))
                 (log wk ++ [Request (pricing_url (sku_of url))]))).
    split; [| split].
    + unfold except_block. destruct (1 + Z.of_nat k <? max_retries); exact Hnet.
    + unfold except_block.
      destruct (1 + Z.of_nat k <? max_retries); cbn [emit requests]; lia.
    + rewrite Hloop, while_loop_step.
      destruct (decide (1 + Z.of_nat k <= max_retries)) as [_ | Hgt];
        [| unfold max_retries in Hgt; lia].
      rewrite (try_block_raises _ _ _ _ vars vars' e wk Hfail).
      replace (1 + Z.of_nat k + 1) with (1 + Z.of_nat (S k)) by lia. reflexivity.
Qed.

(** The attempt after [k] that raised: its answer ends the call on the
    status path or with an Offer, or it raises as well. *)
Lemma next_attempt (w : world) (k : nat) (vars : locals) :
  failed_attempts w k vars ->
  (exists status_code json,
      net w (requests w + k)%nat = Response status_code json /\ status_code <> 200)
  \/ (exists response_data offer vars',
         net w (requests w + k)%nat = Response 200 (Some response_data)
         /\ build_offer response_data vars = (inr offer, vars'))
  \/ (exists vars', failed_attempts w (S k) vars').
Proof.
  intros Hk.
  destruct (net w (requests w + k)%nat) as [msg | status_code json] eqn:Hnet.
  - right; right. exists vars.
    apply (failed_more w k vars vars (TransportError msg) Hk).
    rewrite Hnet. split; reflexivity.
  - destruct (Z.eq_dec status_code 200) as [-> | Hne].
    + destruct json as [response_data |].
      * destruct (build_offer response_data vars) as [[e | offer] vars'] eqn:Hbuild.
        -- right; right. exists vars'. apply (failed_more w k vars vars' e Hk).
           rewrite Hnet. split; [reflexivity | exact Hbuild].
        -- right; left. exists response_data, offer, vars'.
           split; [reflexivity | exact Hbuild].
      * right; right. exists vars.
        apply (failed_more w k vars vars JSONDecodeError Hk).
        rewrite Hnet. split; [reflexivity | split; reflexivity].
    + left. exists status_code, json. split; [reflexivity | exact Hne].
Qed.

(** The status path: an answer with a status other than 200 ends the call
    with no Offer. *)
Lemma status_path (url page phone_name : string) (w : world) (k : nat) (vars : locals)
    (status_code : Z) (json : option pyval) :
  (k < 3)%nat ->
  failed_attempts w k vars ->
  net w (requests w + k)%nat = Response status_code json ->
  status_code <> 200 ->
  offers (fst (scrape_carrier_data url page phone_name w)) = [].
Proof.
  intros Hlt Hk Hanswer Hstatus.
  destruct (loop_after_failures url page phone_name w k vars Hk ltac:(lia))
    as (wk & Hnet & Hreq & ->).
  rewrite while_loop_step.
  destruct (decide (1 + Z.of_nat k <= max_retries)) as [_ | Hgt];
    [| unfold max_retries in Hgt; lia].
  unfold try_block, session_get. rewrite Hnet, Hreq, Hanswer.
  destruct (Z.eqb_spec status_code 200) as [Heq | _]; [contradiction |].
  reflexivity.
Qed.

(** The success path: status 200 and a payload from which the Offer is
    built end the call with that Offer. *)
Lemma success_path (url page phone_name : string) (w : world) (k : nat)
    (vars vars' : locals) (response_data : pyval) (offer : Offer) :
  (k < 3)%nat ->
  failed_attempts w k vars ->
  net w (requests w + k)%nat = Response 200 (Some response_data) ->
  build_offer response_data vars = (inr offer, vars') ->
  offers (fst (scrape_carrier_data url page phone_name w)) = [offer].
Proof.
  intros Hlt Hk Hanswer Hbuild.
  destruct (loop_after_failures url page phone_name w k vars Hk ltac:(lia))
    as (wk & Hnet & Hreq & ->).
  rewrite while_loop_step.
  destruct (decide (1 + Z.of_nat k <= max_retries)) as [_ | Hgt];
    [| unfold max_retries in Hgt; lia].
  unfold try_block, session_get. rewrite Hnet, Hreq, Hanswer.
  change (negb (200 =? 200)) with false. cbv iota. rewrite Hbuild. reflexivity.
Qed.

(** The exhaustion path: after three attempts that raised, the call ends
    with the all-sentinel Offer. *)
Lemma exhaustion_path (url page phone_name : string) (w : world) (vars : locals) :
  failed_attempts w 3 vars ->
  offers (fst (scrape_carrier_data url page phone_name w)) = [sentinel_offer].
Proof.
  intros Hk.
  destruct (loop_after_failures url page phone_name w 3 vars Hk ltac:(lia))
    as (wk & _ & _ & ->).
  rewrite while_loop_step.
  destruct (decide (1 + Z.of_nat 3 <= max_retries)) as [Hle | _];
    [unfold max_retries in Hle; lia |].
  reflexivity.
Qed.

(** C9: whatever the URL and whatever the network answers, the Carrier
    that the fetcher returns holds at most one Offer, and how many it
    holds is decided by the answers of the network to the requests of the
    call, of which the first [k] (at most three) are attempts that raised.
    Success: when the next answer has status 200 and a payload from which
    the Offer is built, the Carrier holds exactly that Offer. Status: when
    the next answer has a status outside 200-299, the Carrier holds no
    Offer. Exhaustion: when three attempts raised, the Carrier holds
    exactly the all-sentinel Offer. Every call ends on one of these three
    paths, where the status path is the one of every status other than 200
    (a status 201-299 ends the call with no Offer as well). The last thing
    logged tells the path: the request, the line for the status, or the
    line that gives up. *)
Theorem at_most_one_offer (url page phone_name : string) (w : world) :
  let result := scrape_carrier_data url page phone_name w in
  (List.length (offers (fst result)) <= 1)%nat
  /\ ((last (log (snd result)) = Some (Request (pricing_url (sku_of url)))
       /\ exists offer, offers (fst result) = [offer])
      \/ (last (log (snd result))
          = Some (PrintFailedToLoad phone_name (extract_carrier_name url))
          /\ offers (fst result) = [])
      \/ (last (log (snd result))
          = Some (PrintGaveUp max_retries phone_name (extract_carrier_name url))
          /\ offers (fst result) = [sentinel_offer]))
  /\ (forall k vars response_data offer vars',
        (k < 3)%nat ->
        failed_attempts w k vars ->
        net w (requests w + k)%nat = Response 200 (Some response_data) ->
        build_offer response_data vars = (inr offer, vars') ->
        offers (fst result) = [offer])
  /\ (forall k vars status_code json,
        (k < 3)%nat ->
        failed_attempts w k vars ->
        net w (requests w + k)%nat = Response status_code json ->
        ~ (200 <= status_code < 300) ->
        offers (fst result) = [])
  /\ (forall vars, failed_attempts w 3 vars -> offers (fst result) = [sentinel_offer])
  /\ exists k vars,
       failed_attempts w k vars
       /\ (((k < 3)%nat
            /\ (exists response_data offer vars',
                   net w (requests w + k)%nat = Response 200 (Some response_data)
                   /\ build_offer response_data vars = (inr offer, vars')
                   /\ offers (fst result) = [offer]))
           \/ ((k < 3)%nat
               /\ (exists status_code json,
                      net w (requests w + k)%nat = Response status_code json
                      /\ status_code <> 200
                      /\ offers (fst result) = []))
           \/ (k = 3%nat /\ offers (fst result) = [sentinel_offer])).
Proof.
  intros result. split; [apply scrape_carrier_data_offers |]. split.
  { destruct (scrape_carrier_data_paths url page phone_name w)
      as [[Hlast [offer Hc]] | [[Hlast Hc] | [Hlast Hc]]]; fold result in Hlast, Hc.
    - left. split; [exact Hlast | exists offer; rewrite Hc; reflexivity].
    - right. left. split; [exact Hlast | rewrite Hc; reflexivity].
    - right. right. split; [exact Hlast | rewrite Hc; reflexivity]. }
  split.
  { intros k vars response_data offer vars' Hlt Hk Hanswer Hbuild.
    exact (success_path url page phone_name w k vars vars' response_data offer
             Hlt Hk Hanswer Hbuild). }
  split.
  { intros k vars status_code json Hlt Hk Hanswer Hstatus.
    apply (status_path url page phone_name w k vars status_code json Hlt Hk Hanswer).
    lia. }
  split; [exact (exhaustion_path url page phone_name w) |].
  assert (Hend : forall k vars,
             (k < 3)%nat -> failed_attempts w k vars ->
             ((exists response_data offer vars',
                  net w (requests w + k)%nat = Response 200 (Some response_data)
                  /\ build_offer response_data vars = (inr offer, vars')
                  /\ offers (fst result) = [offer])
              \/ (exists status_code json,
                     net w (requests w + k)%nat = Response status_code json
                     /\ status_code <> 200
                     /\ offers (fst result) = []))
             \/ exists vars', failed_attempts w (S k) vars').
  { intros k vars Hlt Hk.
    destruct (next_attempt w k vars Hk)
      as [(status_code & json & Hanswer & Hstatus)
         | [(response_data & offer & vars' & Hanswer & Hbuild) | Hnext]].
    - left. right. exists status_code, json.
      split; [exact Hanswer | split; [exact Hstatus |]].
      exact (status_path url page phone_name w k vars status_code json
               Hlt Hk Hanswer Hstatus).
    - left. left. exists response_data, offer, vars'.
      split; [exact Hanswer | split; [exact Hbuild |]].
      exact (success_path url page phone_name w k vars vars' response_data offer
               Hlt Hk Hanswer Hbuild).
    - right. exact Hnext. }
  destruct (Hend 0%nat no_locals ltac:(lia) (failed_none w)) as [[H0 | H0] | [v1 H1]].
  { exists 0%nat, no_locals. split; [apply failed_none | left; split; [lia | exact H0]]. }
  { exists 0%nat, no_locals.
    split; [apply failed_none | right; left; split; [lia | exact H0]]. }
  destruct (Hend 1%nat v1 ltac:(lia) H1) as [[H | H] | [v2 H2]].
  { exists 1%nat, v1. split; [exact H1 | left; split; [lia | exact H]]. }
  { exists 1%nat, v1. split; [exact H1 | right; left; split; [lia | exact H]]. }
  destruct (Hend 2%nat v2 ltac:(lia) H2) as [[H | H] | [v3 H3]].
  { exists 2%nat, v2. split; [exact H2 | left; split; [lia | exact H]]. }
  { exists 2%nat, v2. split; [exact H2 | right; left; split; [lia | exact H]]. }
  exists 3%nat, v3. split; [exact H3 | right; right; split; [reflexivity |]].
  exact (exhaustion_path url page phone_name w v3 H3).
Qed.

Lemma at_most_one_offer_witness :
  offers
    (fst (scrape_carrier_data "https://www.bestbuy.ca/en-ca/product/koodo-pixel-9/17000002"
            "https://www.bestbuy.ca/en-ca/product/koodo-pixel-9/17000002" "Pixel 9"
            (mkWorld recovering_network 0 [])))
  = [ mkOffer (PStr "1030.0") (PInt 50) (PStr "1080.00") (PFloat float_45) (PInt 0)
        NA NA NA ]
  /\ offers
       (fst (scrape_carrier_data "https://www.bestbuy.ca/en-ca/product/koodo-pixel-9/17000002"
               "https://www.bestbuy.ca/en-ca/product/koodo-pixel-9/17000002" "Pixel 9"
               (mkWorld network_404 0 [])))
     = [].
Proof.
  split.
  - refine (proj1 (proj2 (proj2 (at_most_one_offer
                                   "https://www.bestbuy.ca/en-ca/product/koodo-pixel-9/17000002"
                                   "https://www.bestbuy.ca/en-ca/product/koodo-pixel-9/17000002"
                                   "Pixel 9" (mkWorld recovering_network 0 []))))
              1%nat no_locals keep_it_payload _ _ _ _ _ _).
    + lia.
    + apply (failed_more _ 0 no_locals no_locals (TransportError "Connection reset")).
      * apply failed_none.
      * split; reflexivity.
    + reflexivity.
    + vm_compute. reflexivity.
  - refine (proj1 (proj2 (proj2 (proj2 (at_most_one_offer
                                   "https://www.bestbuy.ca/en-ca/product/koodo-pixel-9/17000002"
                                   "https://www.bestbuy.ca/en-ca/product/koodo-pixel-9/17000002"
                                   "Pixel 9" (mkWorld network_404 0 [])))))
              0%nat no_locals 404 None _ _ _ _).
    + lia.
    + apply failed_none.
    + reflexivity.
    + lia.
Defined.

(** C5: when the first answer has a status outside 200-299, the fetcher
    makes that one request, prints the failure, and returns a Carrier with
    no Offer at all: no retry line, no wait, no second request. *)
Theorem no_retry_on_bad_status (url link phone_name : string) (w : world)
    (status_code : Z) (json : option pyval) :
  net w (requests w) = Response status_code json ->
  ~ (200 <= status_code < 300) ->
  scrape_carrier_data url link phone_name w
  = (mkCarrier (extract_carrier_name url) link [],
     mkWorld (net w) (S (requests w))
       (log w ++ [ PrintStarted phone_name (extract_carrier_name url);
                   Request (pricing_url (sku_of url));
                   PrintFailedToLoad phone_name (extract_carrier_name url) ])).
Proof.
  intros Hnet Hstatus. unfold scrape_carrier_data.
  rewrite while_loop_step.
  destruct (decide (1 <= max_retries)) as [_ | Hgt]; [| unfold max_retries in Hgt; lia].
  unfold try_block, session_get, emit. simpl. rewrite Hnet.
  destruct (Z.eqb_spec status_code 200) as [-> | Hne]; [lia |].
  simpl. rewrite <- !app_assoc. reflexivity.
Qed.

Lemma no_retry_on_bad_status_witness :
  scrape_carrier_data "https://www.bestbuy.ca/en-ca/product/fido-pixel-9/17000000"
    "https://www.bestbuy.ca/en-ca/product/fido-pixel-9/17000000" "Pixel 9"
    (mkWorld (fun _ => Response 404 None) 0 [])
  = (mkCarrier "Fido" "https://www.bestbuy.ca/en-ca/product/fido-pixel-9/17000000" [],
     mkWorld (fun _ => Response 404 None) 1
       [ PrintStarted "Pixel 9" "Fido";
         Request (pricing_url "17000000");
         PrintFailedToLoad "Pixel 9" "Fido" ]).
Proof.
  apply (no_retry_on_bad_status
           "https://www.bestbuy.ca/en-ca/product/fido-pixel-9/17000000"
           "https://www.bestbuy.ca/en-ca/product/fido-pixel-9/17000000" "Pixel 9"
           (mkWorld (fun _ => Response 404 None) 0 []) 404 None).
  - reflexivity.
  - lia.
Defined.

(** C4: when [session.get] raises on each of the three attempts, the
    fetcher returns (it does not raise) a Carrier with the one all-sentinel
    Offer, after three requests and two waits of two seconds, one after the
    first and one after the second failure, none after the third. *)
Theorem three_failures_give_sentinel (url link phone_name : string) (w : world)
    (msg1 msg2 msg3 : string) :
  net w (requests w) = Raises msg1 ->
  net w (S (requests w)) = Raises msg2 ->
  net w (S (S (requests w))) = Raises msg3 ->
  let carrier_name := extract_carrier_name url in
  let trace :=
    [ PrintStarted phone_name carrier_name;
      Request (pricing_url (sku_of url));
      PrintRetry 1 phone_name carrier_name (TransportError msg1);
      Sleep 2;
      Request (pricing_url (sku_of url));
      PrintRetry 2 phone_name carrier_name (TransportError msg2);
      Sleep 2;
      Request (pricing_url (sku_of url));
      PrintGaveUp 3 phone_name carrier_name ] in
  scrape_carrier_data url link phone_name w
  = (mkCarrier carrier_name link [sentinel_offer],
     mkWorld (net w) (S (S (S (requests w)))) (log w ++ trace))
  /\ sentinel_offer
     = mkOffer (PStr "N/A") (PStr "0") (PStr "N/A") (PStr "N/A") (PStr "N/A")
         (PStr "N/A") (PStr "N/A") (PStr "N/A")
  /\ List.length (List.filter is_sleep trace) = 2%nat
  /\ List.length (List.filter is_request trace) = 3%nat.
Proof.
  intros H1 H2 H3 carrier_name trace.
  split; [| split; [reflexivity | split; reflexivity]].
  unfold scrape_carrier_data. fold carrier_name.
  rewrite while_loop_step.
  destruct (decide (1 <= max_retries)) as [_ | Hgt]; [| unfold max_retries in Hgt; lia].
  unfold try_block at 1, session_get, emit. simpl. rewrite H1.
  rewrite while_loop_step. simpl.
  unfold try_block at 1, session_get, emit. simpl. rewrite H2.
  rewrite while_loop_step. simpl.
  unfold try_block at 1, session_get, emit. simpl. rewrite H3.
  rewrite while_loop_step. simpl.
  unfold after_loop, emit. simpl. rewrite <- !app_assoc. reflexivity.
Qed.

Lemma three_failures_give_sentinel_witness :
  scrape_carrier_data "https://www.bestbuy.ca/en-ca/product/telus-pixel-9/17000001"
    "https://www.bestbuy.ca/en-ca/product/telus-pixel-9/17000001" "Pixel 9"
    (mkWorld (fun _ => Raises "Connection reset") 0 [])
  = (mkCarrier "Telus" "https://www.bestbuy.ca/en-ca/product/telus-pixel-9/17000001"
       [sentinel_offer],
     mkWorld (fun _ => Raises "Connection reset") 3
       [ PrintStarted "Pixel 9" "Telus";
         Request (pricing_url "17000001");
         PrintRetry 1 "Pixel 9" "Telus" (TransportError "Connection reset");
         Sleep 2;
         Request (pricing_url "17000001");
         PrintRetry 2 "Pixel 9" "Telus" (TransportError "Connection reset");
         Sleep 2;
         Request (pricing_url "17000001");
         PrintGaveUp 3 "Pixel 9" "Telus" ]).
Proof.
  apply (three_failures_give_sentinel
           "https://www.bestbuy.ca/en-ca/product/telus-pixel-9/17000001"
           "https://www.bestbuy.ca/en-ca/product/telus-pixel-9/17000001" "Pixel 9"
           (mkWorld (fun _ => Raises "Connection reset") 0 [])
           "Connection reset" "Connection reset" "Connection reset");
    reflexivity.
Defined.

(** ** Offer Normalizer *)

(** C2: for the payload
    [[{"type":"keep-it","monthly":45.0,"downPayment":0,"giftCard":50}]]
    answered with status 200 to the first request, the fetcher returns the
    Offer whose total price is the string "1080.00" and whose price after
    gift card is the string "1030.0": [str] of the difference, not a
    two-decimal format. *)
Theorem keep_it_offer_prices (url link phone_name : string) (w : world) :
  net w (requests w) = Response 200 (Some keep_it_payload) ->
  exists offer,
    fst (scrape_carrier_data url link phone_name w)
    = mkCarrier (extract_carrier_name url) link [offer]
    /\ total_price offer = PStr "1080.00"
    /\ price_after_gc offer = PStr "1030.0"
    /\ offer = mkOffer (PStr "1030.0") (PInt 50) (PStr "1080.00") (PFloat float_45)
                 (PInt 0) NA NA NA.
Proof.
  intros Hnet.
  assert (Hoffer : build_offer keep_it_payload no_locals
                   = (inr (mkOffer (PStr "1030.0") (PInt 50) (PStr "1080.00")
                             (PFloat float_45) (PInt 0) NA NA NA),
                      mkLocals (Some (PFloat (Float64.of_decimal false 1080 0)))
                               (Some (PFloat (Float64.of_decimal false 1030 0)))))
    by (vm_compute; reflexivity).
  eexists. split; [| split; [| split]]; [| | | reflexivity]; [| reflexivity | reflexivity].
  unfold scrape_carrier_data. rewrite while_loop_step.
  destruct (decide (1 <= max_retries)) as [_ | Hgt]; [| unfold max_retries in Hgt; lia].
  unfold try_block, session_get, emit. cbn [net requests log]. rewrite Hnet.
  change (negb (200 =? 200)) with false. cbv beta iota.
  rewrite Hoffer. reflexivity.
Qed.

Lemma keep_it_offer_prices_witness :
  exists offer,
    fst (scrape_carrier_data "https://www.bestbuy.ca/en-ca/product/koodo-pixel-9/17000002"
           "https://www.bestbuy.ca/en-ca/product/koodo-pixel-9/17000002" "Pixel 9"
           (mkWorld (fun _ => Response 200 (Some keep_it_payload)) 0 []))
    = mkCarrier
        (extract_carrier_name "https://www.bestbuy.ca/en-ca/product/koodo-pixel-9/17000002")
        "https://www.bestbuy.ca/en-ca/product/koodo-pixel-9/17000002" [offer]
    /\ total_price offer = PStr "1080.00"
    /\ price_after_gc offer = PStr "1030.0"
    /\ offer = mkOffer (PStr "1030.0") (PInt 50) (PStr "1080.00") (PFloat float_45)
                 (PInt 0) NA NA NA.
Proof.
  apply (keep_it_offer_prices
           "https://www.bestbuy.ca/en-ca/product/koodo-pixel-9/17000002"
           "https://www.bestbuy.ca/en-ca/product/koodo-pixel-9/17000002" "Pixel 9"
           (mkWorld (fun _ => Response 200 (Some keep_it_payload)) 0 [])).
  reflexivity.
Defined.

(** *** Reading a monadic block backwards *)

Lemma bind_inr {A B : Type} (m : M A) (f : A -> M B) (vars vars' : locals) (b : B) :
  bind m f vars = (inr b, vars') ->
  exists a vars1, m vars = (inr a, vars1) /\ f a vars1 = (inr b, vars').
Proof.
  unfold bind. destruct (m vars) as [[e | a] vars1]; [discriminate |].
  intros H. exists a, vars1. split; [reflexivity | exact H].
Qed.

Lemma bind_inl {A B : Type} (m : M A) (f : A -> M B) (vars vars' : locals) (e : exn) :
  bind m f vars = (inl e, vars') ->
  m vars = (inl e, vars')
  \/ exists a vars1, m vars = (inr a, vars1) /\ f a vars1 = (inl e, vars').
Proof.
  unfold bind. destruct (m vars) as [[e' | a] vars1]; intros H.
  - left. injection H as -> ->. reflexivity.
  - right. exists a, vars1. split; [reflexivity | exact H].
Qed.

Lemma lift_eq {A : Type} (r x : res A) (vars vars' : locals) :
  lift r vars = (x, vars') -> r = x /\ vars' = vars.
Proof. unfold lift. intros H. injection H as -> ->. split; reflexivity. Qed.

Lemma read_total_price_inr (vars vars' : locals) (v : pyval) :
  read_total_price vars = (inr v, vars') ->
  var_total_price vars = Some v /\ vars' = vars.
Proof.
  unfold read_total_price. destruct (var_total_price vars); intros H;
    [injection H as -> ->; split; reflexivity | discriminate].
Qed.

Lemma read_price_after_gc_inr (vars vars' : locals) (v : pyval) :
  read_price_after_gc vars = (inr v, vars') ->
  var_price_after_gc vars = Some v /\ vars' = vars.
Proof.
  unfold read_price_after_gc. destruct (var_price_after_gc vars); intros H;
    [injection H as -> ->; split; reflexivity | discriminate].
Qed.

(** *** The operators on values *)

Lemma seq_index_in_range (n i : Z) :
  0 <= i < n -> seq_index n i = Some (Z.to_nat i).
Proof.
  intros H. unfold seq_index.
  destruct (Z.ltb_spec i 0); [lia |].
  destruct (Z.leb_spec 0 i); [| lia].
  destruct (Z.ltb_spec i n); [reflexivity | lia].
Qed.

Lemma field_first (e0 : pyval) (rest : list pyval) (key : string) :
  field (PList (e0 :: rest)) 0 key = py_getitem e0 (PStr key).
Proof.
  unfold field, py_getitem at 1. cbn [as_int].
  rewrite seq_index_in_range by (cbn [List.length]; lia). reflexivity.
Qed.

Lemma field_second (e0 e1 : pyval) (rest : list pyval) (key : string) :
  field (PList (e0 :: e1 :: rest)) 1 key = py_getitem e1 (PStr key).
Proof.
  unfold field, py_getitem at 1. cbn [as_int].
  rewrite seq_index_in_range by (cbn [List.length]; lia). reflexivity.
Qed.

Lemma float_of_number_24 : float_of_number (NInt 24) = inr float_24.
Proof. vm_compute. reflexivity. Qed.

Lemma py_mul_float_24 (x : spec_float) :
  py_mul (PFloat x) (PInt 24) = inr (PFloat (Float64.mul x float_24)).
Proof.
  unfold py_mul. cbn [as_number]. unfold arith.
  cbn [float_of_number res_bind]. 
  change (Float64.of_int 24) with (Some float_24). reflexivity.
Qed.

Lemma py_sub_float_r (a : pyval) (y : spec_float) (r : pyval) :
  py_sub a (PFloat y) = inr r ->
  exists x, py_float a = inr x /\ r = PFloat (Float64.sub x y).
Proof.
  unfold py_sub, py_float.
  destruct a as [| b | z | f | s | l | items]; cbn [as_number]; try discriminate;
    unfold arith.
  - destruct (float_of_number (NInt (if b then 1 else 0))) as [e | x];
      cbn [res_bind float_of_number]; [discriminate |].
    intros H. injection H as <-. exists x. split; reflexivity.
  - destruct (float_of_number (NInt z)) as [e | x];
      cbn [res_bind float_of_number]; [discriminate |].
    intros H. injection H as <-. exists x. split; reflexivity.
  - cbn [res_bind float_of_number].
    intros H. injection H as <-. exists f. split; reflexivity.
Qed.

Lemma py_format_2f_number (v : pyval) (text : string) :
  py_format_2f v = inr text ->
  exists x, py_float v = inr x /\ text = Float64.format_2f x.
Proof.
  unfold py_float, py_format_2f.
  destruct v as [| b | z | f | s | l | items]; cbn [as_number]; try discriminate.
  - destruct (float_of_number _) as [e | x]; cbn [res_bind]; [discriminate |].
    intros H. injection H as <-. exists x. split; reflexivity.
  - destruct (float_of_number _) as [e | x]; cbn [res_bind]; [discriminate |].
    intros H. injection H as <-. exists x. split; reflexivity.
  - cbn [float_of_number res_bind]. intros H. injection H as <-.
    exists f. split; reflexivity.
Qed.

(** The [return-it] branch assigns no variable. *)
Lemma bib_premium_of_vars (m d : pyval) (vars : locals) :
  snd (bib_premium_of m d vars) = vars.
Proof.
  unfold bib_premium_of. destruct (isinstance_float m); [| reflexivity].
  unfold bind, read_total_price, lift.
  destruct (var_total_price vars); [| reflexivity].
  repeat match goal with
         | |- context [match ?r with inl _ => _ | inr _ => _ end] => destruct r
         end; reflexivity.
Qed.

Lemma return_it_block_vars (response_data : pyval) (vars : locals) :
  snd (return_it_block response_data vars) = vars.
Proof.
  unfold return_it_block, bind, lift.
  destruct (py_len response_data) as [e | n]; [reflexivity |].
  destruct (1 <? n).
  - destruct (field response_data 1 "type") as [e | type1]; [reflexivity |].
    unfold ret. destruct (py_eq_str type1 "return-it"); [| reflexivity].
    destruct (field response_data 1 "monthly") as [e | m]; [reflexivity |].
    destruct (field response_data 1 "residualValue") as [e | r]; [reflexivity |].
    destruct (field response_data 1 "downPayment") as [e | d]; [reflexivity |].
    pose proof (bib_premium_of_vars m d vars) as H.
    destruct (bib_premium_of m d vars) as [[e | p] vars1]; simpl in H; subst; reflexivity.
  - reflexivity.
Qed.

(** C6: for a payload of two elements whose second has type "return-it",
    the Offer that the attempt builds has, when the "monthly" of that
    element is a float, the premium of the specification: total price
    minus 24 times that monthly price minus the float of its down payment,
    with two decimals ([total] is the float of the variable [total_price],
    the one that the Offer shows as its total price); and when "monthly" is
    anything but a float (an integer, a string, ...), the premium "N/A". *)
Theorem bib_premium_rule (e0 e1 : pyval) (vars vars' : locals) (offer : Offer) :
  py_getitem e1 (PStr "type") = inr (PStr "return-it") ->
  build_offer (PList [e0; e1]) vars = (inr offer, vars') ->
  exists monthly down_payment,
    py_getitem e1 (PStr "monthly") = inr monthly
    /\ py_getitem e1 (PStr "downPayment") = inr down_payment
    /\ (forall bib_monthly, monthly = PFloat bib_monthly ->
        exists v total down,
          var_total_price vars' = Some v
          /\ py_float v = inr total
          /\ py_float down_payment = inr down
          /\ total_price offer = PStr (Float64.format_2f total)
          /\ bib_premium offer = PStr (spec_bib_premium total bib_monthly down))
    /\ (isinstance_float monthly = false -> bib_premium offer = PStr "N/A").
Proof.
  intros Htype Hbuild. unfold build_offer in Hbuild.
  apply bind_inr in Hbuild as (plan_type & vars1 & _ & Hbuild).
  apply bind_inr in Hbuild as (gift & vars2 & _ & Hbuild).
  apply bind_inr in Hbuild as ([monthly_price down_payment0] & vars3 & _ & Hbuild).
  apply bind_inr in Hbuild as ([[premium bib_monthly0] down_return0] & vars4 & Hret & Hbuild).
  apply bind_inr in Hbuild as (after_gc & vars5 & Hgc & Hbuild).
  apply read_price_after_gc_inr in Hgc as [_ ->].
  apply bind_inr in Hbuild as (total_v & vars6 & Htotal & Hbuild).
  apply read_total_price_inr in Htotal as [Htotal ->].
  apply bind_inr in Hbuild as (text & vars7 & Htext & Hbuild).
  apply lift_eq in Htext as [Htext ->].
  unfold ret in Hbuild. injection Hbuild as <- <-.
  pose proof (return_it_block_vars (PList [e0; e1]) vars3) as Hvars.
  rewrite Hret in Hvars. cbn [snd] in Hvars. subst vars4.
  (* inside the return-it branch *)
  unfold return_it_block in Hret.
  apply bind_inr in Hret as (n & vars8 & Hlen & Hret).
  apply lift_eq in Hlen as [Hlen ->]. cbn in Hlen. injection Hlen as <-.
  change (1 <? 2) with true in Hret. cbv iota in Hret.
  apply bind_inr in Hret as (is_return_it & vars8 & Hflag & Hret).
  apply bind_inr in Hflag as (type1 & vars9 & Htype1 & Hflag).
  apply lift_eq in Htype1 as [Htype1 ->].
  rewrite field_second, Htype in Htype1. injection Htype1 as <-.
  unfold ret in Hflag. injection Hflag as <- <-.
  change (py_eq_str (PStr "return-it") "return-it") with true in Hret. cbv iota in Hret.
  apply bind_inr in Hret as (bib_monthly & vars8 & Hm & Hret).
  apply lift_eq in Hm as [Hm ->]. rewrite field_second in Hm.
  apply bind_inr in Hret as (down_return & vars8 & _ & Hret).
  apply bind_inr in Hret as (bib_monthly_price & vars9 & Hm' & Hret).
  apply lift_eq in Hm' as [Hm' ->]. rewrite field_second, Hm in Hm'. injection Hm' as <-.
  apply bind_inr in Hret as (bib_down_payment & vars10 & Hd & Hret).
  apply lift_eq in Hd as [Hd ->]. rewrite field_second in Hd.
  apply bind_inr in Hret as (bib_premium0 & vars11 & Hprem & Hret).
  unfold ret in Hret. injection Hret as -> <- <- <-.
  exists bib_monthly, bib_down_payment.
  split; [exact Hm | split; [exact Hd |]].
  cbn [bib_premium total_price].
  pose proof (bib_premium_of_vars bib_monthly bib_down_payment vars8) as Hsame.
  rewrite Hprem in Hsame. cbn [snd] in Hsame. subst vars11.
  unfold bib_premium_of in Hprem. split.
  - intros x ->. cbn [isinstance_float] in Hprem.
    apply bind_inr in Hprem as (total_v' & vars12 & Hread & Hprem).
    apply read_total_price_inr in Hread as [Hread ->].
    rewrite Htotal in Hread. injection Hread as <-.
    apply bind_inr in Hprem as (monthly & vars12 & Hmonthly & Hprem).
    apply lift_eq in Hmonthly as [Hmonthly ->]. injection Hmonthly as <-.
    apply bind_inr in Hprem as (term & vars12 & Hterm & Hprem).
    apply lift_eq in Hterm as [Hterm ->].
    rewrite py_mul_float_24 in Hterm. injection Hterm as <-.
    apply bind_inr in Hprem as (rest & vars12 & Hrest & Hprem).
    apply lift_eq in Hrest as [Hrest ->].
    apply py_sub_float_r in Hrest as (total & Hfloat & ->).
    apply bind_inr in Hprem as (down & vars12 & Hdown & Hprem).
    apply lift_eq in Hdown as [Hdown ->].
    apply bind_inr in Hprem as (premium_v & vars12 & Hsub & Hprem).
    apply lift_eq in Hsub as [Hsub ->].
    apply py_sub_float_r in Hsub as (rest_f & Hrest_f & ->).
    injection Hrest_f as <-.
    apply bind_inr in Hprem as (text' & vars12 & Htext' & Hprem).
    apply lift_eq in Htext' as [Htext' ->].
    injection Htext' as <-.
    unfold ret in Hprem. injection Hprem as <-.
    apply py_format_2f_number in Htext as (total' & Hfloat' & ->).
    rewrite Hfloat in Hfloat'. injection Hfloat' as <-.
    exists total_v, total, down.
    repeat split; [exact Htotal | exact Hfloat | exact Hdown].
  - intros Hnot. rewrite Hnot in Hprem. unfold ret in Hprem.
    injection Hprem as <-. reflexivity.
Qed.


Lemma bib_premium_rule_witness :
  exists monthly down_payment,
    py_getitem return_it_element (PStr "monthly") = inr monthly
    /\ py_getitem return_it_element (PStr "downPayment") = inr down_payment
    /\ (forall bib_monthly, monthly = PFloat bib_monthly ->
        exists v total down,
          var_total_price return_it_locals = Some v
          /\ py_float v = inr total
          /\ py_float down_payment = inr down
          /\ total_price return_it_offer = PStr (Float64.format_2f total)
          /\ bib_premium return_it_offer = PStr (spec_bib_premium total bib_monthly down))
    /\ (isinstance_float monthly = false -> bib_premium return_it_offer = PStr "N/A").
Proof.
  apply (bib_premium_rule keep_it_element return_it_element no_locals
           return_it_locals return_it_offer).
  - reflexivity.
  - vm_compute. reflexivity.
Defined.

(** The two payloads of the specification's example: a float "monthly"
    gives the premium "360.00", the integer 30 gives "N/A". *)
Example bib_premium_examples :
  build_offer return_it_payload no_locals = (inr return_it_offer, return_it_locals)
  /\ bib_premium return_it_offer = PStr "360.00"
  /\ exists offer vars,
       build_offer return_it_int_payload no_locals = (inr offer, vars)
       /\ bib_premium offer = PStr "N/A".
Proof.
  split; [vm_compute; reflexivity |]. split; [reflexivity |].
  eexists. eexists. split; [vm_compute; reflexivity | reflexivity].
Qed.

(** *** Which exceptions the operators raise *)

Lemma float_of_number_exn (n : number) (e : exn) :
  float_of_number n = inl e -> not_unbound e.
Proof.
  destruct n as [z | f]; simpl; [| discriminate].
  destruct (Float64.of_int z); [discriminate |].
  intros H. injection H as <-. exact I.
Qed.

Lemma res_bind_inl {A B : Type} (r : res A) (f : A -> res B) (e : exn) :
  res_bind r f = inl e -> r = inl e \/ exists a, r = inr a /\ f a = inl e.
Proof.
  destruct r as [e' | a]; cbn [res_bind]; intros H.
  - left. congruence.
  - right. exists a. split; [reflexivity | exact H].
Qed.

Lemma arith_exn (on_int : Z -> Z -> Z)
    (on_float : spec_float -> spec_float -> spec_float) (a b : number) (e : exn) :
  arith on_int on_float a b = inl e -> not_unbound e.
Proof.
  unfold arith. intros H.
  assert (Hfloat : res_bind (float_of_number a) (fun x =>
                   res_bind (float_of_number b) (fun y =>
                   inr (PFloat (on_float x y)))) = inl e)
    by (destruct a, b; first [discriminate | exact H]).
  apply res_bind_inl in Hfloat as [Ha | (x & _ & Hfloat)].
  - exact (float_of_number_exn _ _ Ha).
  - apply res_bind_inl in Hfloat as [Hb | (y & _ & Hfloat)].
    + exact (float_of_number_exn _ _ Hb).
    + discriminate.
Qed.

Ltac raised_here :=
  let H := fresh in intros H; injection H as <-; exact I.

Lemma py_getitem_exn (c i : pyval) (e : exn) :
  py_getitem c i = inl e -> not_unbound e.
Proof.
  unfold py_getitem.
  repeat case_match; try discriminate; raised_here.
Qed.

Lemma field_exn (data : pyval) (i : Z) (key : string) (e : exn) :
  field data i key = inl e -> not_unbound e.
Proof.
  unfold field. destruct (py_getitem data (PInt i)) as [e' | item] eqn:H; cbn [res_bind].
  - intros H'. injection H' as <-. exact (py_getitem_exn _ _ _ H).
  - apply py_getitem_exn.
Qed.

Lemma py_len_exn (v : pyval) (e : exn) : py_len v = inl e -> not_unbound e.
Proof. destruct v; simpl; try discriminate; raised_here. Qed.

Lemma py_mul_exn (a b : pyval) (e : exn) : py_mul a b = inl e -> not_unbound e.
Proof.
  unfold py_mul.
  repeat case_match; try discriminate; try raised_here; apply arith_exn.
Qed.

Lemma py_add_exn (a b : pyval) (e : exn) : py_add a b = inl e -> not_unbound e.
Proof.
  unfold py_add.
  repeat case_match; try discriminate; try raised_here; apply arith_exn.
Qed.

Lemma py_sub_exn (a b : pyval) (e : exn) : py_sub a b = inl e -> not_unbound e.
Proof.
  unfold py_sub.
  repeat case_match; try discriminate; try raised_here; apply arith_exn.
Qed.

Lemma py_float_exn (v : pyval) (e : exn) : py_float v = inl e -> not_unbound e.
Proof.
  unfold py_float.
  repeat case_match; try discriminate; try raised_here; apply float_of_number_exn.
Qed.

Lemma py_format_2f_exn (v : pyval) (e : exn) :
  py_format_2f v = inl e -> not_unbound e.
Proof.
  unfold py_format_2f.
  destruct v as [| b | z | x | s | l | items]; cbn [as_number]; try raised_here;
    intros H; apply res_bind_inl in H as [H | (f & _ & H)];
    first [exact (float_of_number_exn _ _ H) | discriminate].
Qed.

(** *** The two branches and the variables *)

Lemma keep_it_block_other (response_data plan_type gift : pyval) (vars : locals) :
  py_eq_str plan_type "keep-it" = false ->
  keep_it_block response_data plan_type gift vars = (inr (NA, NA), vars).
Proof. intros H. unfold keep_it_block. rewrite H. reflexivity. Qed.

(** In the [keep-it] branch no variable is read before it is assigned,
    and both are assigned when the branch ends. *)
Lemma keep_it_block_keep (response_data plan_type gift : pyval) (vars : locals) :
  py_eq_str plan_type "keep-it" = true ->
  match keep_it_block response_data plan_type gift vars with
  | (inl e, _) => not_unbound e
  | (inr _, vars') =>
      is_Some (var_total_price vars') /\ is_Some (var_price_after_gc vars')
  end.
Proof.
  intros H. unfold keep_it_block. rewrite H.
  unfold bind, lift, assign_total_price, assign_price_after_gc, read_total_price, ret.
  destruct (field response_data 0 "monthly") as [e | m] eqn:Hm;
    [exact (field_exn _ _ _ _ Hm) |].
  destruct (field response_data 0 "downPayment") as [e | d] eqn:Hd;
    [exact (field_exn _ _ _ _ Hd) |].
  destruct (py_mul m (PInt 24)) as [e | product] eqn:Hmul;
    [exact (py_mul_exn _ _ _ Hmul) |].
  destruct (py_add product d) as [e | total] eqn:Hadd;
    [exact (py_add_exn _ _ _ Hadd) |].
  destruct (py_truthy gift); cbn [var_total_price var_price_after_gc].
  - destruct (py_sub total gift) as [e | after] eqn:Hsub;
      [exact (py_sub_exn _ _ _ Hsub) |].
    cbn. split; eexists; reflexivity.
  - cbn. split; eexists; reflexivity.
Qed.

(** With [total_price] assigned, the [return-it] branch reads nothing
    unassigned. *)
Lemma return_it_block_bound (response_data : pyval) (vars : locals) (e : exn) :
  is_Some (var_total_price vars) ->
  fst (return_it_block response_data vars) = inl e -> not_unbound e.
Proof.
  intros [total Htotal]. unfold return_it_block, bind, lift, ret.
  destruct (py_len response_data) as [e' | n] eqn:Hlen;
    [cbn; intros H; injection H as <-; exact (py_len_exn _ _ Hlen) |].
  assert (Hbody :
    forall flag : bool,
      fst ((if flag
            then
              let* bib_monthly := lift (field response_data 1 "monthly") in
              let* down_return := lift (field response_data 1 "residualValue") in
              let* bib_monthly_price := lift (field response_data 1 "monthly") in
              let* bib_down_payment := lift (field response_data 1 "downPayment") in
              let* bib_premium := bib_premium_of bib_monthly_price bib_down_payment in
              ret (bib_premium, bib_monthly, down_return)
            else ret (NA, NA, NA)) vars) = inl e -> not_unbound e).
  { intros [|]; [| discriminate].
    unfold bind, lift, ret.
    destruct (field response_data 1 "monthly") as [e' | m] eqn:Hm;
      [cbn; intros H; injection H as <-; exact (field_exn _ _ _ _ Hm) |].
    destruct (field response_data 1 "residualValue") as [e' | r] eqn:Hr;
      [cbn; intros H; injection H as <-; exact (field_exn _ _ _ _ Hr) |].
    destruct (field response_data 1 "downPayment") as [e' | d] eqn:Hd;
      [cbn; intros H; injection H as <-; exact (field_exn _ _ _ _ Hd) |].
    unfold bib_premium_of. destruct (isinstance_float m); [| discriminate].
    unfold bind, lift, ret, read_total_price. rewrite Htotal.
    destruct (py_float m) as [e' | mf] eqn:Hmf;
      [cbn; intros H; injection H as <-; exact (py_float_exn _ _ Hmf) |].
    destruct (py_mul (PFloat mf) (PInt 24)) as [e' | term] eqn:Hterm;
      [cbn; intros H; injection H as <-; exact (py_mul_exn _ _ _ Hterm) |].
    destruct (py_sub total term) as [e' | rest] eqn:Hrest;
      [cbn; intros H; injection H as <-; exact (py_sub_exn _ _ _ Hrest) |].
    destruct (py_float d) as [e' | df] eqn:Hdf;
      [cbn; intros H; injection H as <-; exact (py_float_exn _ _ Hdf) |].
    destruct (py_sub rest (PFloat df)) as [e' | premium] eqn:Hpremium;
      [cbn; intros H; injection H as <-; exact (py_sub_exn _ _ _ Hpremium) |].
    destruct (py_format_2f premium) as [e' | text] eqn:Htext;
      [cbn; intros H; injection H as <-; exact (py_format_2f_exn _ _ Htext) |].
    discriminate. }
  destruct (1 <? n).
  - destruct (field response_data 1 "type") as [e' | type1] eqn:Htype;
      [cbn; intros H; injection H as <-; exact (field_exn _ _ _ _ Htype) |].
    apply Hbody.
  - apply (Hbody false).
Qed.

(** *** The totals that only the keep-it branch assigns *)

(** C8, as written, fails in two ways. A payload without a first element
    raises [IndexError] at line 129, not an undefined-name error. And the
    two totals are not always unassigned when the first element is of
    another type: in one call, a first attempt whose keep-it element
    assigned them and whose return-it element then raised leaves them to
    the second attempt, which builds an Offer from them. *)
Lemma unbound_totals_counterexample :
  build_offer (PList []) no_locals = (inl IndexError, no_locals)
  /\ field other_plan_payload 0 "type" = inr (PStr "upgrade")
  /\ scrape_carrier_data "https://www.bestbuy.ca/en-ca/product/bell-pixel-9/17000003"
       "https://www.bestbuy.ca/en-ca/product/bell-pixel-9/17000003" "Pixel 9"
       (mkWorld stale_network 0 [])
     = (mkCarrier "Bell" "https://www.bestbuy.ca/en-ca/product/bell-pixel-9/17000003"
          [stale_offer],
        mkWorld stale_network 2
          [ PrintStarted "Pixel 9" "Bell";
            Request (pricing_url "17000003");
            PrintRetry 1 "Pixel 9" "Bell" (KeyError (PStr "residualValue"));
            Sleep 2;
            Request (pricing_url "17000003") ]).
Proof.
  split; [reflexivity |]. split; [reflexivity |]. vm_compute. reflexivity.
Qed.

(** C8, amended: in the first attempt of a call, when nothing is assigned
    yet, a payload whose first element is absent or has a type other than
    "keep-it" builds no Offer: the attempt raises, and assigns nothing.
    What it raises is the undefined-name error when the first element has
    a "type" and a "giftCard" and lines 144-148 can read the rest of the
    payload: for [total_price], at line 150, when the second element is a
    return-it plan whose "monthly" is a float, and for [price_after_gc],
    at line 157, in every other case. In any attempt whose first element
    has type "keep-it", no undefined-name error is raised. *)
Theorem unbound_totals_on_first_attempt (response_data : pyval) :
  ((forall plan_type, field response_data 0 "type" = inr plan_type ->
                      py_eq_str plan_type "keep-it" = false) ->
   exists e, build_offer response_data no_locals = (inl e, no_locals))
  /\ (forall e0 rest plan_type gift,
        response_data = PList (e0 :: rest) ->
        py_getitem e0 (PStr "type") = inr plan_type ->
        py_eq_str plan_type "keep-it" = false ->
        py_getitem e0 (PStr "giftCard") = inr gift ->
        readable_rest rest ->
        (first_unbound rest = "price_after_gc" \/ first_unbound rest = "total_price")
        /\ build_offer response_data no_locals
           = (inl (UnboundLocalError (first_unbound rest)), no_locals))
  /\ (forall plan_type vars var,
        field response_data 0 "type" = inr plan_type ->
        py_eq_str plan_type "keep-it" = true ->
        fst (build_offer response_data vars) <> inl (UnboundLocalError var)).
Proof.
  split; [| split].
  - intros Hother. unfold build_offer, bind at 1, lift at 1.
    destruct (field response_data 0 "type") as [e | plan_type];
      [exists e; reflexivity |].
    unfold bind at 1, lift at 1.
    destruct (field response_data 0 "giftCard") as [e | gift];
      [exists e; reflexivity |].
    unfold bind at 1. rewrite keep_it_block_other by (apply Hother; reflexivity).
    unfold bind at 1.
    pose proof (return_it_block_vars response_data no_locals) as Hvars.
    destruct (return_it_block response_data no_locals) as [[e | [[p m] r]] vars1];
      cbn [snd] in Hvars; subst vars1; [exists e; reflexivity |].
    eexists. reflexivity.
  - intros e0 rest plan_type gift -> Htype Hother Hgift Hrest.
    unfold build_offer, bind at 1, lift at 1. rewrite field_first, Htype.
    unfold bind at 1, lift at 1. rewrite field_first, Hgift.
    unfold bind at 1. rewrite keep_it_block_other by exact Hother.
    unfold bind at 1, return_it_block, bind at 1, lift at 1.
    cbn [py_len]. destruct rest as [| e1 rest].
    + split; [left; reflexivity | reflexivity].
    + destruct Hrest as (type1 & Htype1 & Hkeys).
      assert (Hlen : (1 <? Z.of_nat (List.length (e0 :: e1 :: rest))) = true)
        by (apply Z.ltb_lt; cbn [List.length]; lia).
      rewrite Hlen. unfold bind at 1, bind at 1, lift at 1.
      rewrite field_second, Htype1. unfold ret at 1.
      unfold first_unbound. rewrite Htype1.
      destruct (py_eq_str type1 "return-it") eqn:Hreturn.
      * destruct (Hkeys eq_refl) as (m & r & d & Hm & Hr & Hd).
        rewrite !field_second, Hm, Hr, Hd.
        unfold bib_premium_of, bind, lift. cbv beta iota.
        destruct (isinstance_float m).
        -- split; [right; reflexivity | reflexivity].
        -- split; [left; reflexivity | reflexivity].
      * assert (Hname : match py_getitem e1 (PStr "monthly") with
                        | inr bib_monthly =>
                            if false && isinstance_float bib_monthly
                            then "total_price" else "price_after_gc"
                        | inl _ => "price_after_gc"
                        end = "price_after_gc")
          by (destruct (py_getitem e1 (PStr "monthly")); reflexivity).
        rewrite Hname. split; [left; reflexivity | reflexivity].
  - intros plan_type vars var Htype Hkeep.
    unfold build_offer, bind at 1, lift at 1. rewrite Htype.
    unfold bind at 1, lift at 1.
    destruct (field response_data 0 "giftCard") as [e | gift] eqn:Hgift.
    { cbn [fst]. intros H. injection H as ->. exact (field_exn _ _ _ _ Hgift). }
    unfold bind at 1.
    pose proof (keep_it_block_keep response_data plan_type gift vars Hkeep) as Hblock.
    destruct (keep_it_block response_data plan_type gift vars)
      as [[e | [monthly down]] vars1].
    { cbn [fst]. intros H. injection H as ->. exact Hblock. }
    destruct Hblock as [[total Htotal] [after Hafter]].
    unfold bind at 1.
    pose proof (return_it_block_vars response_data vars1) as Hvars.
    pose proof (fun e => return_it_block_bound response_data vars1 e
                           (ex_intro _ total Htotal)) as Hbound.
    destruct (return_it_block response_data vars1) as [[e | [[p m] r]] vars2];
      cbn [snd] in Hvars; subst vars2.
    { cbn [fst]. intros H. injection H as ->. exact (Hbound _ eq_refl). }
    unfold bind at 1, read_price_after_gc. rewrite Hafter.
    unfold bind at 1, read_total_price. rewrite Htotal.
    unfold bind at 1, lift at 1.
    destruct (py_format_2f total) as [e | text] eqn:Htext.
    { cbn [fst]. intros H. injection H as ->. exact (py_format_2f_exn _ _ Htext). }
    discriminate.
Qed.

Lemma unbound_totals_on_first_attempt_witness :
  (exists e, build_offer (PList []) no_locals = (inl e, no_locals))
  /\ build_offer other_plan_payload no_locals
     = (inl (UnboundLocalError "price_after_gc"), no_locals)
  /\ build_offer other_plan_return_it_payload no_locals
     = (inl (UnboundLocalError "total_price"), no_locals)
  /\ fst (build_offer keep_it_payload no_locals) <> inl (UnboundLocalError "total_price").
Proof.
  split; [| split; [| split]].
  - apply (proj1 (unbound_totals_on_first_attempt (PList []))).
    intros plan_type H. discriminate H.
  - refine (proj2 (proj1 (proj2 (unbound_totals_on_first_attempt other_plan_payload))
                     (PDict [("type", PStr "upgrade"); ("giftCard", PInt 50)]) []
                     (PStr "upgrade") (PInt 50) _ _ _ _ _)).
    + reflexivity.
    + reflexivity.
    + reflexivity.
    + reflexivity.
    + exact I.
  - refine (proj2 (proj1 (proj2 (unbound_totals_on_first_attempt
                                   other_plan_return_it_payload))
                     (PDict [("type", PStr "upgrade"); ("giftCard", PInt 50)])
                     [return_it_element]
                     (PStr "upgrade") (PInt 50) _ _ _ _ _)).
    + reflexivity.
    + reflexivity.
    + reflexivity.
    + reflexivity.
    + exists (PStr "return-it"). split; [reflexivity |].
      intros _. exists (PFloat float_30), (PInt 200), (PInt 0).
      split; [reflexivity | split; reflexivity].
  - apply (proj2 (proj2 (unbound_totals_on_first_attempt keep_it_payload))
             (PStr "keep-it") no_locals "total_price").
    + reflexivity.
    + reflexivity.
Defined.

(** ** Source Loader and Report Writer together *)

(** A carrier as the fetcher builds them: at most one offer. *)
Lemma scrape_urls_offers (phone_name : string) (urls : list element)
    (acc cs : list Carrier) (w w' : world) :
  Forall (fun c => (List.length (offers c) <= 1)%nat) acc ->
  scrape_urls phone_name urls acc w = (inr cs, w') ->
  Forall (fun c => (List.length (offers c) <= 1)%nat) cs.
Proof.
  revert acc w. induction urls as [| url urls IH]; intros acc w Hacc; simpl.
  - intros H. injection H as <- _. exact Hacc.
  - destruct (text url) as [t |]; [| discriminate].
    pose proof (scrape_carrier_data_offers t t phone_name w) as Hone.
    destruct (scrape_carrier_data t t phone_name w) as [carrier w1].
    apply IH. apply Forall_app. split; [exact Hacc |].
    constructor; [exact Hone | constructor].
Qed.

Lemma scrape_phones_offers (phone_nodes : list element) (acc phones : list Phone)
    (w w' : world) :
  Forall (fun p => Forall (fun c => (List.length (offers c) <= 1)%nat) (carriers p)) acc ->
  scrape_phones phone_nodes acc w = (inr phones, w') ->
  Forall (fun p => Forall (fun c => (List.length (offers c) <= 1)%nat) (carriers p)) phones.
Proof.
  revert acc w. induction phone_nodes as [| node nodes IH]; intros acc w Hacc; simpl.
  - intros H. injection H as <- _. exact Hacc.
  - destruct (scrape_urls (replace_char "_" " " (tag node)) (children node) [] w)
      as [[e | cs] w1] eqn:Hurls; [discriminate |].
    apply IH. apply Forall_app. split; [exact Hacc |].
    constructor; [| constructor]. simpl.
    exact (scrape_urls_offers _ _ _ _ _ _ (List.Forall_nil _) Hurls).
Qed.

(** Each name of a list of names gives one row, unless its record has no
    offer. *)
Lemma rows_and_names (phone : Phone) (m : gmap string Carrier) (names : list string) :
  (forall n c, m !! n = Some c -> (List.length (offers c) <= 1)%nat) ->
  (List.length (List.concat (List.map (carrier_rows phone m) names))
   + List.length (List.filter (without_offer m) names)
   = List.length names)%nat.
Proof.
  intros Hone. induction names as [| n names IH]; [reflexivity |].
  cbn [List.map List.concat List.filter]. rewrite List.length_app.
  unfold carrier_rows at 1, without_offer at 1.
  destruct (m !! n) as [c |] eqn:Hn.
  - specialize (Hone n c Hn). rewrite List.length_map.
    destruct (offers c) as [| o [| o' os]]; cbn [List.length] in *; lia.
  - cbn [List.length]. lia.
Qed.

Lemma rows_all_names (phone : Phone) (m : gmap string Carrier) (names : list string) :
  (forall n c, m !! n = Some c -> offers c <> []) ->
  List.filter (without_offer m) names = [].
Proof.
  intros Hsome. induction names as [| n names IH]; [reflexivity |].
  cbn [List.filter]. unfold without_offer at 1.
  destruct (m !! n) as [c |] eqn:Hn; [| exact IH].
  specialize (Hsome n c Hn). destruct (offers c); [congruence | exact IH].
Qed.

(** C1, as written, fails: a phone whose one URL, for Fido, is answered
    with status 404 gets six rows, the placeholders of the six other
    carriers; the Fido record, with its empty list of offers, gets none. *)
Lemma six_rows_after_404 :
  fst (scrape one_fido_document (mkWorld network_404 0 []))
  = inr [ mkPhone "Pixel 9"
            [ mkCarrier "Fido"
                "https://www.bestbuy.ca/en-ca/product/fido-pixel-9/17000000" [] ] ]
  /\ List.length
       (phone_rows
          (mkPhone "Pixel 9"
             [ mkCarrier "Fido"
                 "https://www.bestbuy.ca/en-ca/product/fido-pixel-9/17000000" [] ]))
     = 6%nat
  /\ List.length
       (phone_rows
          (mkPhone "Pixel 9"
             [ mkCarrier "Fido"
                 "https://www.bestbuy.ca/en-ca/product/fido-pixel-9/17000000" [] ]))
     <> 7%nat.
Proof.
  split; [vm_compute; reflexivity |].
  split; [vm_compute; reflexivity | vm_compute; discriminate].
Qed.

(** C1, amended: for every document and every phone scraped from it,
    whatever the number of its URLs, each of the seven carriers of the
    canonical order gives exactly one row, except a carrier whose record
    has an empty list of offers (a fetch that ended on a status other than
    200), which gives none. So a phone has at most seven rows: seven minus
    the number of such carriers, and exactly seven when every record of
    the phone has an offer. *)
Theorem rows_per_phone (root : element) (w w' : world) (phones : list Phone)
    (phone : Phone) :
  scrape root w = (inr phones, w') ->
  In phone phones ->
  (List.length (phone_rows phone)
   + List.length (List.filter (without_offer (carrier_map (carriers phone))) carrier_order)
   = 7)%nat
  /\ (List.length (phone_rows phone) <= 7)%nat
  /\ (Forall (fun c => offers c <> []) (carriers phone) ->
      List.length (phone_rows phone) = 7%nat).
Proof.
  intros Hscrape Hin.
  assert (Hone : forall n c, carrier_map (carriers phone) !! n = Some c ->
                   (List.length (offers c) <= 1)%nat).
  { intros n c Hn. apply carrier_map_origin in Hn as [Hc _].
    pose proof (scrape_phones_offers _ _ _ _ _ (List.Forall_nil _) Hscrape) as Hall.
    rewrite List.Forall_forall in Hall. specialize (Hall phone Hin).
    rewrite List.Forall_forall in Hall. exact (Hall c Hc). }
  pose proof (rows_and_names phone (carrier_map (carriers phone)) carrier_order Hone)
    as Hsum.
  change (List.length carrier_order) with 7%nat in Hsum.
  fold (phone_rows phone) in Hsum.
  split; [exact Hsum |]. split; [lia |].
  intros Hsome.
  rewrite (rows_all_names phone (carrier_map (carriers phone)) carrier_order) in Hsum.
  - cbn [List.length] in Hsum. lia.
  - intros n c Hn. apply carrier_map_origin in Hn as [Hc _].
    rewrite List.Forall_forall in Hsome. exact (Hsome c Hc).
Qed.

Lemma rows_per_phone_witness :
  (List.length
     (phone_rows
        (mkPhone "Pixel 9"
           [ mkCarrier "Fido"
               "https://www.bestbuy.ca/en-ca/product/fido-pixel-9/17000000" [] ]))
   + List.length
       (List.filter
          (without_offer
             (carrier_map
                (carriers
                   (mkPhone "Pixel 9"
                      [ mkCarrier "Fido"
                          "https://www.bestbuy.ca/en-ca/product/fido-pixel-9/17000000"
                          [] ]))))
          carrier_order)
   = 7)%nat.
Proof.
  apply (rows_per_phone one_fido_document (mkWorld network_404 0 [])
           (snd (scrape one_fido_document (mkWorld network_404 0 [])))
           [ mkPhone "Pixel 9"
               [ mkCarrier "Fido"
                   "https://www.bestbuy.ca/en-ca/product/fido-pixel-9/17000000" [] ] ]).
  - vm_compute. reflexivity.
  - left. reflexivity.
Defined.

(** * Further properties of the code *)

(** ** Carrier Identifier: the whole table *)

Lemma ascii_lower_idempotent (c : ascii) : ascii_lower (ascii_lower c) = ascii_lower c.
Proof. destruct c as [[] [] [] [] [] [] [] []]; reflexivity. Qed.

Lemma lower_idempotent (s : string) : lower (lower s) = lower s.
Proof.
  induction s as [| c s IH]; [reflexivity |].
  cbn [lower]. rewrite ascii_lower_idempotent, IH. reflexivity.
Qed.

Lemma first_carrier_lower (table : list (string * string)) (a b : string) :
  lower a = lower b -> first_carrier table a = first_carrier table b.
Proof.
  intros H. induction table as [| [key value] table IH]; [reflexivity |].
  cbn [first_carrier]. rewrite H, IH. reflexivity.
Qed.

(** X1: The label depends on the URL only up to the case of its letters: two
    URLs that differ by case get the same label, and so do a URL and its
    lower-case form. *)
Theorem extract_carrier_name_ignores_case (a b : string) :
  (lower a = lower b -> extract_carrier_name a = extract_carrier_name b)
  /\ extract_carrier_name (lower a) = extract_carrier_name a.
Proof.
  split.
  - apply first_carrier_lower.
  - apply first_carrier_lower. apply lower_idempotent.
Qed.

Lemma extract_carrier_name_ignores_case_witness :
  extract_carrier_name "https://WWW.BestBuy.ca/Product/ROGERS-Pixel/1"
  = extract_carrier_name "https://www.bestbuy.ca/product/rogers-pixel/1".
Proof.
  apply (proj1 (extract_carrier_name_ignores_case
                  "https://WWW.BestBuy.ca/Product/ROGERS-Pixel/1"
                  "https://www.bestbuy.ca/product/rogers-pixel/1")).
  reflexivity.
Defined.

(** What the loop over a table returns: the value of the first entry whose
    key occurs, or "Unknown" when no key occurs. *)
Lemma first_carrier_spec (table : list (string * string)) (url : string) :
  (exists pre key value post,
      table = (pre ++ (key, value) :: post)%list
      /\ contains key (lower url) = true
      /\ (forall k v, In (k, v) pre -> contains k (lower url) = false)
      /\ first_carrier table url = value)
  \/ ((forall k v, In (k, v) table -> contains k (lower url) = false)
      /\ first_carrier table url = "Unknown").
Proof.
  induction table as [| [key value] table IH].
  - right. split; [intros k v [] | reflexivity].
  - cbn [first_carrier]. destruct (contains key (lower url)) eqn:Hkey.
    + left. exists [], key, value, table.
      split; [reflexivity | split; [exact Hkey | split; [intros k v [] | reflexivity]]].
    + destruct IH as [(pre & k' & v' & post & -> & Hk' & Hpre & Hres) | [Hnone Hres]].
      * left. exists ((key, value) :: pre), k', v', post.
        split; [reflexivity | split; [exact Hk' | split; [| exact Hres]]].
        intros k v [Heq | Hin]; [injection Heq as <- <-; exact Hkey | exact (Hpre k v Hin)].
      * right. split; [| exact Hres].
        intros k v [Heq | Hin]; [injection Heq as <- <-; exact Hkey | exact (Hnone k v Hin)].
Qed.

(** X2: The label is "Unknown" or one of the seven names that the report
    writer places, and "Unknown", which the writer does not place, is
    returned exactly when no key of the table occurs in the URL. *)
Theorem extract_carrier_name_range (url : string) :
  (extract_carrier_name url = "Unknown" \/ In (extract_carrier_name url) carrier_order)
  /\ ~ In "Unknown" carrier_order
  /\ (extract_carrier_name url = "Unknown"
      <-> forall key value, In (key, value) carriers_table -> ~ mentions key url).
Proof.
  assert (Hlabels : forall pre key value post,
            carriers_table = (pre ++ (key, value) :: post)%list ->
            In value carrier_order /\ value <> "Unknown").
  { intros pre key value post H.
    assert (Hin : In (key, value) carriers_table)
      by (rewrite H; apply List.in_or_app; right; left; reflexivity).
    cbn in Hin.
    repeat (destruct Hin as [Hin | Hin];
            [injection Hin as <- <-; split; [cbn; tauto | discriminate] |]).
    destruct Hin. }
  unfold extract_carrier_name, mentions.
  destruct (first_carrier_spec carriers_table url)
    as [(pre & key & value & post & Htable & Hkey & Hpre & ->) | [Hnone ->]].
  - destruct (Hlabels _ _ _ _ Htable) as [Hin Hne].
    split; [right; exact Hin |].
    split; [cbn; intuition discriminate |].
    split; [intros H; contradiction |].
    intros Hnone. exfalso. apply (Hnone key value).
    + rewrite Htable. apply List.in_or_app. right. left. reflexivity.
    + apply contains_iff. exact Hkey.
  - split; [left; reflexivity |].
    split; [cbn; intuition discriminate |].
    split; [| reflexivity].
    intros _ key value Hin. apply contains_false_iff. exact (Hnone key value Hin).
Qed.

Lemma first_carrier_value (table : list (string * string)) (url : string) :
  first_carrier table url = "Unknown"
  \/ In (first_carrier table url) (List.map snd table).
Proof.
  induction table as [| [key value] table IH]; [left; reflexivity |].
  cbn [first_carrier List.map snd].
  destruct (contains key (lower url)); [right; left; reflexivity |].
  destruct IH as [IH | IH]; [left; exact IH | right; right; exact IH].
Qed.

Lemma first_carrier_first_match (table : list (string * string)) (url : string)
    (i : nat) (key value : string) :
  List.NoDup (List.map snd table) ->
  ~ In "Unknown" (List.map snd table) ->
  List.nth_error table i = Some (key, value) ->
  (first_carrier table url = value
   <-> contains key (lower url) = true
       /\ forall k v, In (k, v) (List.firstn i table) -> contains k (lower url) = false).
Proof.
  revert i. induction table as [| [k0 v0] table IH]; intros i Hnodup Hunknown Hi.
  - destruct i; discriminate Hi.
  - cbn [List.map snd] in Hnodup, Hunknown.
    apply List.NoDup_cons_iff in Hnodup as [Hfresh Hnodup].
    assert (Hunknown' : ~ In "Unknown" (List.map snd table))
      by (intros H; apply Hunknown; right; exact H).
    assert (Hv0 : v0 <> "Unknown") by (intros ->; apply Hunknown; left; reflexivity).
    cbn [first_carrier]. destruct i as [| i].
    + injection Hi as <- <-. cbn [List.firstn].
      destruct (contains k0 (lower url)) eqn:Hk0.
      * split; [intros _; split; [reflexivity | intros k v []] | reflexivity].
      * split; [| intros [H _]; discriminate H].
        intros H. destruct (first_carrier_value table url) as [Hu | Hin].
        -- congruence.
        -- rewrite H in Hin. contradiction.
    + cbn [List.nth_error] in Hi. cbn [List.firstn].
      assert (Hvalue : In value (List.map snd table)).
      { apply List.nth_error_In in Hi.
        change value with (snd (key, value)). apply List.in_map. exact Hi. }
      destruct (contains k0 (lower url)) eqn:Hk0.
      * split.
        -- intros ->. contradiction.
        -- intros [_ Hpre]. specialize (Hpre k0 v0 (or_introl eq_refl)). congruence.
      * rewrite (IH i Hnodup Hunknown' Hi). split; intros [Hkey Hpre]; (split; [exact Hkey |]).
        -- intros k v [Heq | Hin]; [injection Heq as <- <-; exact Hk0 | exact (Hpre k v Hin)].
        -- intros k v Hin. apply (Hpre k v). right. exact Hin.
Qed.

(** X3: First match wins: the label is the value of an entry of the table
    exactly when its key occurs in the URL and no key of an earlier entry
    does. *)
Theorem extract_carrier_name_first_match (url : string) (i : nat) (key value : string) :
  List.nth_error carriers_table i = Some (key, value) ->
  (extract_carrier_name url = value
   <-> mentions key url
       /\ forall k v, In (k, v) (List.firstn i carriers_table) -> ~ mentions k url).
Proof.
  intros Hi. unfold extract_carrier_name, mentions.
  rewrite (first_carrier_first_match carriers_table url i key value), contains_iff;
    [| cbn; repeat (apply List.NoDup_cons; [cbn; intuition discriminate |]);
       apply List.NoDup_nil
     | cbn; intuition discriminate
     | exact Hi].
  split; intros [Hkey Hpre]; (split; [exact Hkey |]); intros k v Hin.
  - apply contains_false_iff. exact (Hpre k v Hin).
  - apply contains_false_iff. exact (Hpre k v Hin).
Qed.

Lemma extract_carrier_name_first_match_witness :
  extract_carrier_name "https://www.bestbuy.ca/en-ca/product/bell-pixel-9/17000003" = "Bell"
  <-> mentions "bell" "https://www.bestbuy.ca/en-ca/product/bell-pixel-9/17000003"
      /\ forall k v, In (k, v) (List.firstn 5 carriers_table) ->
           ~ mentions k "https://www.bestbuy.ca/en-ca/product/bell-pixel-9/17000003".
Proof.
  apply (extract_carrier_name_first_match
           "https://www.bestbuy.ca/en-ca/product/bell-pixel-9/17000003" 5 "bell" "Bell").
  reflexivity.
Defined.

(** ** The SKU of a product URL *)

Lemma append_nil_r (s : string) : s ++ EmptyString = s.
Proof. induction s as [| c s IH]; [reflexivity |]. rewrite append_cons, IH. reflexivity. Qed.

Lemma append_assoc (a b c : string) : (a ++ b) ++ c = a ++ (b ++ c).
Proof.
  induction a as [| x a IH]; [reflexivity |]. rewrite !append_cons, IH. reflexivity.
Qed.

Lemma has_char_append (c : ascii) (a b : string) :
  has_char c (a ++ b) = has_char c a || has_char c b.
Proof.
  induction a as [| x a IH]; [reflexivity |].
  rewrite append_cons. cbn [has_char]. rewrite IH. apply orb_assoc.
Qed.

Lemma split_from_nonempty (sep : ascii) (cur s : string) : split_from sep cur s <> [].
Proof.
  revert cur. induction s as [| c s IH]; intros cur; cbn [split_from]; [discriminate |].
  destruct (Ascii.eqb c sep); [discriminate | apply IH].
Qed.

(** A string without the separator is one piece. *)
Lemma split_from_whole (sep : ascii) (cur s : string) :
  has_char sep s = false -> split_from sep cur s = [cur ++ s].
Proof.
  revert cur. induction s as [| c s IH]; intros cur H; cbn [split_from].
  - rewrite append_nil_r. reflexivity.
  - cbn [has_char] in H. apply orb_false_iff in H as [Hc Hs].
    rewrite Ascii.eqb_sym, Hc, (IH _ Hs), append_assoc. reflexivity.
Qed.

(** The last piece is what follows the last separator. *)
Lemma split_from_last (sep : ascii) (cur pre t d : string) :
  has_char sep t = false ->
  List.last (split_from sep cur (pre ++ String sep t)) d = t.
Proof.
  intros Ht. revert cur. induction pre as [| c pre IH]; intros cur.
  - rewrite append_nil. cbn [split_from]. rewrite Ascii.eqb_refl.
    rewrite (split_from_whole _ _ _ Ht). reflexivity.
  - rewrite append_cons. cbn [split_from]. destruct (Ascii.eqb c sep).
    + specialize (IH EmptyString).
      destruct (split_from sep EmptyString (pre ++ String sep t)) as [| x l] eqn:Hl;
        [exfalso; exact (split_from_nonempty _ _ _ Hl) | exact IH].
    + apply IH.
Qed.

(** The first piece is what precedes the first separator. *)
Lemma split_from_first (sep : ascii) (cur a b : string) :
  has_char sep a = false ->
  List.hd EmptyString (split_from sep cur (a ++ String sep b)) = cur ++ a.
Proof.
  revert cur. induction a as [| c a IH]; intros cur Ha.
  - rewrite append_nil, append_nil_r. cbn [split_from]. rewrite Ascii.eqb_refl. reflexivity.
  - cbn [has_char] in Ha. apply orb_false_iff in Ha as [Hc Ha].
    rewrite append_cons. cbn [split_from]. rewrite Ascii.eqb_sym, Hc, (IH _ Ha), append_assoc.
    reflexivity.
Qed.

(** No piece holds the separator, and no piece holds a character that
    the string does not hold. *)
Lemma split_from_pieces (sep c : ascii) (cur s : string) :
  has_char c cur = false ->
  (c = sep \/ has_char c s = false) ->
  List.Forall (fun piece => has_char c piece = false) (split_from sep cur s).
Proof.
  revert cur. induction s as [| x s IH]; intros cur Hcur Hs; cbn [split_from].
  - constructor; [exact Hcur | constructor].
  - destruct (Ascii.eqb_spec x sep) as [-> | Hx].
    + constructor; [exact Hcur |]. apply IH; [reflexivity |].
      destruct Hs as [Hs | Hs]; [left; exact Hs |].
      cbn [has_char] in Hs. apply orb_false_iff in Hs as [_ Hs]. right. exact Hs.
    + assert (Hcx : Ascii.eqb c x = false).
      { destruct Hs as [-> | Hs].
        - apply Ascii.eqb_neq. congruence.
        - cbn [has_char] in Hs. apply orb_false_iff in Hs as [Hs _]. exact Hs. }
      apply IH.
      * rewrite has_char_append, Hcur. cbn [has_char]. rewrite Hcx. reflexivity.
      * destruct Hs as [Hs | Hs]; [left; exact Hs |].
        cbn [has_char] in Hs. apply orb_false_iff in Hs as [_ Hs]. right. exact Hs.
Qed.

Lemma last_in_nonempty {A : Type} (l : list A) (d : A) : l <> [] -> In (List.last l d) l.
Proof.
  induction l as [| x l IH]; [congruence |]. intros _.
  destruct l as [| y l]; [left; reflexivity |].
  right. apply IH. discriminate.
Qed.

(** X4: The SKU that goes into the pricing URL holds no slash and no question
    mark, whatever the product URL is. *)
Theorem sku_of_has_no_separator (url : string) :
  has_char "/" (sku_of url) = false /\ has_char "?" (sku_of url) = false.
Proof.
  unfold sku_of, split.
  set (tail := List.last (split_from "/" EmptyString url) EmptyString).
  assert (Htail : has_char "/" tail = false).
  { pose proof (split_from_pieces "/" "/" EmptyString url eq_refl (or_introl eq_refl)) as H.
    rewrite List.Forall_forall in H. apply H.
    apply last_in_nonempty. apply split_from_nonempty. }
  assert (Hhd : In (List.hd EmptyString (split_from "?" EmptyString tail))
                  (split_from "?" EmptyString tail)).
  { destruct (split_from "?" EmptyString tail) as [| x l] eqn:Hl;
      [exfalso; exact (split_from_nonempty _ _ _ Hl) | left; reflexivity]. }
  split.
  - pose proof (split_from_pieces "?" "/" EmptyString tail eq_refl (or_intror Htail)) as H.
    rewrite List.Forall_forall in H. exact (H _ Hhd).
  - pose proof (split_from_pieces "?" "?" EmptyString tail eq_refl (or_introl eq_refl)) as H.
    rewrite List.Forall_forall in H. exact (H _ Hhd).
Qed.

(** X5: The SKU is what stands between the last slash of the URL and the
    first question mark after it: for a URL that ends in [/sku] or in
    [/sku?query], with no slash in [sku] and [query], it is [sku], whatever
    precedes that slash. (So a slash inside the query string moves the SKU
    into the query, and a URL that ends in a slash has the empty SKU.) *)
Theorem sku_of_last_segment (pre sku query : string) :
  has_char "/" sku = false ->
  has_char "?" sku = false ->
  has_char "/" query = false ->
  sku_of (pre ++ "/" ++ sku) = sku
  /\ sku_of (pre ++ "/" ++ sku ++ "?" ++ query) = sku.
Proof.
  intros Hslash Hmark Hquery. unfold sku_of, split. split.
  - change ("/" ++ sku) with (String "/" sku).
    rewrite (split_from_last _ _ _ _ _ Hslash), (split_from_whole _ _ _ Hmark). reflexivity.
  - change ("/" ++ sku ++ "?" ++ query) with (String "/" (sku ++ String "?" query)).
    rewrite split_from_last.
    + rewrite (split_from_first _ _ _ _ Hmark). reflexivity.
    + rewrite has_char_append, Hslash. cbn [has_char orb]. exact Hquery.
Qed.

Lemma sku_of_last_segment_witness :
  sku_of ("https://www.bestbuy.ca/en-ca/product/koodo-pixel-9" ++ "/" ++ "17000002")
  = "17000002"
  /\ sku_of ("https://www.bestbuy.ca/en-ca/product/koodo-pixel-9" ++ "/" ++ "17000002"
             ++ "?" ++ "icmp=home")
     = "17000002".
Proof.
  apply (sku_of_last_segment "https://www.bestbuy.ca/en-ca/product/koodo-pixel-9"
           "17000002" "icmp=home"); reflexivity.
Defined.

(** ** Pricing Fetcher: what every call does *)

Section FetchTrace.

Variables updatedUrl carrier_name link phone_name : string.

(** A rule for the loop that follows the attempts one by one. *)
Lemma while_loop_invariant (Q : Z -> world -> Carrier * world -> Prop) :
  (forall a vars w carrier vars' w',
      a <= max_retries ->
      try_block updatedUrl carrier_name link phone_name vars w = (inr carrier, vars', w') ->
      Q a w (carrier, w')) ->
  (forall a w, max_retries < a -> Q a w (after_loop carrier_name link phone_name w)) ->
  (forall a vars w e vars' w' r,
      a <= max_retries ->
      try_block updatedUrl carrier_name link phone_name vars w = (inl e, vars', w') ->
      Q (a + 1) (except_block carrier_name phone_name a e w') r ->
      Q a w r) ->
  forall a vars w,
    Q a w (while_loop updatedUrl carrier_name link phone_name a vars w).
Proof.
  intros Hreturn Hafter Hstep a.
  remember (Z.to_nat (max_retries + 1 - a)) as fuel eqn:Hfuel.
  revert a Hfuel.
  induction fuel as [| fuel IH]; intros a Hfuel vars w;
    rewrite while_loop_step; destruct (decide (a <= max_retries)) as [Hle | Hgt];
    try (apply Hafter; lia); try lia.
  destruct (try_block updatedUrl carrier_name link phone_name vars w)
    as [[[e | carrier] vars'] w'] eqn:Htry.
  - apply (Hstep a vars w e vars' w' _ Hle Htry). apply IH. lia.
  - exact (Hreturn a vars w carrier vars' w' Hle Htry).
Qed.

(** From attempt [a] on, the loop makes at most [4 - a] requests, all to
    the pricing URL, and waits two seconds between two requests. *)
Lemma while_loop_trace (a : Z) (vars : locals) (w : world) :
  let result := while_loop updatedUrl carrier_name link phone_name a vars w in
  net (snd result) = net w
  /\ exists trace,
       log (snd result) = (log w ++ trace)%list
       /\ requests (snd result)
          = (requests w + List.length (List.filter is_request trace))%nat
       /\ List.Forall (fetch_event_ok updatedUrl) trace
       /\ (a <= max_retries ->
           (List.length (List.filter is_sleep trace) + 1
            = List.length (List.filter is_request trace))%nat
           /\ (List.length (List.filter is_request trace) <= Z.to_nat (4 - a))%nat)
       /\ (max_retries < a ->
           List.filter is_request trace = [] /\ List.filter is_sleep trace = []).
Proof.
  apply (while_loop_invariant
           (fun a w r =>
              net (snd r) = net w
              /\ exists trace,
                   log (snd r) = (log w ++ trace)%list
                   /\ requests (snd r)
                      = (requests w + List.length (List.filter is_request trace))%nat
                   /\ List.Forall (fetch_event_ok updatedUrl) trace
                   /\ (a <= max_retries ->
                       (List.length (List.filter is_sleep trace) + 1
                        = List.length (List.filter is_request trace))%nat
                       /\ (List.length (List.filter is_request trace)
                           <= Z.to_nat (4 - a))%nat)
                   /\ (max_retries < a ->
                       List.filter is_request trace = []
                       /\ List.filter is_sleep trace = []))).
  - intros a0 vars0 w0 carrier vars' w' Hle Htry.
    pose proof (try_block_outcome updatedUrl carrier_name link phone_name vars0 w0) as Hout.
    rewrite Htry in Hout. cbn in Hout. unfold max_retries in *.
    destruct Hout as [[_ ->] | [offer [_ ->]]]; cbn [snd emit net requests log].
    + split; [reflexivity |].
      exists [Request updatedUrl; PrintFailedToLoad phone_name carrier_name].
      rewrite <- app_assoc. cbn.
      repeat split; try lia; repeat constructor.
    + split; [reflexivity |].
      exists [Request updatedUrl]. cbn.
      repeat split; try lia; repeat constructor.
  - intros a0 w0 Hgt. cbn. split; [reflexivity |].
    exists [PrintGaveUp max_retries phone_name carrier_name]. cbn.
    unfold max_retries in *. repeat split; try lia; repeat constructor.
  - intros a0 vars0 w0 e vars' w' r Hle Htry (Hnet & trace & Hlog & Hreq & Hok & Hin & Hout).
    pose proof (try_block_outcome updatedUrl carrier_name link phone_name vars0 w0) as Hw.
    rewrite Htry in Hw. cbn in Hw. subst w'.
    unfold except_block, max_retries in *.
    destruct (Z.ltb_spec a0 3) as [Hlt | Hge]; cbn [emit net requests log] in *.
    + split; [exact Hnet |].
      exists (Request updatedUrl
                :: PrintRetry a0 phone_name carrier_name e :: Sleep 2 :: trace).
      rewrite Hlog, <- !app_assoc. cbn.
      destruct (Hin ltac:(lia)) as [Hs Hr].
      repeat split; try lia; repeat constructor; exact Hok.
    + split; [exact Hnet |].
      exists (Request updatedUrl :: trace).
      rewrite Hlog, <- !app_assoc. cbn.
      destruct (Hout ltac:(lia)) as [Hr Hs]. rewrite Hr, Hs. rewrite Hr in Hreq.
      cbn in *.
      repeat split; try lia; repeat constructor; exact Hok.
Qed.

End FetchTrace.

Lemma scrape_carrier_data_events (url page phone_name : string) (w : world) :
  let result := scrape_carrier_data url page phone_name w in
  name (fst result) = extract_carrier_name url
  /\ link (fst result) = page
  /\ net (snd result) = net w
  /\ exists trace,
       log (snd result)
       = (log w ++ PrintStarted phone_name (extract_carrier_name url) :: trace)%list
       /\ requests (snd result)
          = (requests w + List.length (List.filter is_request trace))%nat
       /\ (1 <= List.length (List.filter is_request trace) <= 3)%nat
       /\ (List.length (List.filter is_sleep trace) + 1
           = List.length (List.filter is_request trace))%nat
       /\ List.Forall (fetch_event_ok (pricing_url (sku_of url))) trace.
Proof.
  intros result.
  assert (Hcarrier : name (fst result) = extract_carrier_name url /\ link (fst result) = page).
  { destruct (scrape_carrier_data_paths url page phone_name w)
      as [[_ [offer Hc]] | [[_ Hc] | [_ Hc]]];
      fold result in Hc; rewrite Hc; split; reflexivity. }
  destruct Hcarrier as [Hname Hlink].
  split; [exact Hname | split; [exact Hlink |]].
  unfold result, scrape_carrier_data.
  destruct (while_loop_trace (pricing_url (sku_of url)) (extract_carrier_name url) page
              phone_name 1 no_locals
              (emit (PrintStarted phone_name (extract_carrier_name url)) w))
    as (Hnet & trace & Hlog & Hreq & Hok & Hin & _).
  split; [exact Hnet |].
  exists trace. cbn [emit log requests] in Hlog, Hreq.
  rewrite <- app_assoc in Hlog. cbn in Hlog.
  destruct (Hin ltac:(unfold max_retries; lia)) as [Hsleep Hbound].
  change (Z.to_nat (4 - 1)) with 3%nat in Hbound.
  split; [exact Hlog | split; [exact Hreq | split; [lia | split; [exact Hsleep | exact Hok]]]].
Qed.

(** X6: every call of the fetcher, whatever the network answers: the
    Carrier has the label and the link of the call; the log is extended,
    after the start line, by one to three requests, all to the pricing URL
    of the SKU, with one wait of two seconds between two requests; the
    request counter advances by the number of requests. *)
Theorem scrape_carrier_data_trace (url page phone_name : string) (w : world) :
  let result := scrape_carrier_data url page phone_name w in
  name (fst result) = extract_carrier_name url
  /\ link (fst result) = page
  /\ net (snd result) = net w
  /\ exists trace,
       log (snd result)
       = (log w ++ PrintStarted phone_name (extract_carrier_name url) :: trace)%list
       /\ requests (snd result)
          = (requests w + List.length (List.filter is_request trace))%nat
       /\ (1 <= List.length (List.filter is_request trace) <= 3)%nat
       /\ (List.length (List.filter is_sleep trace) + 1
           = List.length (List.filter is_request trace))%nat
       /\ List.Forall (fetch_event_ok (pricing_url (sku_of url))) trace.
Proof. exact (scrape_carrier_data_events url page phone_name w). Qed.


(** X7: Any three failures end in the sentinel Offer, not only failures of
    the transport. An attempt fails when [session.get] raises, when the
    body of a 200 answer is not JSON, or when the construction of the Offer
    raises on its payload given the variables that the earlier attempts of
    the call left: that includes the undefined-name error of a payload
    without a keep-it plan. Each failure is retried in the same way, its
    exception is printed in the retry line, and after the third the
    all-sentinel Offer is returned. *)
Theorem any_three_failures_give_sentinel (url page phone_name : string) (w : world)
    (vars1 vars2 vars3 : locals) (e1 e2 e3 : exn) :
  attempt_fails (net w (requests w)) no_locals vars1 e1 ->
  attempt_fails (net w (S (requests w))) vars1 vars2 e2 ->
  attempt_fails (net w (S (S (requests w)))) vars2 vars3 e3 ->
  scrape_carrier_data url page phone_name w
  = (mkCarrier (extract_carrier_name url) page [sentinel_offer],
     mkWorld (net w) (S (S (S (requests w))))
       (log w ++ [ PrintStarted phone_name (extract_carrier_name url);
                   Request (pricing_url (sku_of url));
                   PrintRetry 1 phone_name (extract_carrier_name url) e1;
                   Sleep 2;
                   Request (pricing_url (sku_of url));
                   PrintRetry 2 phone_name (extract_carrier_name url) e2;
                   Sleep 2;
                   Request (pricing_url (sku_of url));
                   PrintGaveUp 3 phone_name (extract_carrier_name url) ])).
Proof.
  intros H1 H2 H3. unfold scrape_carrier_data.
  remember (pricing_url (sku_of url)) as u eqn:Hu.
  remember (extract_carrier_name url) as cn eqn:Hcn.
  rewrite while_loop_step.
  destruct (decide (1 <= max_retries)) as [_ | Hgt]; [| unfold max_retries in Hgt; lia].
  rewrite (try_block_raises u cn page phone_name no_locals vars1 e1
             (emit (PrintStarted phone_name cn) w) H1).
  rewrite while_loop_step. change (1 + 1) with 2.
  destruct (decide (2 <= max_retries)) as [_ | Hgt]; [| unfold max_retries in Hgt; lia].
  unfold except_block at 1. change (1 <? max_retries) with true. cbv iota.
  match goal with
  | |- context [try_block u cn page phone_name vars1 ?w1] =>
      rewrite (try_block_raises u cn page phone_name vars1 vars2 e2 w1 H2)
  end.
  rewrite while_loop_step. change (2 + 1) with 3.
  destruct (decide (3 <= max_retries)) as [_ | Hgt]; [| unfold max_retries in Hgt; lia].
  unfold except_block at 1. change (2 <? max_retries) with true. cbv iota.
  match goal with
  | |- context [try_block u cn page phone_name vars2 ?w2] =>
      rewrite (try_block_raises u cn page phone_name vars2 vars3 e3 w2 H3)
  end.
  rewrite while_loop_step. change (3 + 1) with 4.
  destruct (decide (4 <= max_retries)) as [Hle | _]; [unfold max_retries in Hle; lia |].
  unfold except_block at 1. change (3 <? max_retries) with false. cbv iota.
  unfold after_loop, emit. cbn [net requests log py_truthy].
  rewrite <- !app_assoc. reflexivity.
Qed.

Lemma any_three_failures_give_sentinel_witness :
  scrape_carrier_data "https://www.bestbuy.ca/en-ca/product/telus-pixel-9/17000001"
    "https://www.bestbuy.ca/en-ca/product/telus-pixel-9/17000001" "Pixel 9"
    (mkWorld mixed_failures_network 0 [])
  = (mkCarrier
       (extract_carrier_name "https://www.bestbuy.ca/en-ca/product/telus-pixel-9/17000001")
       "https://www.bestbuy.ca/en-ca/product/telus-pixel-9/17000001" [sentinel_offer],
     mkWorld mixed_failures_network 3
       ([] ++ [ PrintStarted "Pixel 9"
                  (extract_carrier_name
                     "https://www.bestbuy.ca/en-ca/product/telus-pixel-9/17000001");
                Request
                  (pricing_url
                     (sku_of "https://www.bestbuy.ca/en-ca/product/telus-pixel-9/17000001"));
                PrintRetry 1 "Pixel 9"
                  (extract_carrier_name
                     "https://www.bestbuy.ca/en-ca/product/telus-pixel-9/17000001")
                  (UnboundLocalError "price_after_gc");
                Sleep 2;
                Request
                  (pricing_url
                     (sku_of "https://www.bestbuy.ca/en-ca/product/telus-pixel-9/17000001"));
                PrintRetry 2 "Pixel 9"
                  (extract_carrier_name
                     "https://www.bestbuy.ca/en-ca/product/telus-pixel-9/17000001")
                  JSONDecodeError;
                Sleep 2;
                Request
                  (pricing_url
                     (sku_of "https://www.bestbuy.ca/en-ca/product/telus-pixel-9/17000001"));
                PrintGaveUp 3 "Pixel 9"
                  (extract_carrier_name
                     "https://www.bestbuy.ca/en-ca/product/telus-pixel-9/17000001") ])%list).
Proof.
  apply (any_three_failures_give_sentinel
           "https://www.bestbuy.ca/en-ca/product/telus-pixel-9/17000001"
           "https://www.bestbuy.ca/en-ca/product/telus-pixel-9/17000001" "Pixel 9"
           (mkWorld mixed_failures_network 0 [])
           no_locals no_locals no_locals
           (UnboundLocalError "price_after_gc") JSONDecodeError
           (TransportError "Connection reset")).
  - split; reflexivity.
  - split; [reflexivity | split; reflexivity].
  - split; reflexivity.
Defined.

(** X8: A retry can succeed: when the first request raises and the second is
    answered with status 200 and a payload from which the Offer can be
    built, the fetcher returns that Offer, after one retry line and one
    wait; there is no third request. *)
Theorem second_attempt_recovers (url page phone_name : string) (w : world)
    (msg : string) (response_data : pyval) (offer : Offer) (vars : locals) :
  net w (requests w) = Raises msg ->
  net w (S (requests w)) = Response 200 (Some response_data) ->
  build_offer response_data no_locals = (inr offer, vars) ->
  scrape_carrier_data url page phone_name w
  = (mkCarrier (extract_carrier_name url) page [offer],
     mkWorld (net w) (S (S (requests w)))
       (log w ++ [ PrintStarted phone_name (extract_carrier_name url);
                   Request (pricing_url (sku_of url));
                   PrintRetry 1 phone_name (extract_carrier_name url) (TransportError msg);
                   Sleep 2;
                   Request (pricing_url (sku_of url)) ])).
Proof.
  intros H1 H2 Hoffer. unfold scrape_carrier_data.
  rewrite while_loop_step.
  destruct (decide (1 <= max_retries)) as [_ | Hgt]; [| unfold max_retries in Hgt; lia].
  unfold try_block at 1, session_get, emit. cbn [net requests log]. rewrite H1.
  rewrite while_loop_step. change (1 + 1) with 2.
  destruct (decide (2 <= max_retries)) as [_ | Hgt]; [| unfold max_retries in Hgt; lia].
  unfold except_block, try_block, session_get, emit.
  change (1 <? max_retries) with true. cbv iota. cbn [net requests log]. rewrite H2.
  change (negb (200 =? 200)) with false. cbv iota. rewrite Hoffer.
  rewrite <- !app_assoc. reflexivity.
Qed.

Lemma second_attempt_recovers_witness :
  scrape_carrier_data "https://www.bestbuy.ca/en-ca/product/koodo-pixel-9/17000002"
    "https://www.bestbuy.ca/en-ca/product/koodo-pixel-9/17000002" "Pixel 9"
    (mkWorld recovering_network 0 [])
  = (mkCarrier "Koodo" "https://www.bestbuy.ca/en-ca/product/koodo-pixel-9/17000002"
       [ mkOffer (PStr "1030.0") (PInt 50) (PStr "1080.00") (PFloat float_45) (PInt 0)
           NA NA NA ],
     mkWorld recovering_network 2
       [ PrintStarted "Pixel 9" "Koodo";
         Request (pricing_url "17000002");
         PrintRetry 1 "Pixel 9" "Koodo" (TransportError "Connection reset");
         Sleep 2;
         Request (pricing_url "17000002") ]).
Proof.
  apply (second_attempt_recovers
           "https://www.bestbuy.ca/en-ca/product/koodo-pixel-9/17000002"
           "https://www.bestbuy.ca/en-ca/product/koodo-pixel-9/17000002" "Pixel 9"
           (mkWorld recovering_network 0 []) "Connection reset" keep_it_payload
           (mkOffer (PStr "1030.0") (PInt 50) (PStr "1080.00") (PFloat float_45) (PInt 0)
              NA NA NA)
           return_it_locals).
  - reflexivity.
  - reflexivity.
  - vm_compute. reflexivity.
Defined.



(** ** Offer Normalizer: the fields of a built Offer *)

Lemma keep_it_block_fields (response_data plan_type gift : pyval) (vars vars' : locals)
    (monthly down : pyval) :
  keep_it_block response_data plan_type gift vars = (inr (monthly, down), vars') ->
  if py_eq_str plan_type "keep-it"
  then field response_data 0 "monthly" = inr monthly
       /\ field response_data 0 "downPayment" = inr down
  else monthly = NA /\ down = NA.
Proof.
  unfold keep_it_block. destruct (py_eq_str plan_type "keep-it").
  - intros H.
    apply bind_inr in H as (m & vars1 & Hm & H). apply lift_eq in Hm as [Hm ->].
    apply bind_inr in H as (d & vars1 & Hd & H). apply lift_eq in Hd as [Hd ->].
    apply bind_inr in H as (product & vars1 & _ & H).
    apply bind_inr in H as (total & vars2 & _ & H).
    apply bind_inr in H as (u & vars3 & _ & H).
    apply bind_inr in H as (after & vars4 & _ & H).
    apply bind_inr in H as (u' & vars5 & _ & H).
    unfold ret in H. injection H as <- <- _. split; [exact Hm | exact Hd].
  - unfold ret. intros H. injection H as <- <- _. split; reflexivity.
Qed.

Lemma bib_premium_of_string (m d : pyval) (vars vars' : locals) (premium : pyval) :
  bib_premium_of m d vars = (inr premium, vars') -> exists s, premium = PStr s.
Proof.
  unfold bib_premium_of. destruct (isinstance_float m).
  - intros H.
    apply bind_inr in H as (x1 & v1 & _ & H). apply bind_inr in H as (x2 & v2 & _ & H).
    apply bind_inr in H as (x3 & v3 & _ & H). apply bind_inr in H as (x4 & v4 & _ & H).
    apply bind_inr in H as (x5 & v5 & _ & H). apply bind_inr in H as (x6 & v6 & _ & H).
    apply bind_inr in H as (text & v7 & _ & H).
    unfold ret in H. injection H as <- _. exists text. reflexivity.
  - unfold ret. intros H. injection H as <- _. exists "N/A". reflexivity.
Qed.

Lemma return_it_block_string (response_data : pyval) (vars vars' : locals)
    (premium monthly down : pyval) :
  return_it_block response_data vars = (inr (premium, monthly, down), vars') ->
  exists s, premium = PStr s.
Proof.
  unfold return_it_block. intros H.
  apply bind_inr in H as (n & v1 & _ & H).
  apply bind_inr in H as ([|] & v2 & _ & H).
  - apply bind_inr in H as (x1 & v3 & _ & H). apply bind_inr in H as (x2 & v4 & _ & H).
    apply bind_inr in H as (x3 & v5 & _ & H). apply bind_inr in H as (x4 & v6 & _ & H).
    apply bind_inr in H as (p & v7 & Hp & H).
    unfold ret in H. injection H as <- _ _ _.
    exact (bib_premium_of_string _ _ _ _ _ Hp).
  - unfold ret in H. injection H as <- _ _ _. exists "N/A". reflexivity.
Qed.

(** X10: What an Offer holds when one is built. The gift card is the
    "giftCard" of the first element, as the payload has it (a number stays a
    number). The monthly price and the down payment are the "monthly" and
    "downPayment" of that element when its type is "keep-it", and "N/A"
    otherwise. The two totals and the premium are always strings. *)
Theorem built_offer_fields (response_data : pyval) (vars vars' : locals) (offer : Offer) :
  build_offer response_data vars = (inr offer, vars') ->
  field response_data 0 "giftCard" = inr (gift_card offer)
  /\ (exists plan_type,
        field response_data 0 "type" = inr plan_type
        /\ if py_eq_str plan_type "keep-it"
           then field response_data 0 "monthly" = inr (monthly_price offer)
                /\ field response_data 0 "downPayment" = inr (down_payment offer)
           else monthly_price offer = PStr "N/A" /\ down_payment offer = PStr "N/A")
  /\ (exists s, price_after_gc offer = PStr s)
  /\ (exists s, total_price offer = PStr s)
  /\ (exists s, bib_premium offer = PStr s).
Proof.
  intros H. unfold build_offer in H.
  apply bind_inr in H as (plan_type & v1 & Htype & H). apply lift_eq in Htype as [Htype ->].
  apply bind_inr in H as (gift & v1 & Hgift & H). apply lift_eq in Hgift as [Hgift ->].
  apply bind_inr in H as ([monthly down] & v1 & Hkeep & H).
  apply bind_inr in H as ([[premium bm] dr] & v2 & Hret & H).
  apply bind_inr in H as (after & v3 & _ & H).
  apply bind_inr in H as (total & v4 & _ & H).
  apply bind_inr in H as (text & v5 & _ & H).
  unfold ret in H. injection H as <- _. cbn.
  split; [exact Hgift |]. split.
  - exists plan_type. split; [exact Htype |].
    exact (keep_it_block_fields _ _ _ _ _ _ _ Hkeep).
  - split; [eexists; reflexivity |]. split; [eexists; reflexivity |].
    exact (return_it_block_string _ _ _ _ _ _ Hret).
Qed.

Lemma built_offer_fields_witness :
  field return_it_payload 0 "giftCard" = inr (gift_card return_it_offer)
  /\ (exists plan_type,
        field return_it_payload 0 "type" = inr plan_type
        /\ if py_eq_str plan_type "keep-it"
           then field return_it_payload 0 "monthly" = inr (monthly_price return_it_offer)
                /\ field return_it_payload 0 "downPayment"
                   = inr (down_payment return_it_offer)
           else monthly_price return_it_offer = PStr "N/A"
                /\ down_payment return_it_offer = PStr "N/A")
  /\ (exists s, price_after_gc return_it_offer = PStr s)
  /\ (exists s, total_price return_it_offer = PStr s)
  /\ (exists s, bib_premium return_it_offer = PStr s).
Proof.
  apply (built_offer_fields return_it_payload no_locals return_it_locals return_it_offer).
  vm_compute. reflexivity.
Defined.

(** X11: Integer prices. For a payload of one keep-it element whose "monthly",
    "downPayment" and "giftCard" are the integers [m], [d] and [g], with
    [24 m + d] in the range of a float: the total is [24 m + d] with two
    decimals, and the price after gift card is the integer [24 m + d - g]
    written without decimals (the same integer as the total when [g] is
    0). The three values of the payload stay integers in the Offer. *)
Theorem integer_prices (e0 : pyval) (m d g : Z) (total : spec_float) (vars : locals) :
  py_getitem e0 (PStr "type") = inr (PStr "keep-it") ->
  py_getitem e0 (PStr "monthly") = inr (PInt m) ->
  py_getitem e0 (PStr "downPayment") = inr (PInt d) ->
  py_getitem e0 (PStr "giftCard") = inr (PInt g) ->
  Float64.of_int (m * 24 + d) = Some total ->
  build_offer (PList [e0]) vars
  = (inr (mkOffer (PStr (str_of_int (m * 24 + d - g))) (PInt g)
            (PStr (Float64.format_2f total)) (PInt m) (PInt d)
            (PStr "N/A") (PStr "N/A") (PStr "N/A")),
     mkLocals (Some (PInt (m * 24 + d))) (Some (PInt (m * 24 + d - g)))).
Proof.
  intros Htype Hm Hd Hg Htotal.
  unfold build_offer, keep_it_block, return_it_block.
  unfold bind at 1, lift at 1. rewrite field_first, Htype.
  unfold bind at 1, lift at 1. rewrite field_first, Hg.
  change (py_eq_str (PStr "keep-it") "keep-it") with true. cbv iota.
  rewrite !field_first, Hm, Hd.
  unfold bind, lift, ret, assign_total_price, assign_price_after_gc,
    read_total_price, read_price_after_gc.
  change (py_mul (PInt m) (PInt 24)) with (@inr exn pyval (PInt (m * 24))). cbv beta iota.
  change (py_add (PInt (m * 24)) (PInt d)) with (@inr exn pyval (PInt (m * 24 + d))).
  cbv beta iota.
  cbn [py_truthy py_len List.length Z.of_nat var_total_price var_price_after_gc].
  change (1 <? Z.of_nat 1) with false.
  assert (Hformat : py_format_2f (PInt (m * 24 + d)) = inr (Float64.format_2f total)).
  { unfold py_format_2f. cbn [as_number float_of_number]. rewrite Htotal. reflexivity. }
  destruct (Z.eqb_spec g 0) as [-> | Hg0]; cbn [negb]; cbv beta iota.
  - cbn [var_total_price var_price_after_gc]. rewrite Hformat, Z.sub_0_r. reflexivity.
  - cbn [var_total_price var_price_after_gc].
    change (py_sub (PInt (m * 24 + d)) (PInt g))
      with (@inr exn pyval (PInt (m * 24 + d - g))).
    cbv beta iota. cbn [var_total_price var_price_after_gc]. rewrite Hformat. reflexivity.
Qed.

Lemma integer_prices_witness :
  build_offer
    (PList [ PDict [ ("type", PStr "keep-it"); ("monthly", PInt 45);
                     ("downPayment", PInt 100); ("giftCard", PInt 50) ] ])
    no_locals
  = (inr (mkOffer (PStr (str_of_int (45 * 24 + 100 - 50))) (PInt 50)
            (PStr (Float64.format_2f (Float64.of_decimal false 1180 0)))
            (PInt 45) (PInt 100) (PStr "N/A") (PStr "N/A") (PStr "N/A")),
     mkLocals (Some (PInt (45 * 24 + 100))) (Some (PInt (45 * 24 + 100 - 50)))).
Proof.
  apply (integer_prices
           (PDict [ ("type", PStr "keep-it"); ("monthly", PInt 45);
                    ("downPayment", PInt 100); ("giftCard", PInt 50) ])
           45 100 50 (Float64.of_decimal false 1180 0) no_locals);
    reflexivity.
Defined.

Lemma py_add_float_l (x : spec_float) (d : pyval) (nd : number) (fd : spec_float) :
  as_number d = Some nd -> float_of_number nd = inr fd ->
  py_add (PFloat x) d = inr (PFloat (Float64.add x fd)).
Proof.
  intros Hd Hfd. unfold py_add. cbn [as_number]. rewrite Hd. unfold arith.
  destruct nd; change (float_of_number (NFloat x)) with (@inr exn spec_float x);
    cbn [res_bind]; rewrite Hfd; reflexivity.
Qed.

Lemma py_sub_float_l (x : spec_float) (g : pyval) (ng : number) (fg : spec_float) :
  as_number g = Some ng -> float_of_number ng = inr fg ->
  py_sub (PFloat x) g = inr (PFloat (Float64.sub x fg)).
Proof.
  intros Hg Hfg. unfold py_sub. cbn [as_number]. rewrite Hg. unfold arith.
  destruct ng; change (float_of_number (NFloat x)) with (@inr exn spec_float x);
    cbn [res_bind]; rewrite Hfg; reflexivity.
Qed.

(** X12: Float prices. For a payload of one keep-it element whose "monthly" is
    the float [m], whose "downPayment" is a number with float [fd] and
    whose "giftCard" is empty (0, null, ...) or a number with float [fg]:
    the total is the binary64 value [m * 24.0 + fd], printed with two
    decimals, and the price after gift card is [str] of that total, less
    [fg] when the gift card is not empty: the shortest decimal that reads
    back as that float, with as many decimals as that takes. *)
Theorem float_prices (e0 d g : pyval) (m fd fg : spec_float) (nd : number)
    (vars : locals) :
  py_getitem e0 (PStr "type") = inr (PStr "keep-it") ->
  py_getitem e0 (PStr "monthly") = inr (PFloat m) ->
  py_getitem e0 (PStr "downPayment") = inr d ->
  py_getitem e0 (PStr "giftCard") = inr g ->
  as_number d = Some nd ->
  float_of_number nd = inr fd ->
  (py_truthy g = true ->
   exists ng, as_number g = Some ng /\ float_of_number ng = inr fg) ->
  let total := Float64.add (Float64.mul m float_24) fd in
  let after := if py_truthy g then Float64.sub total fg else total in
  build_offer (PList [e0]) vars
  = (inr (mkOffer (PStr (Float64.repr after)) g (PStr (Float64.format_2f total))
            (PFloat m) d (PStr "N/A") (PStr "N/A") (PStr "N/A")),
     mkLocals (Some (PFloat total)) (Some (PFloat after))).
Proof.
  intros Htype Hm Hd Hg Hnd Hfd Hgift total after.
  unfold build_offer, keep_it_block, return_it_block.
  unfold bind at 1, lift at 1. rewrite field_first, Htype.
  unfold bind at 1, lift at 1. rewrite field_first, Hg.
  change (py_eq_str (PStr "keep-it") "keep-it") with true. cbv iota.
  rewrite !field_first, Hm, Hd.
  unfold bind, lift, ret, assign_total_price, assign_price_after_gc,
    read_total_price, read_price_after_gc.
  rewrite py_mul_float_24. cbv beta iota.
  rewrite (py_add_float_l _ _ _ _ Hnd Hfd). fold total. cbv beta iota.
  cbn [py_len List.length Z.of_nat var_total_price var_price_after_gc].
  change (1 <? Z.of_nat 1) with false.
  unfold after. destruct (py_truthy g).
  - destruct (Hgift eq_refl) as (ng & Hng & Hfg).
    cbn [var_total_price var_price_after_gc].
    rewrite (py_sub_float_l _ _ _ _ Hng Hfg). reflexivity.
  - reflexivity.
Qed.

Lemma float_prices_witness :
  build_offer (PList [keep_it_element]) no_locals
  = (inr (mkOffer
            (PStr (Float64.repr
                     (if py_truthy (PInt 50)
                      then Float64.sub
                             (Float64.add (Float64.mul float_45 float_24)
                                (Float64.of_decimal false 0 0))
                             (Float64.of_decimal false 50 0)
                      else Float64.add (Float64.mul float_45 float_24)
                             (Float64.of_decimal false 0 0))))
            (PInt 50)
            (PStr (Float64.format_2f
                     (Float64.add (Float64.mul float_45 float_24)
                        (Float64.of_decimal false 0 0))))
            (PFloat float_45) (PInt 0) (PStr "N/A") (PStr "N/A") (PStr "N/A")),
     mkLocals
       (Some (PFloat (Float64.add (Float64.mul float_45 float_24)
                        (Float64.of_decimal false 0 0))))
       (Some (PFloat
                (if py_truthy (PInt 50)
                 then Float64.sub
                        (Float64.add (Float64.mul float_45 float_24)
                           (Float64.of_decimal false 0 0))
                        (Float64.of_decimal false 50 0)
                 else Float64.add (Float64.mul float_45 float_24)
                        (Float64.of_decimal false 0 0))))).
Proof.
  apply (float_prices keep_it_element (PInt 0) (PInt 50) float_45
           (Float64.of_decimal false 0 0) (Float64.of_decimal false 50 0) (NInt 0)
           no_locals).
  - reflexivity.
  - reflexivity.
  - reflexivity.
  - reflexivity.
  - reflexivity.
  - vm_compute. reflexivity.
  - intros _. exists (NInt 50). split; [reflexivity | vm_compute; reflexivity].
Defined.

(** ** Source Loader: the phones of a document *)

Lemma scrape_carrier_data_carrier (url page phone_name : string) (w : world) :
  name (fst (scrape_carrier_data url page phone_name w)) = extract_carrier_name url
  /\ link (fst (scrape_carrier_data url page phone_name w)) = page.
Proof.
  destruct (scrape_carrier_data_paths url page phone_name w)
    as [[_ [offer Hc]] | [[_ Hc] | [_ Hc]]]; cbv zeta in Hc; rewrite Hc; split; reflexivity.
Qed.

(** The carriers that the inner loop adds: one for each URL node, in the
    order of the nodes, with the text of the node as its link and the label
    of that text as its name. *)
Lemma scrape_urls_carriers (phone : string) (urls : list element)
    (acc cs : list Carrier) (w w' : world) :
  scrape_urls phone urls acc w = (inr cs, w') ->
  exists added,
    cs = (acc ++ added)%list
    /\ List.map (fun c => Some (link c)) added = List.map text urls
    /\ List.Forall (fun c => name c = extract_carrier_name (link c)) added.
Proof.
  revert acc w. induction urls as [| url urls IH]; intros acc w; cbn [scrape_urls].
  - intros H. injection H as <- _. exists []. rewrite app_nil_r.
    split; [reflexivity | split; [reflexivity | constructor]].
  - destruct (text url) as [t |] eqn:Ht; [| discriminate].
    pose proof (scrape_carrier_data_carrier t t phone w) as [Hname Hlink].
    destruct (scrape_carrier_data t t phone w) as [carrier w1]. cbn [fst] in Hname, Hlink.
    intros H. destruct (IH _ _ H) as (added & -> & Hlinks & Hnames).
    exists (carrier :: added). rewrite <- app_assoc.
    split; [reflexivity |]. cbn [List.map]. rewrite Hlinks, Hlink, Ht.
    split; [reflexivity |]. constructor; [congruence | exact Hnames].
Qed.

Lemma scrape_phones_phones (nodes : list element) (acc phones : list Phone)
    (w w' : world) :
  scrape_phones nodes acc w = (inr phones, w') ->
  exists added,
    phones = (acc ++ added)%list
    /\ List.map phone_name added
       = List.map (fun node => replace_char "_" " " (tag node)) nodes
    /\ List.map (fun p => List.map (fun c => Some (link c)) (carriers p)) added
       = List.map (fun node => List.map text (children node)) nodes
    /\ List.Forall
         (fun p => List.Forall (fun c => name c = extract_carrier_name (link c))
                     (carriers p))
         added.
Proof.
  revert acc w. induction nodes as [| node nodes IH]; intros acc w; cbn [scrape_phones].
  - intros H. injection H as <- _. exists []. rewrite app_nil_r.
    repeat split; constructor.
  - destruct (scrape_urls (replace_char "_" " " (tag node)) (children node) [] w)
      as [[e | cs] w1] eqn:Hurls; [discriminate |].
    destruct (scrape_urls_carriers _ _ _ _ _ _ Hurls) as (added_cs & -> & Hlinks & Hnames).
    intros H. destruct (IH _ _ H) as (added & -> & Hpn & Hpl & Hpc).
    exists (mkPhone (replace_char "_" " " (tag node)) added_cs :: added).
    rewrite <- app_assoc. split; [reflexivity |].
    cbn [List.map phone_name carriers List.app]. rewrite Hpn, Hpl, Hlinks.
    split; [reflexivity | split; [reflexivity |]].
    constructor; [exact Hnames | exact Hpc].
Qed.

Lemma replace_char_removes (a b : ascii) (s : string) :
  a <> b -> has_char a (replace_char a b s) = false.
Proof.
  intros Hab. induction s as [| c s IH]; [reflexivity |].
  cbn [replace_char has_char]. rewrite IH, orb_false_r.
  destruct (Ascii.eqb_spec c a) as [-> | Hc]; apply Ascii.eqb_neq; congruence.
Qed.

(** X13: A document that is scraped gives its phones back in order: one Phone
    for each child of the root, named by the tag of the child with spaces
    for underscores (so no name holds an underscore), and holding one
    Carrier for each URL node of the child, in order, whose link is the text
    of the node and whose name is the label of that text. *)
Theorem scrape_keeps_the_document (root : element) (w w' : world) (phones : list Phone) :
  scrape root w = (inr phones, w') ->
  List.map phone_name phones
  = List.map (fun node => replace_char "_" " " (tag node)) (children root)
  /\ List.map (fun p => List.map (fun c => Some (link c)) (carriers p)) phones
     = List.map (fun node => List.map text (children node)) (children root)
  /\ List.Forall
       (fun p => has_char "_" (phone_name p) = false
                 /\ List.Forall (fun c => name c = extract_carrier_name (link c))
                      (carriers p))
       phones.
Proof.
  intros H. unfold scrape in H.
  destruct (scrape_phones_phones _ _ _ _ _ H) as (added & -> & Hnames & Hlinks & Hcs).
  cbn [List.app]. split; [exact Hnames | split; [exact Hlinks |]].
  apply List.Forall_forall. intros p Hp. split.
  - assert (Hin : In (phone_name p) (List.map phone_name added))
      by (apply List.in_map; exact Hp).
    rewrite Hnames in Hin. apply List.in_map_iff in Hin as (node & <- & _).
    apply replace_char_removes. discriminate.
  - rewrite List.Forall_forall in Hcs. exact (Hcs p Hp).
Qed.

Lemma scrape_keeps_the_document_witness :
  List.map phone_name
    [ mkPhone "Pixel 9"
        [ mkCarrier "Fido" "https://www.bestbuy.ca/en-ca/product/fido-pixel-9/17000000" [] ] ]
  = List.map (fun node => replace_char "_" " " (tag node)) (children one_fido_document).
Proof.
  apply (scrape_keeps_the_document one_fido_document (mkWorld network_404 0 [])
           (snd (scrape one_fido_document (mkWorld network_404 0 [])))
           [ mkPhone "Pixel 9"
               [ mkCarrier "Fido"
                   "https://www.bestbuy.ca/en-ca/product/fido-pixel-9/17000000" [] ] ]).
  vm_compute. reflexivity.
Defined.

(** What [scrape_urls] and [scrape_phones] return is decided by the
    texts of the URL nodes alone. *)
Lemma scrape_urls_result (phone : string) (urls : list element)
    (acc : list Carrier) (w : world) :
  if List.forallb (fun url => match text url with Some _ => true | None => false end) urls
  then exists cs, fst (scrape_urls phone urls acc w) = inr cs
  else fst (scrape_urls phone urls acc w) = inl AttributeError.
Proof.
  revert acc w. induction urls as [| url urls IH]; intros acc w;
    cbn [scrape_urls List.forallb].
  - exists acc. reflexivity.
  - destruct (text url) as [t |]; cbn [andb]; [| reflexivity].
    destruct (scrape_carrier_data t t phone w) as [carrier w1]. apply IH.
Qed.

Lemma scrape_phones_result (nodes : list element) (acc : list Phone) (w : world) :
  if List.forallb
       (fun node =>
          List.forallb (fun url => match text url with Some _ => true | None => false end)
            (children node))
       nodes
  then exists phones, fst (scrape_phones nodes acc w) = inr phones
  else fst (scrape_phones nodes acc w) = inl AttributeError.
Proof.
  revert acc w. induction nodes as [| node nodes IH]; intros acc w;
    cbn [scrape_phones List.forallb].
  - exists acc. reflexivity.
  - pose proof (scrape_urls_result (replace_char "_" " " (tag node)) (children node) [] w)
      as Hurls.
    destruct (List.forallb _ (children node)); cbn [andb].
    + destruct Hurls as [cs Hcs].
      destruct (scrape_urls _ (children node) [] w) as [[e | cs'] w1];
        cbn [fst] in Hcs; [discriminate |].
      apply IH.
    + destruct (scrape_urls _ (children node) [] w) as [[e | cs'] w1];
        cbn [fst] in Hurls; [| discriminate].
      injection Hurls as ->. reflexivity.
Qed.

Lemma scrape_result_by_texts (root : element) (w : world) :
  (fst (scrape root w) = inl AttributeError
   <-> exists node url,
         In node (children root) /\ In url (children node) /\ text url = None)
  /\ (forall e, fst (scrape root w) = inl e -> e = AttributeError)
  /\ ((exists phones, fst (scrape root w) = inr phones)
      <-> forall node url,
            In node (children root) -> In url (children node) -> text url <> None).
Proof.
  unfold scrape. pose proof (scrape_phones_result (children root) [] w) as Hres.
  destruct (List.forallb _ (children root)) eqn:Hall.
  - destruct Hres as [phones Hphones].
    assert (Htexts : forall node url,
               In node (children root) -> In url (children node) -> text url <> None).
    { intros node url Hnode Hurl.
      rewrite List.forallb_forall in Hall. specialize (Hall node Hnode).
      rewrite List.forallb_forall in Hall. specialize (Hall url Hurl).
      destruct (text url); [discriminate | discriminate Hall]. }
    split; [| split].
    + split; [rewrite Hphones; discriminate |].
      intros (node & url & Hnode & Hurl & Hnone). exfalso.
      exact (Htexts node url Hnode Hurl Hnone).
    + intros e He. rewrite Hphones in He. discriminate.
    + split; [intros _; exact Htexts | intros _; exists phones; exact Hphones].
  - assert (Hsome : exists node url,
               In node (children root) /\ In url (children node) /\ text url = None).
    { assert (Hex : List.existsb
                      (fun node =>
                         List.existsb
                           (fun url => match text url with Some _ => false | None => true end)
                           (children node))
                      (children root) = true).
      { clear Hres. induction (children root) as [| node nodes IH];
          cbn [List.forallb List.existsb] in *; [discriminate |].
        apply andb_false_iff in Hall as [Hnode | Hrest].
        - apply orb_true_iff. left. clear IH.
          induction (children node) as [| url urls IH];
            cbn [List.forallb List.existsb] in *; [discriminate |].
          destruct (text url); cbn [andb orb] in *; [apply IH; exact Hnode | reflexivity].
        - apply orb_true_iff. right. apply IH. exact Hrest. }
      apply List.existsb_exists in Hex as (node & Hnode & Hex).
      apply List.existsb_exists in Hex as (url & Hurl & Hnone).
      exists node, url. split; [exact Hnode | split; [exact Hurl |]].
      destruct (text url); [discriminate | reflexivity]. }
    split; [| split].
    + split; [intros _; exact Hsome | intros _; exact Hres].
    + intros e He. rewrite Hres in He. injection He as <-. reflexivity.
    + split.
      * intros [phones Hphones]. rewrite Hres in Hphones. discriminate.
      * intros Htexts. exfalso. destruct Hsome as (node & url & Hnode & Hurl & Hnone).
        exact (Htexts node url Hnode Hurl Hnone).
Qed.

(** X14: the one way for [scrape] to fail on a parsed document, whatever
    the network answers: it raises, and [AttributeError], exactly when some
    URL node has no text; the phones scraped before that node are lost with
    it. *)
Theorem scrape_fails_on_empty_url (root : element) (w : world) :
  (fst (scrape root w) = inl AttributeError
   <-> exists node url,
         In node (children root) /\ In url (children node) /\ text url = None)
  /\ (forall e, fst (scrape root w) = inl e -> e = AttributeError)
  /\ ((exists phones, fst (scrape root w) = inr phones)
      <-> forall node url,
            In node (children root) -> In url (children node) -> text url <> None).
Proof. exact (scrape_result_by_texts root w). Qed.

Lemma scrape_urls_requests (phone : string) (urls : list element)
    (acc : list Carrier) (w : world) :
  let result := scrape_urls phone urls acc w in
  net (snd result) = net w
  /\ (exists trace, log (snd result) = (log w ++ trace)%list)
  /\ (requests w <= requests (snd result) <= requests w + 3 * List.length urls)%nat
  /\ (forall cs, fst result = inr cs ->
        (requests w + List.length urls <= requests (snd result))%nat).
Proof.
  revert acc w. induction urls as [| url urls IH]; intros acc w; cbn [scrape_urls].
  - cbn. split; [reflexivity |]. split; [exists []; rewrite app_nil_r; reflexivity |].
    split; [lia | intros; lia].
  - destruct (text url) as [t |].
    + pose proof (scrape_carrier_data_events t t phone w)
        as (_ & _ & Hnet & trace & Hlog & Hreq & Hbound & _).
      destruct (scrape_carrier_data t t phone w) as [carrier w1].
      cbn [snd] in Hnet, Hlog, Hreq.
      destruct (IH (acc ++ [carrier])%list w1) as (Hnet' & [trace' Hlog'] & Hreq' & Hmin).
      cbn zeta. rewrite Hnet', Hnet. split; [reflexivity |].
      split.
      * exists (PrintStarted phone (extract_carrier_name t) :: trace ++ trace')%list.
        rewrite Hlog', Hlog, <- app_assoc. reflexivity.
      * cbn [List.length]. split; [lia |].
        intros cs Hcs. specialize (Hmin cs Hcs). lia.
    + cbn. split; [reflexivity |]. split; [exists []; rewrite app_nil_r; reflexivity |].
      split; [lia | intros cs H; discriminate H].
Qed.

Lemma scrape_phones_requests (nodes : list element) (acc : list Phone) (w : world) :
  let result := scrape_phones nodes acc w in
  let urls := List.concat (List.map children nodes) in
  net (snd result) = net w
  /\ (exists trace, log (snd result) = (log w ++ trace)%list)
  /\ (requests w <= requests (snd result) <= requests w + 3 * List.length urls)%nat
  /\ (forall phones, fst result = inr phones ->
        (requests w + List.length urls <= requests (snd result))%nat).
Proof.
  revert acc w. induction nodes as [| node nodes IH]; intros acc w; cbn [scrape_phones].
  - cbn. split; [reflexivity |]. split; [exists []; rewrite app_nil_r; reflexivity |].
    split; [lia | intros; lia].
  - cbn [List.map List.concat]. rewrite List.length_app.
    pose proof (scrape_urls_requests (replace_char "_" " " (tag node)) (children node) [] w)
      as (Hnet & [trace Hlog] & Hreq & Hmin).
    destruct (scrape_urls (replace_char "_" " " (tag node)) (children node) [] w)
      as [[e | cs] w1]; cbn [fst snd] in Hnet, Hlog, Hreq, Hmin.
    + cbn [fst snd]. split; [exact Hnet |]. split; [exists trace; exact Hlog |].
      split; [lia | intros phones H; discriminate H].
    + destruct (IH (acc ++ [mkPhone (replace_char "_" " " (tag node)) cs])%list w1)
        as (Hnet' & [trace' Hlog'] & Hreq' & Hmin').
      cbn zeta. rewrite Hnet', Hnet. split; [reflexivity |].
      split.
      * exists (trace ++ trace')%list. rewrite Hlog', Hlog, <- app_assoc. reflexivity.
      * specialize (Hmin cs eq_refl). split; [lia |].
        intros phones Hphones. specialize (Hmin' phones Hphones). lia.
Qed.

(** X15: The cost of a run of [scrape] in requests: never more than three for
    each URL node of the document, and, when the document is scraped,
    never fewer than one for each. The log of what was done before is kept
    and extended. *)
Theorem scrape_request_bounds (root : element) (w : world) :
  net (snd (scrape root w)) = net w
  /\ (exists trace, log (snd (scrape root w)) = (log w ++ trace)%list)
  /\ (requests w <= requests (snd (scrape root w)) <= requests w + 3 * url_count root)%nat
  /\ (forall phones, fst (scrape root w) = inr phones ->
        (requests w + url_count root <= requests (snd (scrape root w)))%nat).
Proof. exact (scrape_phones_requests (children root) [] w). Qed.

Lemma scrape_request_bounds_witness :
  (requests (mkWorld network_404 0 []) + url_count one_fido_document
   <= requests (snd (scrape one_fido_document (mkWorld network_404 0 []))))%nat.
Proof.
  apply (proj2 (proj2 (proj2 (scrape_request_bounds one_fido_document
                                (mkWorld network_404 0 []))))
           [ mkPhone "Pixel 9"
               [ mkCarrier "Fido"
                   "https://www.bestbuy.ca/en-ca/product/fido-pixel-9/17000000" [] ] ]).
  vm_compute. reflexivity.
Defined.

(** ** Report Writer: the shape of the table *)

Lemma carrier_rows_cells (phone : Phone) (cs : list Carrier) (n : string) (r : row) :
  In r (carrier_rows phone (carrier_map cs) n) ->
  List.length r = 11%nat /\ List.firstn 2 r = [PStr (phone_name phone); PStr n].
Proof.
  unfold carrier_rows. destruct (carrier_map cs !! n) as [c |] eqn:Hn.
  - apply carrier_map_origin in Hn as [_ Hname].
    intros Hin. apply List.in_map_iff in Hin as (offer & <- & _).
    cbn. rewrite Hname. split; reflexivity.
  - intros [<- | []]. split; reflexivity.
Qed.

(** X16: The table is rectangular: every row that is written, the header and
    the rows of offers and placeholders alike, has eleven cells. *)
Theorem every_row_has_eleven_cells (phones : list Phone) (r : row) :
  In r (write_to_csv phones) -> List.length r = 11%nat.
Proof.
  unfold write_to_csv. intros [<- | Hin]; [reflexivity |].
  apply List.in_concat in Hin as (rows & Hrows & Hr).
  apply List.in_map_iff in Hrows as (phone & <- & _).
  unfold phone_rows in Hr.
  apply List.in_concat in Hr as (group & Hgroup & Hr).
  apply List.in_map_iff in Hgroup as (n & <- & _).
  exact (proj1 (carrier_rows_cells phone (carriers phone) n r Hr)).
Qed.

Lemma every_row_has_eleven_cells_witness :
  List.length (placeholder_row phone_without_carriers "Fido") = 11%nat.
Proof.
  apply (every_row_has_eleven_cells [phone_without_carriers]).
  right. left. reflexivity.
Defined.

Lemma firstn_concat_groups {A B : Type} (f : A -> list (list B)) (label : A -> list B)
    (k : nat) (names : list A) :
  (forall n r, In n names -> In r (f n) -> List.firstn k r = label n) ->
  List.map (List.firstn k) (List.concat (List.map f names))
  = List.concat (List.map (fun n => List.repeat (label n) (List.length (f n))) names).
Proof.
  induction names as [| n names IH]; intros H; [reflexivity |].
  cbn [List.map List.concat]. rewrite List.map_app. f_equal.
  - assert (Hgroup : forall r, In r (f n) -> List.firstn k r = label n)
      by (intros r; apply H; left; reflexivity).
    clear IH H. induction (f n) as [| r rows IHrows]; [reflexivity |].
    cbn [List.map List.length List.repeat]. f_equal.
    + apply Hgroup. left. reflexivity.
    + apply IHrows. intros r' Hr'. apply Hgroup. right. exact Hr'.
  - apply IH. intros n' r Hn' Hr. apply (H n' r); [right; exact Hn' | exact Hr].
Qed.

(** X17: The rows of a phone come in the canonical order of the carriers,
    whatever the order of its records: read down, the first two columns
    are the name of the phone and the seven carrier names in canonical
    order, each repeated once for each of its rows. *)
Theorem rows_follow_canonical_order (phone : Phone) :
  List.map (List.firstn 2) (phone_rows phone)
  = List.concat
      (List.map
         (fun n =>
            List.repeat [PStr (phone_name phone); PStr n]
              (List.length (carrier_rows phone (carrier_map (carriers phone)) n)))
         carrier_order).
Proof.
  unfold phone_rows. apply firstn_concat_groups.
  intros n r _ Hr. exact (proj2 (carrier_rows_cells phone (carriers phone) n r Hr)).
Qed.

Lemma foldl_filter_lookup (keep : Carrier -> bool) (cs : list Carrier)
    (m m' : gmap string Carrier) (n : string) :
  m !! n = m' !! n ->
  (forall c, name c = n -> keep c = true) ->
  foldl add_carrier m (List.filter keep cs) !! n = foldl add_carrier m' cs !! n.
Proof.
  intros Hm Hkeep. revert m m' Hm.
  induction cs as [| c cs IH]; intros m m' Hm; cbn [List.filter foldl]; [exact Hm |].
  destruct (keep c) eqn:Hc; cbn [foldl]; apply IH; unfold add_carrier.
  - destruct (decide (name c = n)) as [<- | Hne].
    + rewrite !lookup_insert_eq. reflexivity.
    + rewrite !lookup_insert_ne by exact Hne. exact Hm.
  - rewrite lookup_insert_ne; [exact Hm |].
    intros Heq. rewrite (Hkeep c Heq) in Hc. discriminate.
Qed.

(** X18: Records that the writer never looks up can be left out: keeping only
    some records of a phone, among them every record whose name is in the
    canonical order, does not change its rows. A Carrier labelled "Unknown"
    is such a record: what it holds is never written. *)
Theorem other_carriers_are_not_written (phone : Phone) (keep : Carrier -> bool) :
  (forall c, In (name c) carrier_order -> keep c = true) ->
  phone_rows (mkPhone (phone_name phone) (List.filter keep (carriers phone)))
  = phone_rows phone.
Proof.
  intros Hkeep. unfold phone_rows. f_equal. apply List.map_ext_in.
  intros n Hn. unfold carrier_rows, carrier_map. cbn [carriers phone_name].
  rewrite (foldl_filter_lookup keep (carriers phone) ∅ ∅ n eq_refl).
  - destruct (foldl add_carrier ∅ (carriers phone) !! n); reflexivity.
  - intros c <-. apply Hkeep. exact Hn.
Qed.

Lemma other_carriers_are_not_written_witness :
  phone_rows
    (mkPhone (phone_name phone_with_unknown)
       (List.filter (fun c => negb (String.eqb (name c) "Unknown"))
          (carriers phone_with_unknown)))
  = phone_rows phone_with_unknown.
Proof.
  apply (other_carriers_are_not_written phone_with_unknown
           (fun c => negb (String.eqb (name c) "Unknown"))).
  intros c Hin. cbn in Hin.
  repeat (destruct Hin as [Hin | Hin]; [rewrite <- Hin; reflexivity |]).
  destruct Hin.
Defined.

Lemma foldl_carriers_kept (cs : list Carrier) (m : gmap string Carrier) (n : string) :
  is_Some (m !! n) -> is_Some (foldl add_carrier m cs !! n).
Proof.
  revert m. induction cs as [| c cs IH]; intros m Hm; cbn [foldl]; [exact Hm |].
  apply IH. unfold add_carrier. destruct (decide (name c = n)) as [<- | Hne].
  - rewrite lookup_insert_eq. eexists. reflexivity.
  - rewrite lookup_insert_ne by exact Hne. exact Hm.
Qed.

Lemma carrier_map_present (cs : list Carrier) (c : Carrier) :
  In c cs -> is_Some (carrier_map cs !! name c).
Proof.
  intros Hin. apply List.in_split in Hin as (earlier & later & ->).
  unfold carrier_map. rewrite foldl_app. cbn [foldl].
  apply foldl_carriers_kept. unfold add_carrier. rewrite lookup_insert_eq.
  eexists. reflexivity.
Qed.

Lemma carrier_map_unique (cs : list Carrier) (c : Carrier) :
  List.NoDup (List.map name cs) -> In c cs -> carrier_map cs !! name c = Some c.
Proof.
  intros Hnodup Hin. apply List.in_split in Hin as (earlier & later & ->).
  apply carrier_map_last.
  rewrite List.map_app in Hnodup. cbn [List.map] in Hnodup.
  apply List.NoDup_remove_2 in Hnodup.
  apply List.Forall_forall. intros c' Hc' Heq. apply Hnodup.
  apply List.in_or_app. right. rewrite <- Heq. apply List.in_map. exact Hc'.
Qed.

(** X19: The order in which the carriers of a phone were found does not
    matter: when no two records of a phone have the same name, the rows of
    the phone are the same for every order of its records. *)
Theorem rows_ignore_discovery_order (phone : Phone) (cs : list Carrier) :
  List.NoDup (List.map name (carriers phone)) ->
  Permutation (carriers phone) cs ->
  phone_rows (mkPhone (phone_name phone) cs) = phone_rows phone.
Proof.
  intros Hnodup Hperm.
  assert (Hnodup' : List.NoDup (List.map name cs)).
  { apply (Permutation_NoDup (l := List.map name (carriers phone)));
      [apply Permutation_map; exact Hperm | exact Hnodup]. }
  assert (Hmap : carrier_map cs = carrier_map (carriers phone)).
  { apply map_eq. intros n.
    destruct (carrier_map (carriers phone) !! n) as [c |] eqn:Hn.
    - apply carrier_map_origin in Hn as [Hin <-].
      apply carrier_map_unique; [exact Hnodup' |].
      exact (Permutation_in _ Hperm Hin).
    - destruct (carrier_map cs !! n) as [c |] eqn:Hn'; [| reflexivity].
      apply carrier_map_origin in Hn' as [Hin <-].
      apply (Permutation_in _ (Permutation_sym Hperm)) in Hin.
      apply carrier_map_present in Hin as [c' Hc']. congruence. }
  unfold phone_rows. cbn [carriers phone_name]. rewrite Hmap. f_equal.
Qed.

Lemma rows_ignore_discovery_order_witness :
  phone_rows
    (mkPhone (phone_name phone_with_unknown)
       [ mkCarrier "Koodo" "https://www.bestbuy.ca/koodo/2" [];
         mkCarrier "Unknown" "https://www.bestbuy.ca/other/3" [sentinel_offer];
         mkCarrier "Telus" "https://www.bestbuy.ca/telus/1" [sentinel_offer] ])
  = phone_rows phone_with_unknown.
Proof.
  apply (rows_ignore_discovery_order phone_with_unknown).
  - cbn. repeat (apply List.NoDup_cons; [cbn; intuition discriminate |]).
    apply List.NoDup_nil.
  - cbn. apply perm_trans with
           (l' := [ mkCarrier "Koodo" "https://www.bestbuy.ca/koodo/2" [];
                    mkCarrier "Telus" "https://www.bestbuy.ca/telus/1" [sentinel_offer];
                    mkCarrier "Unknown" "https://www.bestbuy.ca/other/3"
                      [sentinel_offer] ]).
    + apply perm_swap.
    + apply perm_skip. apply perm_swap.
Defined.

(** ** Report Writer: several records of one carrier *)

Lemma foldl_carriers_lookup (cs : list Carrier) (m m' : gmap string Carrier) (n : string) :
  m !! n = m' !! n ->
  foldl add_carrier m cs !! n = foldl add_carrier m' cs !! n.
Proof.
  revert m m'. induction cs as [| c cs IH]; intros m m' Hm; cbn [foldl]; [exact Hm |].
  apply IH. unfold add_carrier. destruct (decide (name c = n)) as [<- | Hne].
  - rewrite !lookup_insert_eq. reflexivity.
  - rewrite !lookup_insert_ne by exact Hne. exact Hm.
Qed.

(** The earlier records of the name of [c] do not reach the dictionary. *)
Lemma carrier_map_without_earlier (earlier later : list Carrier) (c : Carrier) :
  carrier_map (records_of_others (name c) earlier ++ c :: later)
  = carrier_map (earlier ++ c :: later).
Proof.
  apply map_eq. intros n. unfold carrier_map. rewrite !foldl_app. cbn [foldl].
  apply foldl_carriers_lookup. unfold add_carrier.
  destruct (decide (name c = n)) as [<- | Hne].
  - rewrite !lookup_insert_eq. reflexivity.
  - rewrite !lookup_insert_ne by exact Hne.
    apply foldl_filter_lookup; [reflexivity |].
    intros c' Hc'. apply negb_true_iff. apply String.eqb_neq. congruence.
Qed.

Lemma phone_rows_by_map (phone phone' : Phone) :
  phone_name phone' = phone_name phone ->
  carrier_map (carriers phone') = carrier_map (carriers phone) ->
  phone_rows phone' = phone_rows phone.
Proof.
  intros Hname Hmap. unfold phone_rows. rewrite Hmap. f_equal.
  apply List.map_ext_in.
  intros n _. unfold carrier_rows, offer_row, placeholder_row. rewrite Hname.
  reflexivity.
Qed.

Lemma row_of_carrier_cells (phone : Phone) (cs : list Carrier) (n0 n : string) (r : row) :
  In r (carrier_rows phone (carrier_map cs) n0) ->
  row_of_carrier n r = String.eqb n0 n.
Proof.
  intros Hr. pose proof (proj2 (carrier_rows_cells phone cs n0 r Hr)) as Hcells.
  destruct r as [| x [| y r]]; cbn [List.firstn] in Hcells; try discriminate Hcells.
  injection Hcells as _ ->. reflexivity.
Qed.

Lemma filter_constant {A : Type} (f : A -> bool) (b : bool) (l : list A) :
  (forall x, In x l -> f x = b) -> List.filter f l = if b then l else [].
Proof.
  induction l as [| x l IH]; intros H; cbn [List.filter]; [destruct b; reflexivity |].
  rewrite (H x (or_introl eq_refl)), IH by (intros y Hy; apply H; right; exact Hy).
  destruct b; reflexivity.
Qed.

Lemma rows_of_absent_name (phone : Phone) (cs : list Carrier) (n : string)
    (names : list string) :
  ~ In n names ->
  List.filter (row_of_carrier n)
    (List.concat (List.map (carrier_rows phone (carrier_map cs)) names)) = [].
Proof.
  induction names as [| n0 names IH]; intros Hn; [reflexivity |].
  cbn [List.map List.concat]. rewrite List.filter_app.
  rewrite IH by (intros H; apply Hn; right; exact H).
  rewrite (filter_constant _ false).
  - reflexivity.
  - intros r Hr. rewrite (row_of_carrier_cells phone cs n0 n r Hr).
    apply String.eqb_neq. intros ->. apply Hn. left. reflexivity.
Qed.

(** Among the rows of the names [names], those of one name are its
    group. *)
Lemma rows_of_name (phone : Phone) (cs : list Carrier) (n : string) (names : list string) :
  List.NoDup names ->
  In n names ->
  List.filter (row_of_carrier n)
    (List.concat (List.map (carrier_rows phone (carrier_map cs)) names))
  = carrier_rows phone (carrier_map cs) n.
Proof.
  induction names as [| n0 names IH]; intros Hnodup Hn; [destruct Hn |].
  apply List.NoDup_cons_iff in Hnodup as [Hfresh Hnodup].
  cbn [List.map List.concat]. rewrite List.filter_app.
  destruct (String.eqb_spec n0 n) as [-> | Hne].
  - rewrite (rows_of_absent_name phone cs n names Hfresh), app_nil_r.
    rewrite (filter_constant _ true); [reflexivity |].
    intros r Hr. rewrite (row_of_carrier_cells phone cs n n r Hr). apply String.eqb_refl.
  - rewrite (filter_constant _ false).
    + apply IH; [exact Hnodup |]. destruct Hn as [Heq | Hn]; [contradiction | exact Hn].
    + intros r Hr. rewrite (row_of_carrier_cells phone cs n0 n r Hr).
      apply String.eqb_neq. exact Hne.
Qed.

(** C10: when a phone has several records of one carrier name, the rows
    that the writer emits for that name are those of the last such record,
    one for each of its offers, with its link; the earlier records of the
    name are dropped: the rows of the phone, and the file, are the same as
    without them. For a name of the canonical order, the rows of the phone
    (and of the file) whose carrier is that name are exactly the rows of
    the offers of the last record: one group for each name, since each
    name occurs once in the canonical order, and each group is the
    placeholder or the offers of one record of the phone. *)
Theorem last_record_wins (phone : Phone) (earlier later : list Carrier) (c : Carrier) :
  carriers phone = (earlier ++ c :: later)%list ->
  Forall (fun c' => name c' <> name c) later ->
  carrier_map (carriers phone) !! name c = Some c
  /\ carrier_rows phone (carrier_map (carriers phone)) (name c)
     = List.map (offer_row phone c) (offers c)
  /\ NoDup carrier_order
  /\ (forall n,
        carrier_rows phone (carrier_map (carriers phone)) n = [placeholder_row phone n]
        \/ exists c', In c' (carriers phone) /\ name c' = n
             /\ carrier_rows phone (carrier_map (carriers phone)) n
                = List.map (offer_row phone c') (offers c'))
  /\ phone_rows phone
     = phone_rows
         (mkPhone (phone_name phone)
            (records_of_others (name c) earlier ++ c :: later))
  /\ (forall before after,
        write_to_csv (before ++ phone :: after)
        = write_to_csv
            (before
             ++ mkPhone (phone_name phone)
                  (records_of_others (name c) earlier ++ c :: later)
             :: after))
  /\ (In (name c) carrier_order ->
      List.filter (row_of_carrier (name c)) (phone_rows phone)
      = List.map (offer_row phone c) (offers c)
      /\ List.filter (row_of_carrier (name c)) (write_to_csv [phone])
         = List.map (offer_row phone c) (offers c)).
Proof.
  intros Hcs Hlater.
  assert (Hlookup : carrier_map (carriers phone) !! name c = Some c).
  { rewrite Hcs. apply carrier_map_last. exact Hlater. }
  assert (Hgroup : carrier_rows phone (carrier_map (carriers phone)) (name c)
                   = List.map (offer_row phone c) (offers c))
    by (unfold carrier_rows; rewrite Hlookup; reflexivity).
  assert (Hnodup : List.NoDup carrier_order).
  { unfold carrier_order.
    repeat (apply List.NoDup_cons; [cbn; intuition discriminate |]).
    apply List.NoDup_nil. }
  assert (Hrows : phone_rows phone
                  = phone_rows
                      (mkPhone (phone_name phone)
                         (records_of_others (name c) earlier ++ c :: later))).
  { symmetry. apply phone_rows_by_map; [reflexivity |].
    cbn [carriers]. rewrite Hcs. apply carrier_map_without_earlier. }
  split; [exact Hlookup |].
  split; [exact Hgroup |].
  split; [apply (bool_decide_unpack _); vm_compute; exact I |].
  split.
  { intros n. unfold carrier_rows.
    destruct (carrier_map (carriers phone) !! n) as [c'|] eqn:Hn.
    + right. exists c'. destruct (carrier_map_origin _ _ _ Hn) as [Hin Hname].
      split; [exact Hin | split; [exact Hname | reflexivity]].
    + left. reflexivity. }
  split; [exact Hrows |].
  split.
  { intros before after. unfold write_to_csv.
    rewrite !List.map_app. cbn [List.map]. rewrite <- Hrows. reflexivity. }
  intros Hcanonical.
  assert (Hfilter : List.filter (row_of_carrier (name c)) (phone_rows phone)
                    = List.map (offer_row phone c) (offers c)).
  { unfold phone_rows.
    rewrite (rows_of_name phone (carriers phone) (name c) carrier_order Hnodup Hcanonical).
    exact Hgroup. }
  split; [exact Hfilter |].
  unfold write_to_csv. cbn [List.map List.concat]. rewrite app_nil_r.
  cbn [List.filter].
  assert (Hheader : row_of_carrier (name c) headers = false).
  { unfold carrier_order in Hcanonical. cbn [In] in Hcanonical.
    repeat (destruct Hcanonical as [<- | Hcanonical]; [reflexivity |]).
    destruct Hcanonical. }
  rewrite Hheader. exact Hfilter.
Qed.

Lemma last_record_wins_witness :
  List.filter (row_of_carrier "Fido") (write_to_csv [phone_with_two_fido])
  = [ [ PStr "Pixel 9"; PStr "Fido"; PStr "1030.0"; PInt 50; PStr "1080.00";
        PFloat float_45; PInt 0; PStr "360.00"; PFloat float_30; PInt 200;
        PStr "https://www.bestbuy.ca/fido/3" ] ]
  /\ phone_rows phone_with_two_fido
     = phone_rows
         (mkPhone "Pixel 9"
            [ mkCarrier "Telus" "https://www.bestbuy.ca/telus/2" [];
              mkCarrier "Fido" "https://www.bestbuy.ca/fido/3" [return_it_offer] ]).
Proof.
  pose proof (last_record_wins phone_with_two_fido
                [ mkCarrier "Fido" "https://www.bestbuy.ca/fido/1" [sentinel_offer];
                  mkCarrier "Telus" "https://www.bestbuy.ca/telus/2" [] ]
                []
                (mkCarrier "Fido" "https://www.bestbuy.ca/fido/3" [return_it_offer])
                eq_refl (List.Forall_nil _))
    as (_ & _ & _ & _ & Hrows & _ & Hfilter).
  split.
  - apply Hfilter. cbn. tauto.
  - exact Hrows.
Defined.

(** ** The run *)

Lemma files_written_scraping (events : list event) (rest : list main_event) :
  files_written (List.map Scraping events ++ rest) = files_written rest.
Proof. induction events as [| ev events IH]; [reflexivity | exact IH]. Qed.

Lemma last_of_two {A : Type} (l : list A) (a b : A) : last (l ++ [a; b]) = Some b.
Proof. change [a; b] with ([a] ++ [b])%list. rewrite app_assoc. apply last_snoc. Qed.

Lemma scraped_phone_rows (root : element) (w w' : world) (phones : list Phone) :
  scrape root w = (inr phones, w') ->
  (List.length (List.concat (List.map phone_rows phones)) <= 7 * List.length phones)%nat.
Proof.
  intros Hscrape.
  pose proof (scrape_phones_offers _ _ _ _ _ (List.Forall_nil _) Hscrape) as Hall.
  clear Hscrape. induction Hall as [| phone phones Hphone _ IH]; [cbn; lia |].
  cbn [List.map List.concat List.length]. rewrite List.length_app.
  assert (Hrows : (List.length (phone_rows phone) <= 7)%nat).
  { pose proof (rows_and_names phone (carrier_map (carriers phone)) carrier_order) as Hsum.
    change (List.length carrier_order) with 7%nat in Hsum.
    fold (phone_rows phone) in Hsum.
    assert (Hone : forall n c, carrier_map (carriers phone) !! n = Some c ->
                     (List.length (offers c) <= 1)%nat).
    { intros n c Hn. apply carrier_map_origin in Hn as [Hc _].
      rewrite List.Forall_forall in Hphone. exact (Hphone c Hc). }
    specialize (Hsum Hone). lia. }
  lia.
Qed.

Lemma writerows_spec (encodable : row -> bool) (rows : list row) :
  match writerows encodable rows with
  | (written, true) => written = rows /\ List.forallb encodable rows = true
  | (written, false) =>
      (exists r rest, rows = (written ++ r :: rest)%list /\ encodable r = false)
      /\ List.forallb encodable rows = false
  end.
Proof.
  induction rows as [| r rows IH]; cbn [writerows List.forallb]; [split; reflexivity |].
  destruct (encodable r) eqn:Hr.
  - destruct (writerows encodable rows) as [written [|]]; cbn [andb].
    + destruct IH as [-> Hall]. split; [reflexivity | exact Hall].
    + destruct IH as [(r' & rest & -> & Hr') Hall].
      split; [| exact Hall]. exists r', rest. split; [reflexivity | exact Hr'].
  - split; [| reflexivity]. exists r, rows. split; [reflexivity | exact Hr].
Qed.

Lemma writerows_length (encodable : row -> bool) (rows : list row) :
  (List.length (fst (writerows encodable rows)) <= List.length rows)%nat.
Proof.
  induction rows as [| r rows IH]; cbn [writerows]; [cbn; lia |].
  destruct (encodable r); [| cbn; lia].
  destruct (writerows encodable rows) as [written complete]. cbn [fst List.length] in *. lia.
Qed.

(** X20: What a run leaves behind. When some URL node has no text, and only
    then, the run ends on the [AttributeError] of [scrape], and no file is
    opened, whatever was fetched before. Otherwise one file is opened,
    named after the date. When every row can be encoded, the file holds the
    header and all the rows, at most seven for each phone node of the
    document, and the last thing the run does is to print that all was
    written. When some row cannot be encoded, the run ends on
    [UnicodeEncodeError]: the file is left with the header and the rows
    before the first such row, and the last line is not printed. *)
Theorem main_writes_up_to_the_failure (encodable : row -> bool) (root : element)
    (current_date : string) (w : world) :
  encodable headers = true ->
  let run := main encodable root current_date w in
  (fst run = inl (Raised AttributeError)
   <-> exists node url,
         In node (children root) /\ In url (children node) /\ text url = None)
  /\ (forall e, fst run = inl (Raised e) ->
        e = AttributeError /\ files_written (snd run) = [])
  /\ (fst run = inr tt
      <-> exists phones w',
            scrape root w = (inr phones, w')
            /\ List.forallb encodable (write_to_csv phones) = true)
  /\ (forall phones w',
        scrape root w = (inr phones, w') ->
        exists rows,
          files_written (snd run)
          = [("bestbuy_" ++ current_date ++ "_mobiles.csv", headers :: rows)]
          /\ (List.length rows <= 7 * List.length (children root))%nat
          /\ ((fst run = inr tt
               /\ headers :: rows = write_to_csv phones
               /\ last (snd run) = Some PrintAllWritten)
              \/ (fst run = inl UnicodeEncodeError
                  /\ (exists r rest,
                         write_to_csv phones = (headers :: rows ++ r :: rest)%list
                         /\ encodable r = false)
                  /\ ~ In PrintAllWritten (snd run)))).
Proof.
  intros Hheaders run. subst run. unfold main.
  pose proof (scrape_result_by_texts root w) as (Hfail & Hkind & _).
  destruct (scrape root w) as [[e | phones] w'] eqn:Hscrape; cbn [fst snd] in *.
  - pose proof (Hkind e eq_refl) as ->.
    split; [| split; [| split]].
    + split; [intros _; apply Hfail; reflexivity | reflexivity].
    + intros e He. injection He as <-. split; [reflexivity |].
      rewrite <- (app_nil_r (List.map Scraping (log w'))).
      apply files_written_scraping.
    + split; [discriminate |]. intros (phones & w'' & Hphones & _). discriminate Hphones.
    + intros phones w'' Hphones. discriminate Hphones.
  - pose proof (scraped_phone_rows root w w' phones Hscrape) as Hbound.
    assert (Hcount : List.length phones = List.length (children root)).
    { destruct (scrape_phones_phones _ _ _ _ _ Hscrape) as (added & -> & Hnames & _).
      apply (f_equal (@List.length string)) in Hnames.
      rewrite !List.length_map in Hnames. exact Hnames. }
    unfold write_to_csv in *. cbn [writerows List.forallb]. rewrite Hheaders.
    cbn [andb].
    pose proof (writerows_spec encodable (List.concat (List.map phone_rows phones)))
      as Hspec.
    pose proof (writerows_length encodable (List.concat (List.map phone_rows phones)))
      as Hlength.
    destruct (writerows encodable (List.concat (List.map phone_rows phones)))
      as [written [|]]; cbn [fst snd] in *.
    + destruct Hspec as [-> Hall].
      split; [| split; [| split]].
      * split; [discriminate |]. intros Hnode.
        apply Hfail in Hnode. discriminate Hnode.
      * intros e He. discriminate He.
      * split; [| reflexivity]. intros _. exists phones, w'.
        split; [reflexivity | exact Hall].
      * intros phones' w'' Hphones. injection Hphones as <- <-.
        exists (List.concat (List.map phone_rows phones)).
        split; [rewrite files_written_scraping; reflexivity |].
        split; [lia |]. left.
        split; [reflexivity | split; [reflexivity | apply last_of_two]].
    + destruct Hspec as [(r & rest & Hrows & Hr) Hall].
      split; [| split; [| split]].
      * split; [discriminate |]. intros Hnode.
        apply Hfail in Hnode. discriminate Hnode.
      * intros e He. discriminate He.
      * split; [discriminate |]. intros (phones' & w'' & Hphones & Hall').
        injection Hphones as <- <-. rewrite Hall in Hall'. discriminate Hall'.
      * intros phones' w'' Hphones. injection Hphones as <- <-.
        exists written.
        split; [rewrite files_written_scraping; reflexivity |].
        split; [lia |]. right.
        split; [reflexivity |]. split.
        -- exists r, rest. rewrite Hrows. split; [reflexivity | exact Hr].
        -- intros Hin. apply List.in_app_or in Hin as [Hin | [Hin | []]].
           ++ apply List.in_map_iff in Hin as (ev & Hev & _). discriminate Hev.
           ++ discriminate Hin.
Qed.

Lemma main_writes_up_to_the_failure_witness :
  exists rows,
    files_written
      (snd (main (fun r => negb (row_of_carrier "Bell" r)) one_fido_document "20240131"
              (mkWorld network_404 0 [])))
    = [("bestbuy_" ++ "20240131" ++ "_mobiles.csv", headers :: rows)]
    /\ (List.length rows <= 7 * List.length (children one_fido_document))%nat
    /\ ((fst (main (fun r => negb (row_of_carrier "Bell" r)) one_fido_document "20240131"
                (mkWorld network_404 0 []))
         = inr tt
         /\ headers :: rows
            = write_to_csv
                [mkPhone "Pixel 9"
                   [mkCarrier "Fido"
                      "https://www.bestbuy.ca/en-ca/product/fido-pixel-9/17000000" []]]
         /\ last (snd (main (fun r => negb (row_of_carrier "Bell" r)) one_fido_document
                         "20240131" (mkWorld network_404 0 [])))
            = Some PrintAllWritten)
        \/ (fst (main (fun r => negb (row_of_carrier "Bell" r)) one_fido_document
                   "20240131" (mkWorld network_404 0 []))
            = inl UnicodeEncodeError
            /\ (exists r rest,
                   write_to_csv
                     [mkPhone "Pixel 9"
                        [mkCarrier "Fido"
                           "https://www.bestbuy.ca/en-ca/product/fido-pixel-9/17000000" []]]
                   = (headers :: rows ++ r :: rest)%list
                   /\ (fun r => negb (row_of_carrier "Bell" r)) r = false)
            /\ ~ In PrintAllWritten
                   (snd (main (fun r => negb (row_of_carrier "Bell" r)) one_fido_document
                           "20240131" (mkWorld network_404 0 []))))).
Proof.
  refine (proj2 (proj2 (proj2 (main_writes_up_to_the_failure
                                 (fun r => negb (row_of_carrier "Bell" r))
                                 one_fido_document "20240131"
                                 (mkWorld network_404 0 []) eq_refl)))
            [mkPhone "Pixel 9"
               [mkCarrier "Fido"
                  "https://www.bestbuy.ca/en-ca/product/fido-pixel-9/17000000" []]]
            (snd (scrape one_fido_document (mkWorld network_404 0 []))) _).
  vm_compute. reflexivity.
Defined.

Example main_partial_file :
  main (fun r => negb (row_of_carrier "Bell" r)) one_fido_document "20240131"
    (mkWorld network_404 0 [])
  = (inl UnicodeEncodeError,
     [ Scraping (PrintStarted "Pixel 9" "Fido");
       Scraping (Request (pricing_url "17000000"));
       Scraping (PrintFailedToLoad "Pixel 9" "Fido");
       FileWritten "bestbuy_20240131_mobiles.csv"
         [ headers;
           placeholder_row (mkPhone "Pixel 9" []) "Rogers";
           placeholder_row (mkPhone "Pixel 9" []) "Virgin Plus" ] ]).
Proof. vm_compute. reflexivity. Qed.

(** ** The page scrapers *)

Lemma has_char_in (c : ascii) (s : string) :
  has_char c s = true <-> In c (list_ascii_of_string s).
Proof.
  induction s as [| x s IH]; cbn [has_char list_ascii_of_string].
  - split; [discriminate | intros []].
  - rewrite orb_true_iff, IH, Ascii.eqb_eq.
    split; (intros [H | H]; [left; symmetry; exact H | right; exact H]).
Qed.

Lemma lstrip_in (c : ascii) (l : list ascii) : In c (lstrip l) -> In c l.
Proof.
  induction l as [| x l IH]; cbn [lstrip]; [intros [] |].
  destruct (is_space x); [intros H; right; exact (IH H) | intros H; exact H].
Qed.

Lemma strip_in (c : ascii) (l : list ascii) : In c (strip l) -> In c l.
Proof.
  unfold strip. intros H. apply List.in_rev in H. apply lstrip_in in H.
  apply List.in_rev in H. apply lstrip_in in H. exact H.
Qed.

(** Stripping adds no character. *)
Lemma str_strip_keeps_absent (c : ascii) (s : string) :
  has_char c s = false -> has_char c (str_strip s) = false.
Proof.
  intros H. destruct (has_char c (str_strip s)) eqn:Hs; [| reflexivity].
  apply has_char_in in Hs. unfold str_strip in Hs.
  rewrite list_ascii_of_string_of_list_ascii in Hs. apply strip_in in Hs.
  apply has_char_in in Hs. congruence.
Qed.

(** A list that does not begin with white space. *)
Lemma lstrip_fixed (l : list ascii) :
  match l with c :: _ => is_space c = false | [] => True end -> lstrip l = l.
Proof. destruct l as [| c l]; [reflexivity |]. cbn [lstrip]. intros ->. reflexivity. Qed.

Lemma lstrip_clean (l : list ascii) :
  match lstrip l with c :: _ => is_space c = false | [] => True end.
Proof.
  induction l as [| x l IH]; cbn [lstrip]; [exact I |].
  destruct (is_space x) eqn:Hx; [exact IH | exact Hx].
Qed.

Lemma lstrip_suffix (l : list ascii) : exists spaces, l = (spaces ++ lstrip l)%list.
Proof.
  induction l as [| x l [spaces IH]]; [exists []; reflexivity |].
  cbn [lstrip]. destruct (is_space x).
  - exists (x :: spaces). cbn. f_equal. exact IH.
  - exists []. reflexivity.
Qed.

Lemma strip_idempotent (l : list ascii) : strip (strip l) = strip l.
Proof.
  unfold strip.
  set (A := lstrip l). set (B := lstrip (List.rev A)).
  assert (HA : match A with c :: _ => is_space c = false | [] => True end)
    by apply lstrip_clean.
  assert (HB : match B with c :: _ => is_space c = false | [] => True end)
    by apply lstrip_clean.
  assert (Hrev : match List.rev B with c :: _ => is_space c = false | [] => True end).
  { destruct (lstrip_suffix (List.rev A)) as [spaces Hsp]. fold B in Hsp.
    apply (f_equal (@List.rev ascii)) in Hsp.
    rewrite List.rev_involutive, List.rev_app_distr in Hsp.
    destruct (List.rev B) as [| c t]; [exact I |].
    rewrite Hsp in HA. exact HA. }
  rewrite (lstrip_fixed _ Hrev), List.rev_involutive, (lstrip_fixed _ HB). reflexivity.
Qed.

(** What [strip] returns has nothing left to strip. *)
Lemma str_strip_idempotent (s : string) : str_strip (str_strip s) = str_strip s.
Proof.
  unfold str_strip. rewrite list_ascii_of_string_of_list_ascii, strip_idempotent.
  reflexivity.
Qed.

(** Replacing a character by nothing leaves none of it. *)
Lemma str_replace_removes (c : ascii) (s : string) :
  has_char c (str_replace (String c EmptyString) EmptyString s) = false.
Proof.
  cbn [str_replace]. induction s as [| x s IH]; [reflexivity |].
  cbn [replace_go String.prefix String.length Nat.sub].
  destruct (Ascii.ascii_dec c x) as [-> | Hne].
  - destruct s; exact IH.
  - cbn [has_char]. rewrite IH, orb_false_r. apply Ascii.eqb_neq. exact Hne.
Qed.

(** X21: The price read from a page: never empty ("0" stands for a missing
    node and for a text with nothing in it but white space, dollar signs
    and the gift card caption), never with a dollar sign, never with white
    space around it. *)
Theorem extract_price_is_clean (node : option string) :
  extract_price node <> EmptyString
  /\ has_char "$" (extract_price node) = false
  /\ str_strip (extract_price node) = extract_price node.
Proof.
  destruct node as [node_text |]; cbn [extract_price];
    [| split; [discriminate | split; reflexivity]].
  set (inner := str_replace "$" EmptyString
                  (str_replace "Best Buy Gift Card" EmptyString (str_strip node_text))).
  destruct (String.eqb_spec (str_strip inner) EmptyString) as [Hempty | Hfull]; cbn [negb].
  - split; [discriminate | split; reflexivity].
  - split; [exact Hfull |]. split.
    + apply str_strip_keeps_absent. apply str_replace_removes.
    + apply str_strip_idempotent.
Qed.

Lemma prefix_of_append (p x y : string) :
  (String.length p <= String.length x)%nat ->
  String.prefix p (x ++ y) = String.prefix p x.
Proof.
  revert x. induction p as [| a p IH]; intros x Hlen;
    [destruct x; [rewrite append_nil; destruct y |]; reflexivity |].
  destruct x as [| b x]; cbn [String.length] in Hlen; [lia |].
  rewrite append_cons. cbn [String.prefix].
  destruct (Ascii.ascii_dec a b); [apply IH; lia | reflexivity].
Qed.

Lemma length_append (a b : string) :
  String.length (a ++ b) = (String.length a + String.length b)%nat.
Proof.
  induction a as [| x a IH]; [reflexivity |].
  rewrite append_cons. cbn [String.length]. rewrite IH. reflexivity.
Qed.

(** The first piece of a split is read up to the first separator: what
    follows it does not matter. *)
Lemma split_str_first (sep a t cur : string) :
  sep <> EmptyString ->
  List.hd EmptyString (split_str_go sep 0 cur (a ++ sep ++ t))
  = List.hd EmptyString (split_str_go sep 0 cur (a ++ sep)).
Proof.
  intros Hsep. revert cur. induction a as [| c a IH]; intros cur.
  - rewrite !append_nil.
    destruct sep as [| s0 sep]; [congruence |].
    rewrite append_cons. cbn [split_str_go].
    assert (H1 : String.prefix (String s0 sep) (String s0 (sep ++ t)) = true)
      by (apply prefix_iff; exists t; reflexivity).
    assert (H2 : String.prefix (String s0 sep) (String s0 sep) = true)
      by (apply prefix_iff; exists EmptyString; rewrite append_nil_r; reflexivity).
    rewrite H1, H2. reflexivity.
  - rewrite !append_cons. cbn [split_str_go].
    assert (Hp : String.prefix sep (String c (a ++ sep ++ t))
                 = String.prefix sep (String c (a ++ sep))).
    { rewrite <- (append_cons c a (sep ++ t)), <- (append_cons c a sep), <- append_assoc.
      apply prefix_of_append. rewrite length_append. lia. }
    rewrite Hp. destruct (String.prefix sep (String c (a ++ sep))); [reflexivity |].
    apply IH.
Qed.

(** X22: The two prices of an offer button. Without the button, or without
    its pricing container, both are "N/A"; a div that is missing gives "N/A"
    for its price alone. Neither price has a dollar sign or white space
    around it, and the monthly price is read from the text before the
    first "/mo." only. *)
Theorem extract_offer_price_is_clean (button : option (option pricing_container)) :
  let prices := extract_offer_price button in
  has_char "$" (fst prices) = false
  /\ has_char "$" (snd prices) = false
  /\ str_strip (fst prices) = fst prices
  /\ str_strip (snd prices) = snd prices
  /\ ((forall container, button <> Some (Some container)) -> prices = ("N/A", "N/A"))
  /\ (forall container, button = Some (Some container) ->
        (monthly_price_div container = None -> fst prices = "N/A")
        /\ (down_payment_div container = None -> snd prices = "N/A")
        /\ (forall amount rest, monthly_price_div container = Some (amount ++ "/mo." ++ rest) ->
              fst prices
              = fst (extract_offer_price
                       (Some (Some (mkPricingContainer (Some (amount ++ "/mo.")) None)))))).
Proof.
  destruct button as [[container |] |]; cbn [extract_offer_price fst snd].
  - destruct container as [monthly down]. cbn [monthly_price_div down_payment_div].
    assert (Hclean : forall s,
               has_char "$" (str_strip (str_replace "$" EmptyString s)) = false)
      by (intros s; apply str_strip_keeps_absent; apply str_replace_removes).
    split; [destruct monthly; [apply Hclean | reflexivity] |].
    split; [destruct down; [apply Hclean | reflexivity] |].
    split; [destruct monthly; [apply str_strip_idempotent | reflexivity] |].
    split; [destruct down; [apply str_strip_idempotent | reflexivity] |].
    split; [intros H; exfalso; exact (H _ eq_refl) |].
    intros container H. injection H as <-. cbn [monthly_price_div down_payment_div].
    split; [intros ->; reflexivity |]. split; [intros ->; reflexivity |].
    intros amount rest ->. unfold split_str.
    rewrite split_str_first by discriminate. reflexivity.
  - repeat split; try reflexivity; intros; discriminate.
  - repeat split; try reflexivity; intros; discriminate.
Qed.

(** The page scrapers on a few texts. Removing the dollar signs after the
    caption can put a caption together that was not there before. *)
Example page_scraper_examples :
  extract_price (Some "  $1,299.99 Best Buy Gift Card ") = "1,299.99"
  /\ extract_price (Some " $ ") = "0"
  /\ extract_price (Some "Best Buy Gift$ Card") = "Best Buy Gift Card"
  /\ extract_offer_price
       (Some (Some (mkPricingContainer (Some " $45.00/mo. for 24 months")
                      (Some "$0 down today"))))
     = ("45.00", "0")
  /\ str_replace "aa" "b" "aaaaa" = "bba"
  /\ split_str "/mo." "$45.00/mo. then $50.00/mo." = ["$45.00"; " then $50.00"; EmptyString].
Proof. vm_compute. repeat split. Qed.
